(** * Column inspection and cleaning: a shallow embedding

    The development follows [src/preprocessing/inspection.py],
    [src/preprocessing/cleaning.py] and [src/preprocessing/prepare.py].
    Columns are pandas [Series]; the heuristics of the inspection module are
    translated function by function over a small model of the pandas, NumPy
    and Python primitives they call.

    Conventions.
    - Python integers are [Z]; lengths and counts are [nat].  The model is
      exact while the values stay in the range that pandas holds exactly
      (int64, and 2^53 once a column is read as floats).
    - Floating point numbers are idealised as rationals [Q]: comparisons,
      maxima and truncation are exact on floats, products and quotients are
      taken without rounding.
    - What a text means to the Python, pandas and dateutil readers is not
      fixed here: it is the interface [Library], and every general statement
      holds for all its instances.  A reader returns [None] where the
      library raises or coerces to missing; texts that read as an infinity
      or as a float NaN are outside the model, as are booleans.
    - The global random state of NumPy is the interface [RandomSource];
      functions that draw from it or raise live in the monad [M]. *)

From Stdlib Require Import String Ascii DecimalString.
From Stdlib Require Import ZArith QArith Qminmax Qround Bool Lia.
From Stdlib Require Import List Permutation Sorted.
Import ListNotations.

Local Open Scope nat_scope.
Local Open Scope list_scope.
Local Open Scope string_scope.

(* ================================================================== *)
(** * NumPy primitives on arrays *)
(* ================================================================== *)

Section Sorting.
Context {A : Type} (leb : A -> A -> bool).

Fixpoint insert_sorted (x : A) (l : list A) : list A :=
  match l with
  | [] => [x]
  | y :: t => if leb x y then x :: y :: t else y :: insert_sorted x t
  end.

(** [np.sort]: the elements in ascending order. *)
Definition np_sort (l : list A) : list A := fold_right insert_sorted [] l.
End Sorting.

Section Unique.
Context {A : Type}.
Variable eq_dec : forall x y : A, {x = y} + {x <> y}.
Variable leb : A -> A -> bool.

(** [np.unique(a)]: the sorted distinct elements. *)
Definition np_unique (l : list A) : list A := np_sort leb (nodup eq_dec l).

(** [np.unique(a, return_counts=True)]: the sorted distinct elements and,
    position by position, how often each occurs. *)
Definition np_unique_counts (l : list A) : list A * list nat :=
  let unqs := np_unique l in
  (unqs, map (count_occ eq_dec l) unqs).
End Unique.

(** [np.diff]: differences of neighbours, [a[i+1] - a[i]]. *)
Fixpoint np_diff (l : list Z) : list Z :=
  match l with
  | a :: (b :: _) as t => (b - a)%Z :: np_diff t
  | _ => []
  end.

(** [np.max] and [np.min] on an integer array.  NumPy raises on an empty
    array; the callers below only reach them with a non-empty one, and the
    value chosen for [[]] is never observed. *)
Definition np_max (l : list Z) : Z :=
  match l with
  | [] => 0%Z
  | x :: t => fold_left Z.max t x
  end.

Definition np_min (l : list Z) : Z :=
  match l with
  | [] => 0%Z
  | x :: t => fold_left Z.min t x
  end.

(** [np.max] on a float array, same convention. *)
Definition np_max_float (l : list Q) : Q :=
  match l with
  | [] => 0%Q
  | x :: t => fold_left Qmax t x
  end.

(** [range(lo, hi)]. *)
Definition py_range (lo hi : Z) : list Z :=
  map (fun k => (lo + Z.of_nat k)%Z) (seq 0 (Z.to_nat (hi - lo))).

(** [int(x)] on a float: truncation toward zero. *)
Definition int_of_float (q : Q) : Z := Z.quot (Qnum q) (Zpos (Qden q)).

(** [str(n)] on an integer. *)
Definition str_of_int (z : Z) : string := NilZero.string_of_int (Z.to_int z).

Definition str_of_nat (n : nat) : string := str_of_int (Z.of_nat n).

(** [x in xs] on integers. *)
Definition int_in (x : Z) (xs : list Z) : bool := existsb (Z.eqb x) xs.

(** [x in xs] on names. *)
Definition str_in (x : string) (xs : list string) : bool :=
  existsb (String.eqb x) xs.

(** [np.all] and [np.sum] on a boolean array. *)
Definition np_all (l : list bool) : bool := forallb (fun b => b) l.
Definition np_sum (l : list bool) : nat := length (filter (fun b => b) l).

(** Boolean mask selection [a[mask]]. *)
Fixpoint mask_select {A : Type} (l : list A) (mask : list bool) : list A :=
  match l, mask with
  | x :: l', b :: mask' =>
      if b then x :: mask_select l' mask' else mask_select l' mask'
  | _, _ => []
  end.

(* ================================================================== *)
(** * Cells, dtypes and series *)
(* ================================================================== *)

(** A value held by a column. *)
Inductive cell : Type :=
| NaN                      (* the missing marker *)
| PyInt (z : Z)            (* an integer *)
| PyFloat (q : Q)          (* a finite float *)
| PyStr (s : string).      (* text *)

Inductive Dtype : Type :=
| DObject
| DString
| DInt
| DFloat
| DOther
| DCategory (categories_dtype : Dtype) (n_categories : nat).

(** [dtype.kind] as far as the code looks at it. *)
Inductive dtype_kind : Type := Kind_i | Kind_b | Kind_f | Kind_O.

(** A pandas [Series]: a dtype and the rows, each a label of the index and
    a value.  The default [RangeIndex] labels row [k] with [k]. *)
Record Series : Type := mkSeries {
  dtype : Dtype;
  rows : list (Z * cell)
}.

Definition values (s : Series) : list cell := map snd (rows s).
Definition index (s : Series) : list Z := map fst (rows s).
Definition len (s : Series) : nat := length (rows s).

(** A series on the default index. *)
Definition range_index (n : nat) : list Z := map Z.of_nat (seq 0 n).
Definition series_of (d : Dtype) (l : list cell) : Series :=
  mkSeries d (combine (range_index (length l)) l).

Definition isna_cell (c : cell) : bool :=
  match c with NaN => true | _ => false end.

(** [series.isna()] *)
Definition isna (s : Series) : list bool := map isna_cell (values s).

(** [series.dropna()] *)
Definition dropna (s : Series) : Series :=
  mkSeries (dtype s) (filter (fun r => negb (isna_cell (snd r))) (rows s)).

(** The exceptions that the code raises or lets through. *)
Inductive exn : Type :=
| KeyError (key : string)
| IndexError
| TypeError (message : string)
| ValueError (message : string)
| RuntimeError (message : string)
| OverflowError (message : string)
| InspectionError (message : string) (cause : exn).

(** What a call of [dateutil.parser.parse(s, fuzzy=False)] does: it returns
    a date, it raises [ValueError] (the parser's own [ParserError] is one),
    or it raises another exception, such as the [OverflowError] of a date
    too large for the system. *)
Inductive parse_outcome : Type :=
| Parsed
| ParseValueError
| ParseRaises (e : exn).

(** What the libraries outside the repository do with a single text, how
    they print floats and lists, and the dtype that [convert_dtypes] infers
    for a series. *)
Class Library : Type := {
  (** [int(s)] *)
  py_int : string -> option Z;
  (** [float(s)] *)
  py_float : string -> option Q;
  (** the number [pd.to_numeric(..., errors="coerce")] reads from a text *)
  to_numeric_text : string -> option Q;
  (** [str(x)] on a float *)
  str_of_float : Q -> string;
  (** [str(l)] on a list of strings *)
  str_of_list : list string -> string;
  (** [f"{100*p:< 2.2f}"] *)
  format_percent : Q -> string;
  (** [dateutil.parser.parse(s, fuzzy=False)] *)
  dateutil_parse : string -> parse_outcome;
  (** the text of the [KeyError] that pandas raises when rows are looked up
      by a list of integer labels, or columns by a list of names, and some
      are missing: it is given the labels asked for and the missing ones *)
  missing_labels_text : list nat -> list nat -> string;
  missing_names_text : list string -> list string -> string;
  (** the text of the [KeyError] that [drop] raises for labels that the
      axis does not hold *)
  not_found_text : list string -> string;
  (** kind of [series.convert_dtypes(infer_objects=True, convert_string=True,
      convert_integer=ci, convert_boolean=cb, convert_floating=cf).dtype] *)
  convert_dtypes_kind : forall (ci cb cf : bool), Series -> dtype_kind;
  (** [np.unique(a, return_counts=True)] on the raw values of a column;
      [None] when NumPy raises [TypeError] because they cannot be sorted *)
  np_unique_raw : list cell -> option (list cell * list nat)
}.

(** The global NumPy random state behind [np.random.permutation]. *)
Class RandomSource : Type := {
  rng : Type;
  permutation : rng -> nat -> list nat * rng;
  permutation_spec :
    forall g n, Permutation (fst (permutation g n)) (seq 0 n)
}.

(* ================================================================== *)
(** * Exceptions and the random state *)
(* ================================================================== *)

(** A computation that reads and advances the random state and either
    returns or raises. *)
Definition M {R : RandomSource} (A : Type) : Type := rng -> (exn + A) * rng.

Definition ret {R : RandomSource} {A : Type} (x : A) : M A :=
  fun g => (inr x, g).

Definition raise {R : RandomSource} {A : Type} (e : exn) : M A :=
  fun g => (inl e, g).

Definition bind {R : RandomSource} {A B : Type} (m : M A) (k : A -> M B)
  : M B :=
  fun g =>
    match m g with
    | (inr x, g') => k x g'
    | (inl e, g') => (inl e, g')
    end.

(** [try: m except Exception as e: h e] *)
Definition try_except {R : RandomSource} {A : Type} (m : M A)
  (h : exn -> M A) : M A :=
  fun g =>
    match m g with
    | (inr x, g') => (inr x, g')
    | (inl e, g') => h e g'
    end.

Definition np_random_permutation {R : RandomSource} (n : nat)
  : M (list nat) :=
  fun g => let (p, g') := permutation g n in (inr p, g').

Notation "x <- m ;; k" := (bind m (fun x => k))
  (at level 61, m at next level, right associativity).
Notation "' pat <- m ;; k" := (bind m (fun x => match x with pat => k end))
  (at level 61, pat pattern, m at next level, right associativity).

Fixpoint mapM {R : RandomSource} {A B : Type} (f : A -> M B) (l : list A)
  : M (list B) :=
  match l with
  | [] => ret []
  | x :: t => y <- f x ;; ys <- mapM f t ;; ret (y :: ys)
  end.

(** [N_CAT_LEVEL_MIN] of [_constants.py]. *)
Definition N_CAT_LEVEL_MIN : nat := 20.

Definition Qlt_bool (x y : Q) : bool := negb (Qle_bool y x).

(** [s[:-1]] *)
Fixpoint drop_last (s : string) : string :=
  match s with
  | EmptyString => EmptyString
  | String _ EmptyString => EmptyString
  | String c t => String c (drop_last t)
  end.

Section Inspection.
Context {L : Library} {R : RandomSource}.

(** [str(x)] on a cell. *)
Definition py_str (c : cell) : string :=
  match c with
  | NaN => "nan"
  | PyInt z => str_of_int z
  | PyFloat q => str_of_float q
  | PyStr s => s
  end.

(** [series.astype(str)] and [series.apply(str)]. *)
Definition astype_str (s : Series) : Series :=
  mkSeries DObject (map (fun r => (fst r, PyStr (py_str (snd r)))) (rows s)).

Definition str_values (s : Series) : list string := map py_str (values s).

(** [int(x)] on a cell; [None] when Python raises. *)
Definition int_of_cell (c : cell) : option Z :=
  match c with
  | NaN => None
  | PyInt z => Some z
  | PyFloat q => Some (int_of_float q)
  | PyStr s => py_int s
  end.

Fixpoint all_some {A : Type} (l : list (option A)) : option (list A) :=
  match l with
  | [] => Some []
  | None :: _ => None
  | Some x :: t =>
      match all_some t with Some t' => Some (x :: t') | None => None end
  end.

(** [series.astype(int)]; [None] when it raises. *)
Definition astype_int (s : Series) : option (list Z) :=
  all_some (map int_of_cell (values s)).

(** [float(x)] on a cell: [None] when Python raises, [Some None] for the
    missing marker, which converts to NaN. *)
Definition float_of_cell (c : cell) : option (option Q) :=
  match c with
  | NaN => Some None
  | PyInt z => Some (Some (inject_Z z))
  | PyFloat q => Some (Some q)
  | PyStr s => match py_float s with Some q => Some (Some q) | None => None end
  end.

(** [series.astype(float)]; [None] when it raises. *)
Definition astype_float (s : Series) : option (list (option Q)) :=
  all_some (map float_of_cell (values s)).

Definition to_numeric_cell (c : cell) : cell :=
  match c with
  | PyStr s =>
      match to_numeric_text s with Some q => PyFloat q | None => NaN end
  | _ => c
  end.

Definition is_int_cell (c : cell) : bool :=
  match c with PyInt _ => true | _ => false end.

(** [pd.to_numeric(series, errors="coerce")]: numbers stay, texts are read
    as numbers where possible, anything else becomes missing. *)
Definition to_numeric (s : Series) : Series :=
  let rs := map (fun r => (fst r, to_numeric_cell (snd r))) (rows s) in
  mkSeries (if forallb is_int_cell (map snd rs) then DInt else DFloat) rs.

(** The value of a numeric cell as a float. *)
Definition float_value (c : cell) : Q :=
  match c with
  | PyInt z => inject_Z z
  | PyFloat q => q
  | _ => 0%Q
  end.

(* ------------------------------------------------------------------ *)
(** ** inspection.py: numeric probes *)

(** [prob_unq_ordinals].  The floats are read as exact rationals, so this
    is the exact product; the binary64 product of the source is rounded at
    every step and underflows to [0.0] for large arguments.  The result 0
    of the guard and the result 1 of the empty loop are the same in both,
    and so are the bounds and the monotonicity of the product. *)
Definition prob_unq_ordinals (n_samples ordinal_max : Z) : Q :=
  if (n_samples >? ordinal_max)%Z then 0%Q
  else
    fold_left
      (fun p i =>
         let prob := (inject_Z (ordinal_max - i) / inject_Z ordinal_max)%Q in
         (p * prob)%Q)
      (py_range 1 (n_samples - 1)) 1%Q.

(** [maybe_large_ordinal]; the series it is given holds numbers only. *)
Definition maybe_large_ordinal (series : Series) : bool :=
  let prob :=
    prob_unq_ordinals (Z.of_nat (len series))
      (int_of_float (np_max_float (map float_value (values series)))) in
  Qle_bool (1 # 2) prob.

(** [converts_to_int] *)
Definition converts_to_int (series : Series) : bool :=
  match astype_int series with
  | Some _ => true
  | None =>
      match convert_dtypes_kind true true false series with
      | Kind_i | Kind_b => true
      | _ => false
      end
  end.

(** [str(x) == y] between the text printed for a float and a cell. *)
Definition str_eq_cell (t : string) (c : cell) : bool :=
  match c with
  | PyStr s => String.eqb t s
  | _ => false
  end.

Definition str_of_float_opt (x : option Q) : string :=
  match x with Some q => str_of_float q | None => "nan" end.

(** [converts_to_float] *)
Definition converts_to_float (series : Series) : bool :=
  let round_trips :=
    match astype_float series with
    | Some floats =>
        let converted := map str_of_float_opt floats in
        np_all (map (fun p => str_eq_cell (fst p) (snd p))
                    (combine converted (values series)))
    | None => false
    end in
  if round_trips then true
  else
    match convert_dtypes_kind false false true series with
    | Kind_f => true
    | _ => false
    end.

(** [looks_ordinal] *)
Definition looks_ordinal (series : Series) : bool * string :=
  let forced := to_numeric series in
  let idx := isna forced in
  if np_all idx then (false, "")
  else
    let dropped := dropna forced in
    if negb (converts_to_int dropped) then (false, "")
    else
      match astype_int dropped with
      | None => (false, "")
      | Some ints =>
          let (unq_ints, cnts) := np_unique_counts Z.eq_dec Z.leb ints in
          let vmin := np_min ints in
          let vmax := np_max ints in
          if np_all (map (Nat.eqb 1) cnts) then
            if maybe_large_ordinal dropped then
              (true,
               "All unique values in large range [" ++ str_of_int vmin ++ ", "
                 ++ str_of_int vmax ++ "] relative to number of samples")
            else (false, "All unique values")
          else
            let diffs := np_diff (np_sort Z.leb unq_ints) in
            let unq_diffs := np_unique Z.eq_dec Z.leb diffs in
            if (length unq_diffs =? 1)%nat then
              if ((vmin =? 0) && (vmax =? 1))%Z then
                (true,
                 "Binary {" ++ str_of_int vmin ++ ", " ++ str_of_int vmax
                   ++ "} indicator")
              else
                (true,
                 "Increasing integers in [" ++ str_of_int vmin ++ ", "
                   ++ str_of_int vmax ++ "]")
            else
              let imax := np_max unq_ints in
              if int_in imax [4; 6]%Z then
                (true,
                 "Largest int is a common 0-indexed Likert-type scale value: "
                   ++ str_of_int imax)
              else if int_in imax [5; 7]%Z then
                (true,
                 "Largest int is a common Likert-type scale value: "
                   ++ str_of_int imax)
              else if int_in imax [10; 100]%Z then
                (true, "Largest int is a common scale max: " ++ str_of_int imax)
              else if int_in imax [9; 99]%Z then
                (true,
                 "Largest int is a common 0-indexed scale max: "
                   ++ str_of_int imax)
              else (false, "")
      end.

(** [is_timelike]: the first two handlers catch every exception, the
    third one [ValueError] only, so that any other exception of the
    parser is raised. *)
Definition is_timelike (s : string) : exn + bool :=
  match py_int s with
  | Some _ => inr false
  | None =>
      match py_float s with
      | Some _ => inr false
      | None =>
          match dateutil_parse s with
          | Parsed => inr true
          | ParseValueError => inr false
          | ParseRaises e => inl e
          end
      end
  end.

(** The rows at the positions [idx]; [None] for a position out of range. *)
Fixpoint iloc_rows (s : Series) (idx : list nat) : option (list (Z * cell)) :=
  match idx with
  | [] => Some []
  | i :: t =>
      match nth_error (rows s) i, iloc_rows s t with
      | Some r, Some rs => Some (r :: rs)
      | _, _ => None
      end
  end.

(** The rows labelled by [idx], label after label; when the index does
    not hold every label, the missing ones are returned on the left. *)
Fixpoint loc_rows (s : Series) (idx : list nat)
  : list nat + list (Z * cell) :=
  match idx with
  | [] => inr []
  | i :: t =>
      match filter (fun r => Z.eqb (fst r) (Z.of_nat i)) (rows s),
            loc_rows s t with
      | [], inr _ => inl [i]
      | [], inl missing => inl (i :: missing)
      | _ :: _, inl missing => inl missing
      | found, inr rs => inr (found ++ rs)%list
      end
  end.

(** [series.iloc[idx]]: rows by position. *)
Definition iloc (s : Series) (idx : list nat) : M (list (Z * cell)) :=
  match iloc_rows s idx with
  | Some rs => ret rs
  | None => raise IndexError
  end.

(** [series.loc[idx]]: rows by label; every label has to be in the index,
    or one [KeyError] is raised for all the missing ones. *)
Definition loc (s : Series) (idx : list nat) : M (list (Z * cell)) :=
  match loc_rows s idx with
  | inr rs => ret rs
  | inl missing => raise (KeyError (missing_labels_text idx missing))
  end.

(** [series.apply(is_timelike)] on a series of texts, row after row: the
    first exception of [is_timelike] is raised. *)
Fixpoint apply_is_timelike (rs : list (Z * cell)) : exn + list bool :=
  match rs with
  | [] => inr []
  | r :: t =>
      match is_timelike (py_str (snd r)), apply_is_timelike t with
      | inl e, _ => inl e
      | inr _, inl e => inl e
      | inr b, inr bs => inr (b :: bs)
      end
  end.

(** A result or an exception that does not touch the random state. *)
Definition lift {A : Type} (r : exn + A) : M A := fun g => (r, g).

Definition ratio (k n : nat) : Q :=
  (inject_Z (Z.of_nat k) / inject_Z (Z.of_nat n))%Q.

(** [ceil(0.5 * N)] *)
Definition ceil_half (n : nat) : nat := Nat.div2 (S n).

(** [looks_timelike] *)
Definition looks_timelike (series : Series) : M (bool * string) :=
  if converts_to_int series then ret (false, "Converts to int")
  else if converts_to_float series then ret (false, "Converts to float")
  else
    let series := astype_str series in
    let level_counts :=
      snd (np_unique_counts string_dec String.leb (str_values series)) in
    if np_all (map (fun c => (N_CAT_LEVEL_MIN <? c)%nat) level_counts) then
      ret (false, "Looks like well-sampled categorical")
    else
      let N := len series in
      let n_subsamp := Nat.max (ceil_half N) 500 in
      let n_subsamp := Nat.min n_subsamp N in
      perm <- np_random_permutation N ;;
      let idx := firstn n_subsamp perm in
      sub <- iloc series idx ;;
      flags <- lift (apply_is_timelike sub) ;;
      let percent := ratio (np_sum flags) n_subsamp in
      if Qle_bool 1 percent then ret (true, "100% of data parses as datetime")
      else if Qlt_bool (1 / 3) percent then
        sub' <- loc series idx ;;
        flags' <- lift (apply_is_timelike sub') ;;
        let p := ratio (np_sum flags') (length sub') in
        if Qlt_bool (1 # 2) p then
          ret (true,
               format_percent p
                 ++ "% of data appears parseable as datetime data")
        else ret (false, "")
      else ret (false, "").

(** [looks_floatlike] *)
Definition looks_floatlike (series : Series) : bool * string :=
  if converts_to_int series then (false, "Converts to int")
  else if fst (looks_ordinal series) then (false, "Looks ordinal")
  else
    match astype_float series with
    | Some _ => (true, "All values are not integers and convert to float")
    | None =>
        let forced := to_numeric series in
        let idx := isna forced in
        if np_all idx then (false, "No values parse as valid floats")
        else if Qlt_bool (2 # 10) (ratio (np_sum idx) (length idx)) then
          let odd_vals :=
            np_unique string_dec String.leb
              (mask_select (str_values series) idx) in
          let desc :=
            if (5 <? length odd_vals)%nat then
              drop_last (str_of_list (firstn 5 odd_vals)) ++ " ...]"
            else str_of_list odd_vals in
          (true,
           "More than 20% of values parse as floats, but couldn't parse values: "
             ++ desc)
        else (false, "Less than 20% of values parse as floats")
    end.

(** [looks_id_like] *)
Definition looks_id_like (series : Series) : M (bool * string) :=
  if fst (looks_floatlike series) then ret (false, "Appears float-like")
  else
    match dtype series with
    | DCategory _ n_categories =>
        if (len series <? 2 * n_categories)%nat then
          ret (true,
               "More unique values than one half of number of non-NaN samples")
        else ret (false, "Is Pandas categorical type already")
    | _ =>
        let cnts :=
          snd (np_unique_counts string_dec String.leb (str_values series)) in
        if np_all (map (Nat.eqb 1) cnts) then
          ret (true, "All values including possible NaNs are unique")
        else
          let dropped := dropna series in
          if (2 * len dropped <? len series)%nat then
            ret (false, "More than half of data is NaN")
          else
            match np_unique_raw (values dropped) with
            | None => raise (TypeError "values of the column cannot be ordered")
            | Some (unqs, cnts) =>
                if np_all (map (Nat.eqb 1) cnts) then
                  ret (true, "All non-NaN values are unique")
                else if (len dropped <=? 2 * length unqs)%nat then
                  ret (true,
                       "More unique values than one half of number of non-NaN samples")
                else ret (false, "")
            end
    end.

(** [looks_categorical] *)
Definition looks_categorical (series : Series) : M (bool * string) :=
  if fst (looks_floatlike series) then ret (false, "Converts to float")
  else
    t <- looks_timelike series ;;
    if fst t then ret (false, "Looks timelike")
    else
      i <- looks_id_like series ;;
      if fst i then ret (false, "Looks identifier-like")
      else if negb (converts_to_int series) then ret (true, "String data")
      else if negb (fst (looks_ordinal series)) then
        ret (true, "Integer data but not ordinal-like")
      else ret (true, "Either categorical or ordinal").

(** [looks_constant] *)
Definition looks_constant (series : Series) : bool * string :=
  if (length (np_unique string_dec String.leb (str_values (astype_str series)))
      =? 1)%nat
  then (true, "Single value even if including NaNs")
  else (false, "Two or more unique values including NaNs").

End Inspection.

(* ================================================================== *)
(** * Data frames, dictionaries and the records of inspection.py *)
(* ================================================================== *)

Record Column : Type := mkColumn {
  col_dtype : Dtype;
  col_values : list cell
}.

(** A [DataFrame]: the row labels and the named columns, every column as
    long as the index. *)
Record DataFrame : Type := mkFrame {
  df_index : list Z;
  df_columns : list (string * Column)
}.

Definition column_names (df : DataFrame) : list string :=
  map fst (df_columns df).

(** [len(df)] and [df.shape] *)
Definition n_rows (df : DataFrame) : nat := length (df_index df).
Definition n_cols (df : DataFrame) : nat := length (df_columns df).

Definition series_of_column (df : DataFrame) (c : Column) : Series :=
  mkSeries (col_dtype c) (combine (df_index df) (col_values c)).

Fixpoint assoc {A : Type} (k : string) (l : list (string * A)) : option A :=
  match l with
  | [] => None
  | (k', v) :: t => if String.eqb k k' then Some v else assoc k t
  end.

(** A Python [dict] with string keys, in insertion order. *)
Definition dict (A : Type) : Type := list (string * A).

Fixpoint dict_set {A : Type} (k : string) (v : A) (d : dict A) : dict A :=
  match d with
  | [] => [(k, v)]
  | (k', v') :: t =>
      if String.eqb k k' then (k', v) :: t else (k', v') :: dict_set k v t
  end.

Definition dict_keys {A : Type} (d : dict A) : list string := map fst d.

(** [d.update(e)] *)
Definition dict_update {A : Type} (d e : dict A) : dict A :=
  fold_left (fun acc kv => dict_set (fst kv) (snd kv) acc) e d.

(** [sorted(s)] on a set of names given as a list. *)
Definition sorted_set (l : list string) : list string :=
  np_sort String.leb (nodup string_dec l).

Inductive ColumnType : Type :=
| Id | Time | Const | Float | Ordinal | Categorical | BigCat | Nyan | Other.

Definition ColumnType_eqb (a b : ColumnType) : bool :=
  match a, b with
  | Id, Id | Time, Time | Const, Const | Float, Float | Ordinal, Ordinal
  | Categorical, Categorical | BigCat, BigCat | Nyan, Nyan | Other, Other =>
      true
  | _, _ => false
  end.

Record InflationInfo : Type := mkInflationInfo {
  col : string;
  to_deflate : list string;
  to_keep : list string;
  n_deflate : nat;
  n_keep : nat;
  n_total : nat
}.

Record ColumnDescriptions : Type := mkDescriptions {
  desc_col : string;
  desc_const : option string;
  desc_time : option string;
  desc_ord : option string;
  desc_id : option string;
  desc_float : option string;
  desc_cat : option string
}.

Record InspectionInfo : Type := mkInfo {
  kind : ColumnType;
  descs : dict string
}.

Record InspectionResults : Type := mkResults {
  floats : InspectionInfo;
  ords : InspectionInfo;
  ids : InspectionInfo;
  times : InspectionInfo;
  consts : InspectionInfo;
  cats : InspectionInfo;
  int_ords : InspectionInfo;
  int_ids : InspectionInfo;
  big_cats : dict nat;
  nyan_cats : InspectionInfo;
  inflation : list InflationInfo;
  bin_cats : list string;
  multi_cats : list string
}.

Section Aggregation.
Context {L : Library} {R : RandomSource}.

(** [df[col]] *)
Definition getitem (df : DataFrame) (name : string) : M Series :=
  match assoc name (df_columns df) with
  | Some c => ret (series_of_column df c)
  | None => raise (KeyError name)
  end.

(** [df.drop(columns=target, errors="ignore")] *)
Definition drop_ignore (df : DataFrame) (names : list string) : DataFrame :=
  mkFrame (df_index df)
    (filter (fun c => negb (str_in (fst c) names)) (df_columns df)).

(** [df.drop(columns=target)] *)
Definition drop_column (df : DataFrame) (target : string) : M DataFrame :=
  if str_in target (column_names df) then ret (drop_ignore df [target])
  else raise (KeyError (not_found_text [target])).

Definition is_str_dtype (d : Dtype) : bool :=
  match d with DObject | DString | DCategory _ _ => true | _ => false end.

Definition is_int_dtype (d : Dtype) : bool :=
  match d with DInt => true | _ => false end.

(** [get_str_cols] *)
Definition get_str_cols (df : DataFrame) (target : string) : list string :=
  let X := drop_ignore df [target] in
  map fst (filter (fun c => is_str_dtype (col_dtype (snd c))) (df_columns X)).

(** [get_int_cols] *)
Definition get_int_cols (df : DataFrame) (target : string) : list string :=
  let X := drop_ignore df [target] in
  map fst (filter (fun c => is_int_dtype (col_dtype (snd c))) (df_columns X)).

(** [get_unq_counts] *)
Definition get_unq_counts (df : DataFrame) (target : string)
  : dict nat * dict Z :=
  let X := drop_ignore df [target] in
  fold_left
    (fun acc c =>
       let series := series_of_column df (snd c) in
       let nans := (0 <? np_sum (isna series))%nat in
       let n_unqs :=
         match np_unique_raw (values series) with
         | Some (unqs, _) => length unqs
         | None =>
             length (np_unique string_dec String.leb
                       (str_values (astype_str series)))
         end in
       (dict_set (fst c) n_unqs (fst acc),
        dict_set (fst c) (Z.of_nat n_unqs - (if nans then 1 else 0))%Z
          (snd acc)))
    (df_columns X) ([], []).

(** The body of the loop of [detect_big_cats] for one column: [None] is
    [continue]. *)
Definition inflation_of (name : string) (series : Series)
  : option InflationInfo :=
  let (unqs, cnts) :=
    np_unique_counts string_dec String.leb (str_values (astype_str series)) in
  let n_total := length unqs in
  if (n_total <=? 2)%nat then None
  else
    let keep_idx := map (fun c => (N_CAT_LEVEL_MIN <=? c)%nat) cnts in
    if np_all keep_idx then None
    else
      let n_keep := np_sum keep_idx in
      let n_deflate := length keep_idx - n_keep in
      Some (mkInflationInfo name
              (mask_select unqs (map negb keep_idx))
              (mask_select unqs keep_idx)
              n_deflate n_keep n_total).

Definition option_list {A : Type} (o : option A) : list A :=
  match o with Some x => [x] | None => [] end.

(** [detect_big_cats] of inspection.py *)
Definition detect_big_cats (df : DataFrame) (unique_counts : dict nat)
  (all_cats : list string)
  : M (dict nat * list InflationInfo * InspectionInfo) :=
  let big_cats :=
    filter (fun name =>
              match assoc name unique_counts with
              | Some n => (20 <=? n)%nat
              | None => false
              end) all_cats in
  let count_of name :=
    match assoc name unique_counts with Some n => n | None => 0 end in
  let big_cols :=
    fold_left
      (fun d name => dict_set name (str_of_nat (count_of name) ++ " levels") d)
      big_cats [] in
  let inspect_info := mkInfo BigCat big_cols in
  found <- mapM (fun name =>
                   series <- getitem df name ;;
                   ret (option_list (inflation_of name series)))
                all_cats ;;
  let inflation_infos := concat found in
  ret (fold_left (fun d name => dict_set name (count_of name) d) big_cats [],
       inflation_infos, inspect_info).

Definition is_some {A : Type} (o : option A) : bool :=
  match o with Some _ => true | None => false end.

(** [inspect_str_column]: the description of the column, or the column
    name with the exception that its inspection raised. *)
Definition inspect_str_column (name : string) (series : Series)
  (cats ords : list string) : M (ColumnDescriptions + string * exn) :=
  let result := mkDescriptions name None None None None None None in
  let undeclared := negb (str_in name ords) && negb (str_in name cats) in
  try_except
    (let '(is_const, desc) := looks_constant series in
     if is_const then
       ret (inl (mkDescriptions name (Some desc) None None None None None))
     else
       '(maybe_time, desc) <- looks_timelike series ;;
       if maybe_time then
         ret (inl (mkDescriptions name None (Some desc) None None None None))
       else
         let '(maybe_ord, desc) := looks_ordinal series in
         let ord := if maybe_ord && undeclared then Some desc else None in
         '(maybe_id, desc) <- looks_id_like series ;;
         let id := if maybe_id then Some desc else None in
         let '(maybe_float, desc) := looks_floatlike series in
         let float := if maybe_float then Some desc else None in
         if maybe_float || maybe_id || maybe_time then
           ret (inl (mkDescriptions name None None ord id float None))
         else
           '(maybe_cat, desc) <- looks_categorical series ;;
           let cat := if maybe_cat && undeclared then Some desc else None in
           ret (inl (mkDescriptions name None None ord id float cat)))
    (fun e => ret (inr (name, e))).

Record Infos : Type := mkInfos {
  float_info : InspectionInfo;
  ord_info : InspectionInfo;
  id_info : InspectionInfo;
  time_info : InspectionInfo;
  cat_info : InspectionInfo;
  const_info : InspectionInfo
}.

Definition set_opt (name : string) (o : option string) (d : dict string)
  : dict string :=
  match o with Some v => dict_set name v d | None => d end.

(** The body of the loop of [inspect_str_columns] for a description. *)
Definition record_desc (acc : Infos) (d : ColumnDescriptions) : Infos :=
  let n := desc_col d in
  mkInfos
    (mkInfo Float (set_opt n (desc_float d) (descs (float_info acc))))
    (mkInfo Ordinal (set_opt n (desc_ord d) (descs (ord_info acc))))
    (mkInfo Id (set_opt n (desc_id d) (descs (id_info acc))))
    (mkInfo Time (set_opt n (desc_time d) (descs (time_info acc))))
    (mkInfo Categorical (set_opt n (desc_cat d) (descs (cat_info acc))))
    (mkInfo Const (set_opt n (desc_const d) (descs (const_info acc)))).

(** The loop of [inspect_str_columns] over what the workers returned: the
    first failure is raised. *)
Fixpoint collect_descs (ds : list (ColumnDescriptions + string * exn))
  (acc : Infos) : M Infos :=
  match ds with
  | [] => ret acc
  | inr (name, error) :: _ =>
      raise (InspectionError
               ("Could not interpret data in feature " ++ name
                  ++ ". Additional information should be above.")
               error)
  | inl d :: t => collect_descs t (record_desc acc d)
  end.

Definition empty_infos : Infos :=
  mkInfos (mkInfo Float []) (mkInfo Ordinal []) (mkInfo Id [])
    (mkInfo Time []) (mkInfo Categorical []) (mkInfo Const []).

(** The descriptions that the workers of [inspect_str_columns] compute. *)
Definition describe_columns (df : DataFrame) (str_cols : list string)
  (categoricals ordinals : list string)
  : M (list (ColumnDescriptions + string * exn)) :=
  mapM (fun name =>
          series <- getitem df name ;;
          inspect_str_column name series categoricals ordinals)
       str_cols.

(** [inspect_str_columns] *)
Definition inspect_str_columns (df : DataFrame) (str_cols : list string)
  (categoricals ordinals : list string) : M Infos :=
  ds <- describe_columns df str_cols categoricals ordinals ;;
  collect_descs ds empty_infos.

(** [inspect_int_columns] *)
Definition inspect_int_columns (df : DataFrame) (int_cols : list string)
  (categoricals ordinals : list string)
  : M (InspectionInfo * InspectionInfo * InspectionInfo) :=
  results <- inspect_str_columns df int_cols categoricals ordinals ;;
  ret (ord_info results, id_info results, const_info results).

(** [inspect_other_columns] *)
Definition inspect_other_columns (df : DataFrame) (other_cols : list string)
  : M InspectionInfo :=
  found <- mapM (fun name =>
                   series <- getitem df name ;;
                   let '(is_const, desc) := looks_constant series in
                   ret (if is_const then [(name, desc)] else []))
                other_cols ;;
  ret (mkInfo Const
         (fold_left (fun d kv => dict_set (fst kv) (snd kv) d)
            (concat found) [])).

(** [InspectionInfo.merge] *)
Definition merge (infos : list InspectionInfo) : M InspectionInfo :=
  match infos with
  | [] => raise (ValueError "Nothing to merge")
  | first :: _ =>
      if negb (forallb (fun i => ColumnType_eqb (kind i) (kind first)) infos)
      then raise (ValueError "Cannot merge when kinds differ.")
      else
        ret (mkInfo (kind first)
               (fold_left (fun d i => dict_update d (descs i)) infos []))
  end.

(** The first loop of [inspect_data]: a column of categorical dtype is cast
    to the dtype of its categories, which pandas refuses for integer
    categories next to a missing value. *)
Definition uncategorize (c : string * Column) : M (string * Column) :=
  match col_dtype (snd c) with
  | DCategory d _ =>
      if is_int_dtype d && existsb isna_cell (col_values (snd c)) then
        raise (ValueError "Cannot convert float NaN to integer")
      else ret (fst c, mkColumn d (col_values (snd c)))
  | _ => ret c
  end.

Definition ambiguity_message (ambiguous : list string) : string :=
  "Cannot automatically determine the cardinality of features: "
    ++ str_of_list ambiguous
    ++ ". Specify each of these as either ordinal or "
    ++ "categorical using the `--ordinals` and `--categoricals` options "
    ++ "to df-analyze, or eliminate them using the `--drops` option.".

Definition keys_where (p : Z -> bool) (d : dict Z) : list string :=
  map fst (filter (fun kv => p (snd kv)) d).

Definition inter (l m : list string) : list string :=
  filter (fun x => str_in x m) l.

Definition minus (l m : list string) : list string :=
  filter (fun x => negb (str_in x m)) l.

(** [inspect_data] *)
Definition inspect_data (df : DataFrame) (target : string)
  (categoricals ordinals : list string) : M InspectionResults :=
  columns <- mapM uncategorize (df_columns df) ;;
  let df := mkFrame (df_index df) columns in
  let str_cols := get_str_cols df target in
  let int_cols := get_int_cols df target in
  df <- drop_column df target ;;
  let remain := minus (minus (column_names df) str_cols) int_cols in
  strs <- inspect_str_columns df str_cols categoricals ordinals ;;
  '(int_ords, int_ids, int_consts) <-
    inspect_int_columns df int_cols categoricals ordinals ;;
  other_consts <- inspect_other_columns df remain ;;
  all_consts <- merge [const_info strs; int_consts; other_consts] ;;
  let all_cats := (categoricals ++ dict_keys (descs (cat_info strs)))%list in
  let '(unique_counts, nanless_cnts) := get_unq_counts df target in
  '(bigs, inflation, big_info) <- detect_big_cats df unique_counts all_cats ;;
  let bin_cats := keys_where (fun cnt => (cnt =? 2)%Z) nanless_cnts in
  let nyan_cats := keys_where (fun cnt => (cnt =? 1)%Z) nanless_cnts in
  let multi_cats := keys_where (fun cnt => (cnt >? 2)%Z) nanless_cnts in
  let bin_cats := sorted_set (inter bin_cats all_cats) in
  let nyan_cats := sorted_set (inter nyan_cats all_cats) in
  let multi_cats := sorted_set (inter multi_cats all_cats) in
  let nyan_cols :=
    fold_left (fun d name => dict_set name "Constant when dropping NaNs" d)
      nyan_cats [] in
  let nyan_info := mkInfo Nyan nyan_cols in
  let all_ordinals :=
    (dict_keys (descs (ord_info strs)) ++ dict_keys (descs int_ords))%list in
  let ambiguous := inter all_ordinals (dict_keys (descs (cat_info strs))) in
  let ambiguous := minus ambiguous categoricals in
  let ambiguous := minus ambiguous ordinals in
  let ambiguous := sorted_set ambiguous in
  if (0 <? length ambiguous)%nat then
    raise (TypeError (ambiguity_message ambiguous))
  else
    ret (mkResults (float_info strs) (ord_info strs) (id_info strs)
           (time_info strs) all_consts (cat_info strs) int_ords int_ids
           bigs nyan_info inflation bin_cats multi_cats).

End Aggregation.

(* ================================================================== *)
(** * cleaning.py *)
(* ================================================================== *)

(** Modelled from the spec: the enumeration [NanHandling] of
    [src/enumerables.py], which is not among the sources.  Its members are
    the four strategies of the continuous NaN handling stage (drop, mean,
    median, multivariate imputation), the ones [handle_continuous_nans]
    dispatches on. *)
Inductive NanHandling : Type := Drop | Mean | Median | Impute.

Definition is_Drop (na : NanHandling) : bool :=
  match na with Drop => true | _ => false end.

(** [df.loc[mask]] and [series[mask]] for a boolean mask on the same rows. *)
Definition filter_rows (df : DataFrame) (mask : list bool) : DataFrame :=
  mkFrame (mask_select (df_index df) mask)
    (map (fun c =>
            (fst c,
             mkColumn (col_dtype (snd c))
               (mask_select (col_values (snd c)) mask)))
         (df_columns df)).

Definition filter_series (s : Series) (mask : list bool) : Series :=
  mkSeries (dtype s) (mask_select (rows s) mask).

(** [df.dropna(axis="columns")] *)
Definition dropna_columns (df : DataFrame) : DataFrame :=
  mkFrame (df_index df)
    (filter (fun c => negb (existsb isna_cell (col_values (snd c))))
       (df_columns df)).

(** Row [i] of the frame, one cell per column. *)
Definition row_cells (df : DataFrame) (i : nat) : list cell :=
  map (fun c => nth i (col_values (snd c)) NaN) (df_columns df).

(** [df.dropna(axis="index")] *)
Definition dropna_rows (df : DataFrame) : DataFrame :=
  filter_rows df
    (map (fun i => negb (existsb isna_cell (row_cells df i)))
       (seq 0 (n_rows df))).

Definition index_eqb (a b : list Z) : bool :=
  if list_eq_dec Z.eq_dec a b then true else false.

Section Cleaning.
Context {L : Library} {R : RandomSource}.

(** The members of [NanHandling] in the order of their definition, and
    their [.value]. *)
Variable NanHandling_members : list NanHandling.
Variable NanHandling_value : NanHandling -> string.

(** [DataFrame(data=imputer.fit_transform(X), columns=X.columns)] for the
    scikit-learn imputer of a strategy. *)
Variable sklearn_impute : NanHandling -> DataFrame -> M DataFrame.

(** What pandas does when the indexes of the two sides differ and have to
    be aligned: in [frame[name] = series] and in
    [pd.concat([a, b], axis=1)]. *)
Variable setitem_realigned : DataFrame -> string -> Series -> M DataFrame.
Variable concat_realigned : DataFrame -> DataFrame -> M DataFrame.

(** The columns of the frame with the given names, in the order of the
    names. *)
Definition pick_columns (df : DataFrame) (names : list string)
  : list (string * Column) :=
  flat_map (fun name =>
              match assoc name (df_columns df) with
              | Some c => [(name, c)]
              | None => []
              end) names.

(** [df[names]] for a list of names: every name has to be a column, or one
    [KeyError] is raised for all the missing ones. *)
Definition select_columns (df : DataFrame) (names : list string)
  : M DataFrame :=
  match filter (fun name => negb (str_in name (column_names df))) names with
  | [] => ret (mkFrame (df_index df) (pick_columns df names))
  | missing => raise (KeyError (missing_names_text names missing))
  end.

(** [frame[name] = series] *)
Definition setitem (frame : DataFrame) (name : string) (series : Series)
  : M DataFrame :=
  if index_eqb (df_index frame) (index series) then
    let c := mkColumn (dtype series) (values series) in
    ret (mkFrame (df_index frame)
           (if str_in name (column_names frame)
            then map (fun kc => if String.eqb (fst kc) name
                                then (fst kc, c) else kc)
                     (df_columns frame)
            else (df_columns frame ++ [(name, c)])%list))
  else setitem_realigned frame name series.

(** [pd.concat([a, b], axis=1)] *)
Definition concat_columns (a b : DataFrame) : M DataFrame :=
  if index_eqb (df_index a) (df_index b) then
    ret (mkFrame (df_index a) (df_columns a ++ df_columns b)%list)
  else concat_realigned a b.

Definition exhaustion_message : string :=
  let others :=
    map NanHandling_value
      (filter (fun na => negb (is_Drop na)) NanHandling_members) in
  "Dropping NaNs resulted in either no remaining samples or features. "
    ++ "Consider changing the option `--nan` to another valid option. Other "
    ++ "valid options: " ++ str_of_list others.

(** [handle_continuous_nans] *)
Definition handle_continuous_nans (df : DataFrame) (target : string)
  (cat_cols : list string) (nans : NanHandling) : M DataFrame :=
  t <- getitem df target ;;
  let idx := map negb (isna t) in
  let df := filter_rows df idx in
  let drops := (cat_cols ++ [target])%list in
  let X := drop_ignore df drops in
  X_cat <- select_columns df cat_cols ;;
  y <- getitem df target ;;
  X_clean <-
    match nans with
    | Drop =>
        let X_clean := dropna_rows (dropna_columns X) in
        if (n_rows X_clean =? 0)%nat || (n_cols X_clean =? 0)%nat then
          raise (RuntimeError exhaustion_message)
        else ret X_clean
    | Mean | Median => sklearn_impute nans X
    | Impute => sklearn_impute Impute X
    end ;;
  X_clean <- setitem X_clean target y ;;
  concat_columns X_cat X_clean.

(** Equality of two values as [isin] and the label encoder see it: numbers
    by value, texts as strings, the missing marker equal to itself. *)
Definition cell_eqb (a b : cell) : bool :=
  match a, b with
  | NaN, NaN => true
  | PyStr s, PyStr t => String.eqb s t
  | (PyInt _ | PyFloat _), (PyInt _ | PyFloat _) =>
      Qeq_bool (float_value a) (float_value b)
  | _, _ => false
  end.

(** [series.isin(levels)] *)
Definition isin (s : Series) (levels : list cell) : list bool :=
  map (fun v => existsb (cell_eqb v) levels) (values s).

Fixpoint position (v : cell) (classes : list cell) : option nat :=
  match classes with
  | [] => None
  | c :: t =>
      if cell_eqb v c then Some 0 else option_map S (position v t)
  end.

(** [LabelEncoder().fit_transform(y)]: every value is replaced by its
    position among the sorted distinct values. *)
Definition LabelEncoder_fit_transform (y : Series) : M (list nat) :=
  match np_unique_raw (values y) with
  | None => raise (TypeError "labels cannot be ordered")
  | Some (classes, _) =>
      mapM (fun v =>
              match position v classes with
              | Some k => ret k
              | None => raise (ValueError "y contains previously unseen labels")
              end) (values y)
  end.

(** [encode_target]; [df] and [target] have the same rows, as at every
    call, where [target] is a column of [df]. *)
Definition encode_target (df : DataFrame) (target : Series)
  : M (DataFrame * Series) :=
  match np_unique_raw (values target) with
  | None => raise (TypeError "labels cannot be ordered")
  | Some (unqs, cnts) =>
      let idx := map (fun c => (c <=? 20)%nat) cnts in
      let '(df, target) :=
        if (0 <? np_sum idx)%nat then
          let idx_drop := map negb (isin target (mask_select unqs idx)) in
          (filter_rows df idx_drop, filter_series target idx_drop)
        else (df, target) in
      let idx_drop := map negb (isna target) in
      let df := filter_rows df idx_drop in
      let target := filter_series target idx_drop in
      encoded <- LabelEncoder_fit_transform target ;;
      ret (df, series_of DInt (map (fun k => PyInt (Z.of_nat k)) encoded))
  end.

End Cleaning.

(* ================================================================== *)
(** * cleaning.py: the older column cleaning *)
(* ================================================================== *)

Definition is_object_or_string (d : Dtype) : bool :=
  match d with DObject | DString => true | _ => false end.

Definition is_object (d : Dtype) : bool :=
  match d with DObject => true | _ => false end.

(** A float column cell: the missing marker or a number. *)
Definition cell_of_float (x : option Q) : cell :=
  match x with Some q => PyFloat q | None => NaN end.

Section OlderCleaning.
Context {L : Library} {R : RandomSource}.

(** The dtype that [infer_objects] gives to a column of object dtype. *)
Variable inferred_dtype : Column -> Dtype.

(** See [setitem]. *)
Variable setitem_realigned : DataFrame -> string -> Series -> M DataFrame.

(** [df.infer_objects()]: columns of object dtype get the inferred dtype,
    the others are left as they are. *)
Definition infer_objects (df : DataFrame) : DataFrame :=
  mkFrame (df_index df)
    (map (fun c =>
            (fst c,
             if is_object (col_dtype (snd c))
             then mkColumn (inferred_dtype (snd c)) (col_values (snd c))
             else snd c))
       (df_columns df)).

(** [df.select_dtypes(include=...)] *)
Definition select_dtypes (keep : Dtype -> bool) (df : DataFrame) : DataFrame :=
  mkFrame (df_index df)
    (filter (fun c => keep (col_dtype (snd c))) (df_columns df)).

(** [len(np.unique(series))], with the fallback to the stringified values
    when the raw ones cannot be sorted. *)
Definition unique_count (series : Series) : nat :=
  match np_unique_raw (values series) with
  | Some (unqs, _) => length unqs
  | None =>
      length (np_unique string_dec String.leb
                (str_values (astype_str series)))
  end.

(** [floatify]; the loop treats every column on its own, the names being
    distinct. *)
Definition floatify (df : DataFrame) : DataFrame :=
  mkFrame (df_index df)
    (map (fun c =>
            if is_object_or_string (col_dtype (snd c)) then
              match astype_float (series_of_column df (snd c)) with
              | Some floats => (fst c, mkColumn DFloat (map cell_of_float floats))
              | None => c
              end
            else c)
       (df_columns df)).

(** [drop_id_cols] *)
Definition drop_id_cols (df : DataFrame) (target : string)
  : M (DataFrame * list string) :=
  let X := infer_objects (drop_ignore df [target]) in
  let unique_counts :=
    fold_left
      (fun acc c =>
         match assoc (fst c) (df_columns df) with
         | Some c' =>
             dict_set (fst c) (unique_count (series_of_column df c')) acc
         | None => acc
         end)
      (df_columns X) [] in
  let str_cols := column_names (select_dtypes is_object_or_string X) in
  let id_cols :=
    filter (fun name =>
              match assoc name unique_counts with
              | Some n => (n_rows df / 5 <=? n)%nat
              | None => false
              end) str_cols in
  if (length id_cols =? 0)%nat then ret (df, [])
  else
    let X := drop_ignore X id_cols in
    t <- getitem df target ;;
    X <- setitem setitem_realigned X target t ;;
    ret (X, id_cols).

(** [detect_big_cats] of cleaning.py *)
Definition detect_big_cats_of_counts (unique_counts : dict nat)
  (str_cols : list string) : list string :=
  filter (fun name =>
            match assoc name unique_counts with
            | Some n => (20 <=? n)%nat
            | None => false
            end) str_cols.

(** [remove_timestamps] *)
Definition remove_timestamps (df : DataFrame) (target : string)
  : M (DataFrame * list string) :=
  let X :=
    dropna_rows
      (select_dtypes is_object (infer_objects (drop_ignore df [target]))) in
  found <- mapM (fun c =>
                   t <- looks_timelike (series_of_column X (snd c)) ;;
                   ret (if fst t then [fst c] else []))
                (df_columns X) ;;
  let drops := concat found in
  ret (drop_ignore df drops, drops).

(** What [np.load] returns, as far as [load_as_df] looks at it. *)
Record ndarray : Type := mkArray {
  ndim : nat;
  shape0 : nat;
  array_columns : list Column
}.

(** The readers of files, given the path. *)
Variable read_json : string -> M DataFrame.
Variable read_csv : string -> M DataFrame.
Variable read_parquet : string -> M DataFrame.
Variable read_excel : string -> M DataFrame.
Variable load_spreadsheet : string -> M DataFrame.
Variable np_load : string -> M ndarray.

Definition FILETYPES : list string :=
  [".json"; ".csv"; ".npy"; "xlsx"; ".parquet"].

(** [load_as_df]; [suffix] is [path.suffix]. *)
Definition load_as_df (path suffix : string) (spreadsheet : bool)
  : M DataFrame :=
  if negb (str_in suffix FILETYPES) then
    raise (ValueError
             ("Invalid data file. Currently must be one of: "
                ++ str_of_list FILETYPES))
  else if String.eqb suffix ".json" then read_json path
  else if String.eqb suffix ".csv" then
    if spreadsheet then load_spreadsheet path else read_csv path
  else if String.eqb suffix ".parquet" then read_parquet path
  else if String.eqb suffix ".xlsx" then
    if spreadsheet then load_spreadsheet path else read_excel path
  else if String.eqb suffix ".npy" then
    arr <- np_load path ;;
    if negb (ndim arr =? 2)%nat then
      raise (RuntimeError
               ("Invalid NumPy data in " ++ path
                  ++ ". NumPy array must be two-dimensional."))
    else
      let cols :=
        map (fun i => "c" ++ str_of_nat i)
          (seq 0 (length (array_columns arr))) in
      ret (mkFrame (range_index (shape0 arr))
             (combine cols (array_columns arr)))
  else raise (RuntimeError "Unreachable!").

End OlderCleaning.

(* ================================================================== *)
(** * prepare.py *)
(* ================================================================== *)

Section Prepare.
Context {R : RandomSource}.

Definition mismatch_message (table : string) (reported n_samples : nat)
  : string :=
  table ++ " number of samples (" ++ str_of_nat reported ++ ") does not "
    ++ "match number of samples in processed data (" ++ str_of_nat n_samples
    ++ ")".

(** [df.index = index] for an index as long as the frame. *)
Definition set_index (df : DataFrame) (idx : list Z) : DataFrame :=
  mkFrame idx (df_columns df).

Definition set_series_index (s : Series) (idx : list Z) : Series :=
  mkSeries (dtype s) (combine idx (values s)).

(** [PreparedData.validate] *)
Definition validate (X X_cont X_cat : DataFrame) (y : Series)
  : M (DataFrame * DataFrame * DataFrame * Series) :=
  let n_samples := n_rows X in
  if negb (n_rows X_cont =? n_samples)%nat then
    raise (ValueError (mismatch_message "Continuous data" (n_rows X_cont)
                         n_samples))
  else if negb (n_rows X_cat =? n_samples)%nat then
    raise (ValueError (mismatch_message "Categorical data" (n_rows X_cat)
                         n_samples))
  else if negb (len y =? n_samples)%nat then
    raise (ValueError (mismatch_message "Target" (n_rows X_cat) n_samples))
  else
    let X := set_index X (range_index n_samples) in
    let X_cont := set_index X_cont (df_index X) in
    let X_cat := set_index X_cat (df_index X) in
    let y := set_series_index y (df_index X) in
    ret (X, X_cont, X_cat, y).

End Prepare.

(* ================================================================== *)
(** * Notions used in the statements *)
(* ================================================================== *)


Definition is_categorical (d : Dtype) : bool :=
  match d with DCategory _ _ => true | _ => false end.

Section Notions.
Context {L : Library} {R : RandomSource}.

(** The integers that [looks_ordinal] goes on to classify: the column read
    as numbers, missing values dropped, cast to [int]; [None] when the
    function has returned before. *)
Definition coerced_ints (series : Series) : option (list Z) :=
  let forced := to_numeric series in
  if np_all (isna forced) then None
  else
    let dropped := dropna forced in
    if converts_to_int dropped then astype_int dropped else None.

(** The gaps between neighbours among the sorted distinct values. *)
Definition gaps (ints : list Z) : list Z :=
  np_diff (np_sort Z.leb (np_unique Z.eq_dec Z.leb ints)).

(** All gaps are one and the same value, and there is a gap at all. *)
Definition one_gap (ints : list Z) : Prop :=
  exists d, gaps ints <> [] /\ forall x, In x (gaps ints) -> x = d.

(** The maxima of the common scales of [looks_ordinal]. *)
Definition scale_maxima : list Z := [4; 6; 5; 7; 10; 100; 9; 99]%Z.

(** Every level of the column has more than [N_CAT_LEVEL_MIN] rows. *)
Definition well_sampled (series : Series) : Prop :=
  forall level, In level (str_values series) ->
    N_CAT_LEVEL_MIN < count_occ string_dec (str_values series) level.

(** The size of the subsample of the time check:
    [min(N, max(ceil(N / 2), 500))]. *)
Definition subsample_size (N : nat) : nat :=
  Nat.min N (Nat.max ((N + 1) / 2) 500).

(** The positions drawn for the subsample of a column. *)
Definition drawn (series : Series) (g : rng) : list nat :=
  firstn (subsample_size (len series)) (fst (permutation g (len series))).

(** The text of the row at a position parses as a date. *)
Definition parses (series : Series) (i : nat) : bool :=
  match nth_error (str_values series) i with
  | Some t => match is_timelike t with inr true => true | _ => false end
  | None => false
  end.

(** How many of the rows at the positions [idx] parse as a date. *)
Definition n_parsed (series : Series) (idx : list nat) : nat :=
  length (filter (parses series) idx).

(** The exception that the parser raises first when the rows at the
    positions [idx] are parsed one after the other; [None] when every one
    of them parses or is refused with [ValueError]. *)
Fixpoint parse_error (series : Series) (idx : list nat) : option exn :=
  match idx with
  | [] => None
  | i :: t =>
      match nth_error (str_values series) i with
      | Some text =>
          match is_timelike text with
          | inl e => Some e
          | inr _ => parse_error series t
          end
      | None => parse_error series t
      end
  end.


(** The numbers of [idx] that are no label of the index of the column. *)
Definition missing_labels (series : Series) (idx : list nat) : list nat :=
  filter (fun i =>
            negb (existsb (fun l => Z.eqb l (Z.of_nat i)) (index series)))
    idx.


(** What a run returned: [Some b] for a verdict [b], [None] when it
    raised. *)
Definition verdict {A : Type} (r : (exn + bool * A) * rng) : option bool :=
  match fst r with
  | inr (b, _) => Some b
  | inl _ => None
  end.

(** The support of a level among the stringified values of a column. *)
Definition support (series : Series) (level : string) : nat :=
  count_occ string_dec (str_values series) level.

(** The distinct stringified values of a column. *)
Definition levels (series : Series) : list string :=
  np_unique string_dec String.leb (str_values series).

(** What the deflation invariant asks of the record emitted for a column:
    the counts add up and are the lengths of the two lists, the two lists
    split the distinct levels, the kept levels have at least
    [N_CAT_LEVEL_MIN] rows and the deflated ones fewer. *)
Definition inflation_invariant (series : Series) (info : InflationInfo)
  : Prop :=
  n_keep info + n_deflate info = n_total info
  /\ n_total info = length (levels series)
  /\ n_keep info = length (to_keep info)
  /\ n_deflate info = length (to_deflate info)
  /\ (forall l, In l (to_keep info) -> N_CAT_LEVEL_MIN <= support series l)
  /\ (forall l, In l (to_deflate info) -> support series l < N_CAT_LEVEL_MIN)
  /\ Permutation (to_keep info ++ to_deflate info)%list (levels series).


(** Which record, if any, the detector emits for a name. *)
Definition emitted (df : DataFrame) (name : string) : list InflationInfo :=
  match assoc name (df_columns df) with
  | Some c => option_list (inflation_of name (series_of_column df c))
  | None => []
  end.

(** The cast of the first loop of [inspect_data], when pandas accepts
    it. *)
Definition cast_categories (c : string * Column) : string * Column :=
  match col_dtype (snd c) with
  | DCategory d _ => (fst c, mkColumn d (col_values (snd c)))
  | _ => c
  end.

(** A column of integer categories with a missing value, which pandas
    refuses to cast. *)
Definition uncastable (c : string * Column) : bool :=
  match col_dtype (snd c) with
  | DCategory d _ => is_int_dtype d && existsb isna_cell (col_values (snd c))
  | _ => false
  end.

(** The frame whose columns [inspect_data] inspects: categories cast, the
    target dropped. *)
Definition predictors (df : DataFrame) (target : string) : DataFrame :=
  drop_ignore (mkFrame (df_index df) (map cast_categories (df_columns df)))
    [target].

(** The names of the columns of string, object or categorical dtype, and
    of integer dtype. *)
Definition str_columns (X : DataFrame) : list string :=
  map fst (filter (fun c => is_str_dtype (col_dtype (snd c))) (df_columns X)).

Definition int_columns (X : DataFrame) : list string :=
  map fst (filter (fun c => is_int_dtype (col_dtype (snd c))) (df_columns X)).

(** Ascending order of names. *)
Definition names_sorted (l : list string) : Prop :=
  Sorted (fun a b => String.leb a b = true) l.

(** A description in which both the ordinal and the categorical heuristic
    are recorded. *)
Definition fires_both (d : ColumnDescriptions) : bool :=
  is_some (desc_ord d) && is_some (desc_cat d).

(** The random state in which the worker of [inspect_str_columns] finds a
    column: the one left by the workers of the columns [before] it. *)
Definition state_after (X : DataFrame) (categoricals ordinals : list string)
  (g : rng) (before : list string) : rng :=
  snd (describe_columns X before categoricals ordinals g).

(** Both heuristics fire on a column as [inspect_str_column] runs them from
    the state [g]: the column is not constant, the time check answers no,
    [looks_ordinal] answers yes, and [looks_categorical], run in the state
    that the time check leaves, answers yes. *)
Definition both_fire (series : Series) (g : rng) : Prop :=
  fst (looks_constant series) = false
  /\ verdict (looks_timelike series g) = Some false
  /\ fst (looks_ordinal series) = true
  /\ verdict (looks_categorical series (snd (looks_timelike series g)))
     = Some true.

(** The column [name], one of the columns of string dtype of [X], is
    declared neither ordinal nor categorical, and both heuristics fire on
    it in the run that starts from [g]. *)
Definition ambiguous_column (X : DataFrame)
  (categoricals ordinals : list string) (g : rng) (name : string) : Prop :=
  ~ In name ordinals /\ ~ In name categoricals
  /\ exists before after c,
       str_columns X = (before ++ name :: after)%list
       /\ assoc name (df_columns X) = Some c
       /\ both_fire (series_of_column X c)
            (state_after X categoricals ordinals g before).

(** What [inspect_other_columns] records for a name. *)
Definition constant_entry (X : DataFrame) (name : string)
  : list (string * string) :=
  match assoc name (df_columns X) with
  | Some c =>
      let '(is_const, desc) := looks_constant (series_of_column X c) in
      if is_const then [(name, desc)] else []
  | None => []
  end.

(** The series carries the default index, the labels [0 .. len - 1]. *)
Definition default_index (s : Series) : Prop :=
  index s = range_index (len s).

(** Every column of the frame is as long as its index. *)
Definition wf_frame (df : DataFrame) : Prop :=
  forall c, In c (df_columns df) ->
    length (col_values (snd c)) = length (df_index df).

(** The rows of the frame whose target is not missing. *)
Definition rows_with_target (df : DataFrame) (target : string) : DataFrame :=
  match assoc target (df_columns df) with
  | Some c => filter_rows df (map negb (isna (series_of_column df c)))
  | None => df
  end.

(** The reason that the infos hold for a column, the last info that has one
    overriding the ones before it. *)
Fixpoint lookup_merged (name : string) (infos : list InspectionInfo)
  : option string :=
  match infos with
  | [] => None
  | i :: t =>
      match lookup_merged name t with
      | Some v => Some v
      | None => assoc name (descs i)
      end
  end.

(** The target that [encode_target] encodes, [unqs] and [cnts] being its
    distinct values and their counts: the rows of the classes of at most 20
    rows are removed, then the rows without a value. *)
Definition sanitised_target (target : Series) (unqs : list cell)
  (cnts : list nat) : Series :=
  let idx := map (fun c => (c <=? 20)%nat) cnts in
  let kept :=
    if (0 <? np_sum idx)%nat
    then filter_series target
           (map negb (isin target (mask_select unqs idx)))
    else target in
  filter_series kept (map negb (isna kept)).

(** The label of a value: its position among the classes. *)
Definition label_of (classes : list cell) (v : cell) (label : cell) : Prop :=
  exists k,
    position v classes = Some k /\ label = PyInt (Z.of_nat k)
    /\ k < length classes.

(** How many of the given reasons are recorded. *)
Definition n_recorded (reasons : list (option string)) : nat :=
  length (filter (fun r => is_some r) reasons).

End Notions.

(* ================================================================== *)
(** * A reference instance of the libraries

    Used for the concrete runs below.  It is exact on the texts those runs
    contain: a text made of decimal digits, with an optional leading minus
    sign, is read as that integer by all three readers; a text of the shape
    [YYYY-MM-DD] with month 01-12 and day 01-28 is a date for dateutil and
    not a number; purely alphabetic words are neither. *)
(* ================================================================== *)

Module Reference.

Definition is_digit (c : ascii) : bool :=
  let n := nat_of_ascii c in (48 <=? n)%nat && (n <=? 57)%nat.

Definition digit_value (c : ascii) : Z := Z.of_nat (nat_of_ascii c - 48).

Fixpoint read_digits (acc : Z) (s : string) : option Z :=
  match s with
  | EmptyString => Some acc
  | String c t =>
      if is_digit c then read_digits (10 * acc + digit_value c)%Z t else None
  end.

Definition read_decimal (s : string) : option Z :=
  match s with
  | EmptyString => None
  | String "-" EmptyString => None
  | String "-" t => option_map Z.opp (read_digits 0%Z t)
  | _ => read_digits 0%Z s
  end.

Definition read_two (a b : ascii) : option nat :=
  if is_digit a && is_digit b
  then Some (10 * (nat_of_ascii a - 48) + (nat_of_ascii b - 48))
  else None.

Definition is_iso_date (s : string) : bool :=
  match s with
  | String y1 (String y2 (String y3 (String y4 (String "-"
      (String m1 (String m2 (String "-"
        (String d1 (String d2 EmptyString))))))))) =>
      is_digit y1 && is_digit y2 && is_digit y3 && is_digit y4
      && match read_two m1 m2, read_two d1 d2 with
         | Some m, Some d =>
             (1 <=? m)%nat && (m <=? 12)%nat && (1 <=? d)%nat && (d <=? 28)%nat
         | _, _ => false
         end
  | _ => false
  end.

Fixpoint join (sep : string) (l : list string) : string :=
  match l with
  | [] => ""
  | [x] => x
  | x :: t => x ++ sep ++ join sep t
  end.

Definition quote (s : string) : string := "'" ++ s ++ "'".

Definition two_digits (n : Z) : string :=
  if (n <? 10)%Z then "0" ++ str_of_int n else str_of_int n.

(** Two decimals of [100 * p], preceded by the blank that the format puts
    before a number that is not negative. *)
Definition percent_text (p : Q) : string :=
  let n := Qfloor (p * 10000 + (1 # 2))%Q in
  " " ++ str_of_int (n / 100)%Z ++ "." ++ two_digits (n mod 100)%Z.

Definition is_number (c : cell) : bool :=
  match c with PyInt _ | PyFloat _ => true | _ => false end.

Definition is_text (c : cell) : bool :=
  match c with PyStr _ => true | _ => false end.

Definition is_integral (c : cell) : bool :=
  match c with
  | PyInt _ => true
  | PyFloat q => Qeq_bool q (inject_Z (int_of_float q))
  | _ => false
  end.

Definition infer_kind (ci cf : bool) (s : Series) : dtype_kind :=
  let present := filter (fun c => negb (isna_cell c)) (values s) in
  match dtype s with
  | DInt => Kind_i
  | DFloat => if ci && forallb is_integral present then Kind_i else Kind_f
  | DObject =>
      match present with
      | [] => Kind_O
      | _ =>
          if forallb (fun c => match c with PyInt _ => true | _ => false end)
               present
          then (if ci then Kind_i else Kind_O)
          else if forallb is_number present
          then (if cf then Kind_f else Kind_O)
          else Kind_O
      end
  | _ => Kind_O
  end.

Definition Q_eq_dec (x y : Q) : {x = y} + {x <> y}.
Proof. decide equality; [apply Pos.eq_dec | apply Z.eq_dec]. Defined.

(** Numbers are compared by value, texts as strings; a column that mixes
    them, or holds a missing marker next to texts, cannot be sorted. *)
Definition unique_raw (l : list cell) : option (list cell * list nat) :=
  if forallb is_number l then
    let qs := map (fun c => Qred (float_value c)) l in
    let (u, c) := np_unique_counts Q_eq_dec Qle_bool qs in
    Some (map PyFloat u, c)
  else if forallb is_text l then
    let ts := map (fun c => match c with PyStr s => s | _ => "" end) l in
    let (u, c) := np_unique_counts string_dec String.leb ts in
    Some (map PyStr u, c)
  else None.

#[export] Instance library : Library := {
  py_int := read_decimal;
  py_float := fun s => option_map inject_Z (read_decimal s);
  to_numeric_text := fun s => option_map inject_Z (read_decimal s);
  str_of_float := fun q => str_of_int (int_of_float q) ++ ".0";
  str_of_list := fun l => "[" ++ join ", " (map quote l) ++ "]";
  format_percent := percent_text;
  dateutil_parse := fun s => if is_iso_date s then Parsed else ParseValueError;
  missing_labels_text := fun idx missing =>
    if (length missing =? length idx)%nat
    then "None of [Index([" ++ join ", " (map str_of_nat idx)
           ++ "], dtype='int64')] are in the [index]"
    else "[" ++ join ", " (map str_of_nat missing) ++ "] not in index";
  missing_names_text := fun names missing =>
    if (length missing =? length names)%nat
    then "None of [Index([" ++ join ", " (map quote names)
           ++ "], dtype='object')] are in the [columns]"
    else "[" ++ join ", " (map quote missing) ++ "] not in index";
  not_found_text := fun labels =>
    "[" ++ join ", " (map quote labels) ++ "] not found in axis";
  convert_dtypes_kind := fun ci _ cf s => infer_kind ci cf s;
  np_unique_raw := unique_raw
}.

(** A random source that always draws the identity permutation. *)
#[export] Instance identity_source : RandomSource := {
  rng := unit;
  permutation := fun g n => (seq 0 n, g);
  permutation_spec := fun _ n => Permutation_refl (seq 0 n)
}.

(** A random source that always draws the reversed order. *)
Definition reversed_source : RandomSource := {|
  rng := unit;
  permutation := fun g n => (rev (seq 0 n), g);
  permutation_spec := fun _ n => Permutation_sym (Permutation_rev (seq 0 n))
|}.

End Reference.

(* ================================================================== *)
(** * Sample data for the concrete runs *)
(* ================================================================== *)

Module Samples.

Definition int_column (l : list Z) : Column := mkColumn DInt (map PyInt l).
Definition text_column (l : list string) : Column :=
  mkColumn DObject (map PyStr l).

(** A frame with an integer feature [x] and an integer target [y]. *)
Definition binary_frame : DataFrame :=
  mkFrame (range_index 5)
    [("x", int_column [0; 1; 0; 1; 0]%Z); ("y", int_column [0; 1; 1; 0; 1]%Z)].

(** The same values of [x] held as texts. *)
Definition binary_text_frame : DataFrame :=
  mkFrame (range_index 5)
    [("x", text_column ["0"; "1"; "0"; "1"; "0"]);
     ("y", int_column [0; 1; 1; 0; 1]%Z)].

(** A categorical column with levels of 20, 21 and 1 rows. *)
Definition city_frame : DataFrame :=
  mkFrame (range_index 42)
    [("city",
      text_column (repeat "a" 20 ++ repeat "b" 21 ++ ["c"])%list)].

(** Three prepared tables of three rows and a target of two. *)
Definition three_rows : DataFrame :=
  mkFrame (range_index 3) [("x", int_column [5; 6; 7]%Z)].

Definition short_target : Series := series_of DInt [PyInt 0; PyInt 1].

(** A target with a class of exactly 20 rows and a class of 21 rows, and a
    frame of as many rows. *)
Definition twenty_target : Series :=
  series_of DInt (repeat (PyInt 0) 20 ++ repeat (PyInt 1) 21)%list.

Definition twenty_frame : DataFrame :=
  mkFrame (range_index 41)
    [("x", int_column (map Z.of_nat (seq 0 41)))].

(** A frame with a categorical column [c], two continuous columns of which
    [a] has a missing value, and a target [y] that is missing in one row. *)
Definition nan_frame : DataFrame :=
  mkFrame (range_index 3)
    [("c", text_column ["u"; "v"; "u"]);
     ("a", mkColumn DFloat [PyFloat (1 # 2); PyFloat (3 # 2); NaN]);
     ("b", int_column [4; 5; 6]%Z);
     ("y", mkColumn DFloat [PyInt 0; NaN; PyInt 1])].

(** The same without the complete column [b]. *)
Definition exhausted_frame : DataFrame :=
  mkFrame (range_index 3)
    [("c", text_column ["u"; "v"; "u"]);
     ("a", mkColumn DFloat [PyFloat (1 # 2); PyFloat (3 # 2); NaN]);
     ("y", mkColumn DFloat [PyInt 0; NaN; PyInt 1])].

(** Stand-ins for what [handle_continuous_nans] takes from outside: the
    members of the enumeration with lower-case values, and imputation and
    realignment steps, which the drop strategy never reaches on these
    frames. *)
(** A text column and a column that holds a text among integers. *)
Definition mixed_frame : DataFrame :=
  mkFrame (range_index 6)
    [("x", text_column ["u"; "v"; "u"; "v"; "u"; "v"]);
     ("m",
      mkColumn DObject
        [PyStr "a"; PyInt 1; PyInt 1; PyInt 1; PyInt 1; PyInt 1])].

(** A text feature [x] and an integer target [y]. *)
Definition word_frame : DataFrame :=
  mkFrame (range_index 6)
    [("x", text_column ["u"; "v"; "u"; "v"; "u"; "v"]);
     ("y", int_column [0; 1; 0; 1; 0; 1]%Z)].

(** A column of dates, an integer feature and a target. *)
Definition dated_frame : DataFrame :=
  mkFrame (range_index 3)
    [("when", text_column ["2021-03-04"; "2021-03-05"; "2021-03-06"]);
     ("b", int_column [4; 5; 6]%Z);
     ("y", int_column [0; 1; 0]%Z)].

(** Dates and a word, on an index with holes. *)
Definition sparse_dates : Series :=
  mkSeries DObject
    [(0%Z, PyStr "2021-03-04"); (5%Z, PyStr "x"); (7%Z, PyStr "2021-03-05")].

Definition members : list NanHandling := [Drop; Mean; Median; Impute].

Definition member_value (na : NanHandling) : string :=
  match na with
  | Drop => "drop"
  | Mean => "mean"
  | Median => "median"
  | Impute => "impute"
  end.

Definition no_impute {R : RandomSource} (na : NanHandling) (X : DataFrame)
  : M DataFrame :=
  raise (RuntimeError "imputation is outside the model").

Definition no_setitem {R : RandomSource} (X : DataFrame) (name : string)
  (s : Series) : M DataFrame :=
  raise (RuntimeError "realignment is outside the model").

Definition no_concat {R : RandomSource} (a b : DataFrame) : M DataFrame :=
  raise (RuntimeError "realignment is outside the model").

End Samples.

(* ================================================================== *)
(** * Facts about the NumPy primitives *)
(* ================================================================== *)

Section SortingFacts.
Context {A : Type} (leb : A -> A -> bool).

Lemma insert_sorted_perm (x : A) (l : list A) :
  Permutation (insert_sorted leb x l) (x :: l).
Proof.
  induction l as [|y t IH]; simpl.
  - apply Permutation_refl.
  - destruct (leb x y).
    + apply Permutation_refl.
    + eapply Permutation_trans; [apply perm_skip, IH | apply perm_swap].
Qed.

Lemma np_sort_perm (l : list A) : Permutation (np_sort leb l) l.
Proof.
  induction l as [|x t IH]; simpl.
  - constructor.
  - eapply Permutation_trans; [apply insert_sorted_perm|].
    now apply perm_skip.
Qed.

Lemma np_sort_In (l : list A) (x : A) : In x (np_sort leb l) <-> In x l.
Proof.
  split; apply Permutation_in;
    [apply np_sort_perm | apply Permutation_sym, np_sort_perm].
Qed.

Lemma np_sort_length (l : list A) : length (np_sort leb l) = length l.
Proof. apply Permutation_length, np_sort_perm. Qed.

(** For a total comparison [np_sort] returns its argument in order. *)
Lemma insert_sorted_sorted (x : A) (l : list A) :
  (forall a b, leb a b = true \/ leb b a = true) ->
  Sorted (fun a b => leb a b = true) l ->
  Sorted (fun a b => leb a b = true) (insert_sorted leb x l).
Proof.
  intros total. induction l as [|y t IH]; intros Hs; simpl.
  - repeat constructor.
  - destruct (leb x y) eqn:E.
    + constructor; [exact Hs|]. now constructor.
    + inversion Hs as [|? ? Hst Hhd]; subst.
      constructor; [now apply IH|].
      assert (Hyx : leb y x = true).
      { destruct (total x y) as [H|H]; congruence. }
      destruct t as [|z u]; simpl.
      * now constructor.
      * destruct (leb x z); constructor; [exact Hyx|].
        now inversion Hhd.
Qed.

Lemma np_sort_sorted (l : list A) :
  (forall a b, leb a b = true \/ leb b a = true) ->
  Sorted (fun a b => leb a b = true) (np_sort leb l).
Proof.
  intros total. unfold np_sort. induction l as [|x t IH]; simpl.
  - constructor.
  - now apply insert_sorted_sorted.
Qed.
End SortingFacts.

Section UniqueFacts.
Context {A : Type}.
Variable eq_dec : forall x y : A, {x = y} + {x <> y}.
Variable leb : A -> A -> bool.

Lemma np_unique_In (l : list A) (x : A) :
  In x (np_unique eq_dec leb l) <-> In x l.
Proof.
  unfold np_unique. rewrite np_sort_In. apply nodup_In.
Qed.

Lemma np_unique_NoDup (l : list A) : NoDup (np_unique eq_dec leb l).
Proof.
  unfold np_unique.
  eapply Permutation_NoDup; [apply Permutation_sym, np_sort_perm|].
  apply NoDup_nodup.
Qed.

Lemma np_unique_nil (l : list A) : np_unique eq_dec leb l = [] <-> l = [].
Proof.
  split.
  - intros H. destruct l as [|x t]; [reflexivity|].
    assert (Hx : In x (np_unique eq_dec leb (x :: t)))
      by (apply np_unique_In; now left).
    rewrite H in Hx. destruct Hx.
  - intros ->. reflexivity.
Qed.

Lemma np_unique_length_le (l : list A) :
  length (np_unique eq_dec leb l) <= length l.
Proof.
  unfold np_unique. rewrite np_sort_length.
  apply NoDup_incl_length; [apply NoDup_nodup|].
  intros x Hx. now apply nodup_In in Hx.
Qed.

(** Every count is one exactly when no value is repeated. *)
Lemma counts_all_one (l : list A) :
  np_all (map (Nat.eqb 1) (snd (np_unique_counts eq_dec leb l))) = true
  <-> NoDup l.
Proof.
  unfold np_unique_counts, np_all; simpl.
  rewrite forallb_forall. split.
  - intros H. apply (NoDup_count_occ eq_dec). intros x.
    destruct (in_dec eq_dec x l) as [Hin|Hout].
    + assert (Hb : Nat.eqb 1 (count_occ eq_dec l x) = true).
      { apply H. rewrite map_map. apply in_map_iff.
        exists x. split; [reflexivity|]. now apply np_unique_In. }
      apply Nat.eqb_eq in Hb. lia.
    + apply (count_occ_not_In eq_dec) in Hout. lia.
  - intros Hnd b Hb. rewrite map_map in Hb.
    apply in_map_iff in Hb. destruct Hb as [x [<- Hx]].
    rewrite np_unique_In in Hx.
    assert (Hc : count_occ eq_dec l x = 1) by now apply NoDup_count_occ'.
    rewrite Hc. reflexivity.
Qed.

Lemma counts_length (l : list A) :
  length (snd (np_unique_counts eq_dec leb l))
  = length (fst (np_unique_counts eq_dec leb l)).
Proof. unfold np_unique_counts; simpl. apply length_map. Qed.
End UniqueFacts.

Lemma fold_left_max_spec (t : list Z) (x : Z) :
  (In (fold_left Z.max t x) (x :: t))
  /\ (forall y, In y (x :: t) -> (y <= fold_left Z.max t x)%Z).
Proof.
  revert x. induction t as [|a t IH]; intros x; simpl.
  - split; [now left|]. intros y [<-|[]]. lia.
  - destruct (IH (Z.max x a)) as [Hin Hub]. split.
    + destruct Hin as [Heq|Hin]; [|now right; right].
      rewrite <- Heq. destruct (Z.max_spec x a) as [[_ ->]|[_ ->]]; auto.
    + intros y Hy.
      assert (Hm : (Z.max x a <= fold_left Z.max t (Z.max x a))%Z)
        by (apply Hub; now left).
      destruct Hy as [<-|[<-|Hy]]; [lia | lia |].
      apply Hub. now right.
Qed.

Lemma fold_left_min_spec (t : list Z) (x : Z) :
  (In (fold_left Z.min t x) (x :: t))
  /\ (forall y, In y (x :: t) -> (fold_left Z.min t x <= y)%Z).
Proof.
  revert x. induction t as [|a t IH]; intros x; simpl.
  - split; [now left|]. intros y [<-|[]]. lia.
  - destruct (IH (Z.min x a)) as [Hin Hlb]. split.
    + destruct Hin as [Heq|Hin]; [|now right; right].
      rewrite <- Heq. destruct (Z.min_spec x a) as [[_ ->]|[_ ->]]; auto.
    + intros y Hy.
      assert (Hm : (fold_left Z.min t (Z.min x a) <= Z.min x a)%Z)
        by (apply Hlb; now left).
      destruct Hy as [<-|[<-|Hy]]; [lia | lia |].
      apply Hlb. now right.
Qed.

Lemma np_max_In (l : list Z) : l <> [] -> In (np_max l) l.
Proof.
  destruct l as [|x t]; [congruence|]. intros _.
  apply (fold_left_max_spec t x).
Qed.

Lemma np_max_ub (l : list Z) (y : Z) : In y l -> (y <= np_max l)%Z.
Proof.
  destruct l as [|x t]; [intros []|].
  apply (fold_left_max_spec t x).
Qed.

Lemma np_min_In (l : list Z) : l <> [] -> In (np_min l) l.
Proof.
  destruct l as [|x t]; [congruence|]. intros _.
  apply (fold_left_min_spec t x).
Qed.

Lemma np_min_lb (l : list Z) (y : Z) : In y l -> (np_min l <= y)%Z.
Proof.
  destruct l as [|x t]; [intros []|].
  apply (fold_left_min_spec t x).
Qed.

(** The maximum only depends on which values occur. *)
Lemma np_max_ext (l m : list Z) :
  (forall x, In x l <-> In x m) -> np_max l = np_max m.
Proof.
  intros H. destruct l as [|x t].
  - destruct m as [|y u]; [reflexivity|].
    exfalso. apply (H y). now left.
  - assert (Hm : m <> []).
    { intros ->. apply (H x). now left. }
    assert (Hl : x :: t <> []) by congruence.
    apply Z.le_antisymm.
    + apply np_max_ub, H, np_max_In, Hl.
    + apply np_max_ub, H, np_max_In, Hm.
Qed.

Lemma np_max_unique (l : list Z) :
  np_max (np_unique Z.eq_dec Z.leb l) = np_max l.
Proof. apply np_max_ext. intros x. apply np_unique_In. Qed.

Lemma nodup_length_one {A : Type} (l : list A) (d : A) :
  NoDup l -> l <> [] -> (forall x, In x l -> x = d) -> l = [d].
Proof.
  intros Hnd Hne Hall. destruct l as [|x t]; [congruence|].
  assert (Hx : x = d) by (apply Hall; now left). subst x.
  destruct t as [|y u]; [reflexivity|].
  exfalso. inversion Hnd as [|? ? Hnotin _]; subst.
  apply Hnotin. left. apply Hall. right. now left.
Qed.

(** [np.unique] has length one exactly for a non-empty array of one value. *)
Lemma unique_length_one (l : list Z) :
  length (np_unique Z.eq_dec Z.leb l) = 1
  <-> exists d, l <> [] /\ forall x, In x l -> x = d.
Proof.
  split.
  - intros H.
    destruct (np_unique Z.eq_dec Z.leb l) as [|d [|? ?]] eqn:E;
      try discriminate.
    exists d. split.
    + intros ->. discriminate.
    + intros x Hx. apply (np_unique_In Z.eq_dec Z.leb) in Hx.
      rewrite E in Hx. destruct Hx as [<-|[]]. reflexivity.
  - intros [d [Hne Hall]].
    rewrite (nodup_length_one (np_unique Z.eq_dec Z.leb l) d).
    + reflexivity.
    + apply np_unique_NoDup.
    + intros E. apply np_unique_nil in E. contradiction.
    + intros x Hx. apply Hall. now apply np_unique_In in Hx.
Qed.



(* ================================================================== *)
(** * The ordinal check *)
(* ================================================================== *)

Section OrdinalFacts.
Context {L : Library}.



(** When a value is repeated, [looks_ordinal] looks at the gaps and then at
    the maximum. *)
Lemma looks_ordinal_repeated (series : Series) (ints : list Z) :
  coerced_ints series = Some ints ->
  ~ NoDup ints ->
  looks_ordinal series =
    let vmin := np_min ints in
    let vmax := np_max ints in
    if (length (np_unique Z.eq_dec Z.leb (gaps ints)) =? 1)%nat then
      if ((vmin =? 0) && (vmax =? 1))%Z then
        (true,
         "Binary {" ++ str_of_int vmin ++ ", " ++ str_of_int vmax
           ++ "} indicator")
      else
        (true,
         "Increasing integers in [" ++ str_of_int vmin ++ ", "
           ++ str_of_int vmax ++ "]")
    else if int_in vmax [4; 6]%Z then
      (true,
       "Largest int is a common 0-indexed Likert-type scale value: "
         ++ str_of_int vmax)
    else if int_in vmax [5; 7]%Z then
      (true, "Largest int is a common Likert-type scale value: "
               ++ str_of_int vmax)
    else if int_in vmax [10; 100]%Z then
      (true, "Largest int is a common scale max: " ++ str_of_int vmax)
    else if int_in vmax [9; 99]%Z then
      (true, "Largest int is a common 0-indexed scale max: "
               ++ str_of_int vmax)
    else (false, "").
Proof.
  intros Hc Hnd. unfold coerced_ints in Hc. unfold looks_ordinal.
  destruct (np_all (isna (to_numeric series))); [discriminate|].
  destruct (converts_to_int (dropna (to_numeric series))); [|discriminate].
  simpl. rewrite Hc.
  assert (Hcnt :
    np_all (map (Nat.eqb 1) (snd (np_unique_counts Z.eq_dec Z.leb ints)))
    = false).
  { destruct (np_all _) eqn:E; [|reflexivity].
    apply counts_all_one in E. contradiction. }
  unfold np_unique_counts in *. simpl in Hcnt. rewrite Hcnt.
  rewrite np_max_unique. reflexivity.
Qed.


End OrdinalFacts.

(* ------------------------------------------------------------------ *)
(** ** Truncation of floats *)






Section CoercionFacts.
Context {L : Library}.






Lemma len_values (s : Series) : len s = length (values s).
Proof. unfold len, values. now rewrite length_map. Qed.

End CoercionFacts.

(* ------------------------------------------------------------------ *)
(** ** Claims on the ordinal check *)

(** C1 (the code departs from the claim).  The claim makes a column with a
    repeated value ordinal only for gaps that are all 1 or for a maximum of
    a common scale.  On the integer column 1, 1, 3 the sorted distinct
    values are 1 and 3, the only gap is 2 and the maximum 3 belongs to no
    scale, yet [looks_ordinal] answers ordinal: it tests that the gaps are
    all equal, not that they are 1. *)
Theorem looks_ordinal_accepts_gap_of_two (L : Library) :
  let column := series_of DInt [PyInt 1; PyInt 1; PyInt 3] in
  coerced_ints column = Some [1; 1; 3]%Z
  /\ ~ NoDup [1; 1; 3]%Z
  /\ gaps [1; 1; 3]%Z = [2%Z]
  /\ ~ In (np_max [1; 1; 3]%Z) scale_maxima
  /\ looks_ordinal column = (true, "Increasing integers in [1, 3]").
Proof.
  cbv zeta. split; [reflexivity|]. split.
  { intros H. apply NoDup_cons_iff in H. destruct H as [H _].
    apply H. now left. }
  split; [reflexivity|]. split; [|reflexivity].
  vm_compute. intuition discriminate.
Qed.

(** C7, refuted as stated: the column that holds every value of 0..100
    once and 0 a second time has 102 values in 0..100 with maximum 100,
    and its reason is the one of a consecutive run, not the one of a
    common scale maximum. *)
Lemma common_scale_max_counterexample :
  let ints := (map Z.of_nat (seq 0 101) ++ [0%Z])%list in
  let column := series_of DInt (map PyInt ints) in
  Forall (fun z => (0 <= z <= 100)%Z) ints
  /\ 100 <= length ints
  /\ np_max ints = 100%Z
  /\ @looks_ordinal Reference.library column
     = (true, "Increasing integers in [0, 100]")
  /\ @looks_ordinal Reference.library column
     <> (true, "Largest int is a common scale max: 100").
Proof.
  cbv zeta. split.
  { apply Forall_forall. intros z Hz. apply in_app_or in Hz.
    destruct Hz as [Hz|[<-|[]]]; [|lia].
    apply in_map_iff in Hz. destruct Hz as [k [<- Hk]].
    apply in_seq in Hk. lia. }
  split; [vm_compute; lia|]. split; [vm_compute; reflexivity|].
  assert (E : @looks_ordinal Reference.library
                (series_of DInt
                   (map PyInt (map Z.of_nat (seq 0 101) ++ [0%Z])%list))
              = (true, "Increasing integers in [0, 100]"))
    by (vm_compute; reflexivity).
  split; [exact E|]. rewrite E. discriminate.
Qed.

(** C7, amended: for a column of integers with a repeated value whose
    sorted distinct values are not evenly spaced, a maximum of 100 gives
    the common scale reason and a maximum of 99 the 0-indexed one. *)
Theorem common_scale_max_reason (L : Library) (series : Series)
  (ints : list Z) :
  coerced_ints series = Some ints ->
  ~ NoDup ints ->
  ~ one_gap ints ->
  (np_max ints = 100%Z ->
   looks_ordinal series = (true, "Largest int is a common scale max: 100"))
  /\ (np_max ints = 99%Z ->
      looks_ordinal series
      = (true, "Largest int is a common 0-indexed scale max: 99")).
Proof.
  intros Hc Hnd Hgap.
  assert (Hlen : (length (np_unique Z.eq_dec Z.leb (gaps ints)) =? 1)%nat
                 = false).
  { apply Nat.eqb_neq. intros E. apply Hgap.
    apply unique_length_one in E. exact E. }
  split; intros Hmax;
    rewrite (looks_ordinal_repeated series ints Hc Hnd); cbv zeta;
    rewrite Hlen, Hmax; reflexivity.
Qed.

Lemma common_scale_max_reason_witness :
  let ints := [0; 0; 2; 100]%Z in
  let column := series_of DInt (map PyInt ints) in
  @coerced_ints Reference.library column = Some ints
  /\ ~ NoDup ints
  /\ ~ one_gap ints
  /\ @looks_ordinal Reference.library column
     = (true, "Largest int is a common scale max: 100").
Proof.
  cbv zeta.
  assert (Hc : @coerced_ints Reference.library
                 (series_of DInt (map PyInt [0; 0; 2; 100]%Z))
               = Some [0; 0; 2; 100]%Z) by reflexivity.
  assert (Hnd : ~ NoDup [0; 0; 2; 100]%Z).
  { intros H. apply NoDup_cons_iff in H. destruct H as [H _].
    apply H. now left. }
  assert (Hgap : ~ one_gap [0; 0; 2; 100]%Z).
  { intros [d [_ Hd]].
    assert (H2 : 2%Z = d) by (apply Hd; vm_compute; auto).
    assert (H98 : 98%Z = d) by (apply Hd; vm_compute; auto).
    congruence. }
  refine (conj Hc (conj Hnd (conj Hgap _))).
  apply (proj1 (common_scale_max_reason Reference.library _ _ Hc Hnd Hgap)).
  reflexivity.
Defined.




(* ================================================================== *)
(** * The time check *)
(* ================================================================== *)

Lemma ratio_le_one_iff (q : Q) (k n : nat) :
  0 < n ->
  (Qle_bool q (ratio k n) = true
   <-> (Qnum q * Z.of_nat n <= Z.of_nat k * Z.pos (Qden q))%Z).
Proof.
  intros Hn. rewrite Qle_bool_iff.
  destruct n as [|m]; [lia|].
  destruct q as [a b]. unfold ratio, Qdiv, Qinv, Qmult, Qle, inject_Z.
  simpl Qnum. simpl Qden.
  rewrite Zpos_P_of_succ_nat, Nat2Z.inj_succ. lia.
Qed.

Lemma ratio_lt_iff (q : Q) (k n : nat) :
  0 < n ->
  (Qlt_bool q (ratio k n) = true
   <-> (Qnum q * Z.of_nat n < Z.of_nat k * Z.pos (Qden q))%Z).
Proof.
  intros Hn. unfold Qlt_bool. rewrite negb_true_iff.
  destruct (Qle_bool (ratio k n) q) eqn:E.
  - apply Qle_bool_iff in E. split; [discriminate|]. intros H. exfalso.
    revert E H. destruct n as [|m]; [lia|].
    destruct q as [a b]. unfold ratio, Qdiv, Qinv, Qmult, Qle, inject_Z.
    simpl Qnum. simpl Qden.
    rewrite Zpos_P_of_succ_nat, Nat2Z.inj_succ. lia.
  - split; [intros _|reflexivity].
    assert (H : ~ (ratio k n <= q)%Q).
    { intros H. apply Qle_bool_iff in H. congruence. }
    revert H. destruct n as [|m]; [lia|].
    destruct q as [a b]. unfold ratio, Qdiv, Qinv, Qmult, Qle, inject_Z.
    simpl Qnum. simpl Qden.
    rewrite Zpos_P_of_succ_nat, Nat2Z.inj_succ. lia.
Qed.

Lemma ceil_half_spec (N : nat) : ceil_half N = (N + 1) / 2.
Proof.
  unfold ceil_half. rewrite Nat.div2_div. f_equal. lia.
Qed.

Lemma np_sum_cons (b : bool) (l : list bool) :
  np_sum (b :: l) = (if b then 1 else 0) + np_sum l.
Proof. unfold np_sum. simpl. destruct b; reflexivity. Qed.

Lemma np_sum_le (l : list bool) : np_sum l <= length l.
Proof. unfold np_sum. apply filter_length_le. Qed.

Section TimeFacts.
Context {L : Library} {R : RandomSource}.

Lemma str_values_astype_str (series : Series) :
  str_values (astype_str series) = str_values series.
Proof.
  unfold str_values, values, astype_str. simpl.
  rewrite !map_map. reflexivity.
Qed.

Lemma len_astype_str (series : Series) : len (astype_str series) = len series.
Proof. unfold len, astype_str. simpl. apply length_map. Qed.

(** The test on the level counts is the statement that every level has
    more than [N_CAT_LEVEL_MIN] rows. *)
Lemma well_sampled_test (series : Series) :
  np_all
    (map (fun c => (N_CAT_LEVEL_MIN <? c)%nat)
       (snd (np_unique_counts string_dec String.leb
               (str_values (astype_str series))))) = true
  <-> well_sampled series.
Proof.
  rewrite str_values_astype_str.
  unfold np_unique_counts, np_all, well_sampled. simpl.
  rewrite forallb_forall, map_map. split.
  - intros H level Hin. apply Nat.ltb_lt. apply H.
    apply in_map_iff. exists level. split; [reflexivity|].
    now apply np_unique_In.
  - intros H b Hb. apply in_map_iff in Hb. destruct Hb as [level [<- Hin]].
    apply Nat.ltb_lt. apply H. now apply np_unique_In in Hin.
Qed.

Lemma astype_int_nil (series : Series) :
  rows series = [] -> converts_to_int series = true.
Proof.
  intros H. unfold converts_to_int, astype_int, values. rewrite H.
  reflexivity.
Qed.

(** The positions drawn for the subsample: as many as the subsample size,
    all different, all in range. *)
Lemma drawn_spec (series : Series) (g : rng) :
  length (drawn series g) = subsample_size (len series)
  /\ NoDup (drawn series g)
  /\ (forall i, In i (drawn series g) -> i < len series).
Proof.
  unfold drawn. pose proof (permutation_spec g (len series)) as Hp.
  set (perm := fst (permutation g (len series))) in *.
  set (n := subsample_size (len series)).
  assert (Hlen : length perm = len series).
  { rewrite (Permutation_length Hp). apply length_seq. }
  assert (Hnd : NoDup perm).
  { apply (Permutation_NoDup (Permutation_sym Hp)). apply seq_NoDup. }
  split; [|split].
  - rewrite length_firstn, Hlen. unfold n, subsample_size. lia.
  - rewrite <- (firstn_skipn n perm) in Hnd.
    now apply NoDup_app_remove_r in Hnd.
  - intros i Hi.
    assert (Hin : In i perm).
    { rewrite <- (firstn_skipn n perm). apply in_or_app. now left. }
    apply (Permutation_in _ Hp) in Hin. apply in_seq in Hin. lia.
Qed.

Lemma iloc_rows_parsed (series : Series) (idx : list nat) :
  (forall i, In i idx -> i < len series) ->
  exists rs,
    iloc_rows (astype_str series) idx = Some rs
    /\ length rs = length idx
    /\ match parse_error series idx with
       | Some e => apply_is_timelike rs = inl e
       | None =>
           exists flags,
             apply_is_timelike rs = inr flags
             /\ np_sum flags = n_parsed series idx
       end.
Proof.
  induction idx as [|i t IH]; intros Hin.
  - exists []. split; [reflexivity|]. split; [reflexivity|].
    exists []. split; reflexivity.
  - destruct IH as [rs [Hrs [Hlen Hsum]]].
    { intros j Hj. apply Hin. now right. }
    assert (Hi : i < len series) by (apply Hin; now left).
    unfold len in Hi.
    destruct (nth_error (rows series) i) as [r|] eqn:Er.
    2:{ apply nth_error_None in Er. lia. }
    exists ((fst r, PyStr (py_str (snd r))) :: rs).
    assert (E : nth_error (rows (astype_str series)) i
                = Some (fst r, PyStr (py_str (snd r)))).
    { unfold astype_str. simpl. now rewrite nth_error_map, Er. }
    split; [cbn [iloc_rows]; now rewrite E, Hrs|].
    split; [simpl; now rewrite Hlen|].
    assert (E' : nth_error (str_values series) i = Some (py_str (snd r))).
    { unfold str_values, values. now rewrite map_map, nth_error_map, Er. }
    cbn [parse_error apply_is_timelike snd py_str]. rewrite E'.
    unfold n_parsed. cbn [filter]. unfold parses at 1. rewrite E'.
    destruct (is_timelike (py_str (snd r))) as [e|b]; [reflexivity|].
    destruct (parse_error series t) as [e|].
    + now rewrite Hsum.
    + destruct Hsum as [flags [Hflags Hcount]]. rewrite Hflags.
      exists (b :: flags). split; [reflexivity|].
      rewrite np_sum_cons, Hcount. unfold n_parsed.
      destruct b; reflexivity.
Qed.

Lemma n_parsed_le (series : Series) (idx : list nat) :
  n_parsed series idx <= length idx.
Proof. unfold n_parsed. apply filter_length_le. Qed.

End TimeFacts.


Section TimeClaim.
Context {L : Library} {R : RandomSource}.

(** The run of [looks_timelike] once the column has passed the numeric
    guards and is not a well-sampled categorical. *)
Lemma looks_timelike_sampled (series : Series) (g : rng) :
  converts_to_int series = false ->
  converts_to_float series = false ->
  ~ well_sampled series ->
  looks_timelike series g =
    let idx := drawn series g in
    let g' := snd (permutation g (len series)) in
    match parse_error series idx with
    | Some e => (inl e, g')
    | None =>
        let percent := ratio (n_parsed series idx) (length idx) in
        if Qle_bool 1 percent then
          (inr (true, "100% of data parses as datetime"), g')
        else if Qlt_bool (1 / 3) percent then
          match loc_rows (astype_str series) idx with
          | inr rs =>
              match apply_is_timelike rs with
              | inr flags =>
                  let p := ratio (np_sum flags) (length rs) in
                  if Qlt_bool (1 # 2) p then
                    (inr (true,
                          format_percent p
                            ++ "% of data appears parseable as datetime data"),
                     g')
                  else (inr (false, ""), g')
              | inl e => (inl e, g')
              end
          | inl missing =>
              (inl (KeyError (missing_labels_text idx missing)), g')
          end
        else (inr (false, ""), g')
    end.
Proof.
  intros Hint Hfloat Hws. unfold looks_timelike. rewrite Hint, Hfloat.
  destruct (np_all _) eqn:E.
  { apply well_sampled_test in E. contradiction. }
  clear E. rewrite len_astype_str.
  destruct (drawn_spec series g) as [Hlen [_ Hrange]].
  destruct (iloc_rows_parsed series (drawn series g) Hrange)
    as [rs [Hrs [Hl Hsum]]].
  assert (Hsize :
    Nat.min (Nat.max (ceil_half (len series)) 500) (len series)
    = subsample_size (len series)).
  { unfold subsample_size. rewrite ceil_half_spec. apply Nat.min_comm. }
  cbv zeta. rewrite Hsize.
  unfold bind, np_random_permutation, iloc, lift.
  unfold drawn in *.
  destruct (permutation g (len series)) as [perm g'] eqn:Ep.
  cbn [fst snd] in *. rewrite Hrs. unfold ret.
  destruct (parse_error series _) as [e|].
  { now rewrite Hsum. }
  destruct Hsum as [flags [Hflags Hsum]]. rewrite Hflags, Hsum, Hlen.
  destruct (Qle_bool 1 _); [reflexivity|].
  destruct (Qlt_bool (1 / 3) _); [|reflexivity].
  unfold loc.
  destruct (loc_rows (astype_str series) _) as [missing|rs']; [reflexivity|].
  unfold ret. destruct (apply_is_timelike rs') as [e|flags']; [reflexivity|].
  destruct (Qlt_bool (1 # 2) _); reflexivity.
Qed.


End TimeClaim.


(* ------------------------------------------------------------------ *)
(** ** The time check on the default index *)

Lemma filter_label_below (rs : list (Z * cell)) (start i : nat) :
  map fst rs = map Z.of_nat (seq start (length rs)) ->
  i < start ->
  filter (fun r => Z.eqb (fst r) (Z.of_nat i)) rs = [].
Proof.
  revert start. induction rs as [|[l c] t IH]; intros start Hidx Hi;
    [reflexivity|].
  cbn [length seq map] in Hidx. injection Hidx as Hl Ht.
  cbn [fst] in Hl. subst l. cbn [filter fst].
  destruct (Z.eqb_spec (Z.of_nat start) (Z.of_nat i)) as [E|_]; [lia|].
  apply (IH (S start)); [exact Ht|lia].
Qed.

Lemma filter_label (rs : list (Z * cell)) (start i : nat) :
  map fst rs = map Z.of_nat (seq start (length rs)) ->
  start <= i < start + length rs ->
  exists r,
    nth_error rs (i - start) = Some r
    /\ filter (fun r => Z.eqb (fst r) (Z.of_nat i)) rs = [r].
Proof.
  revert start. induction rs as [|[l c] t IH]; intros start Hidx Hi.
  - simpl in Hi. lia.
  - cbn [length seq map] in Hidx. injection Hidx as Hl Ht.
    cbn [fst] in Hl. subst l. cbn [filter fst].
    destruct (Nat.eq_dec i start) as [->|Hne].
    + rewrite Z.eqb_refl, Nat.sub_diag. exists (Z.of_nat start, c).
      split; [reflexivity|]. f_equal.
      apply (filter_label_below t (S start)); [exact Ht|lia].
    + destruct (Z.eqb_spec (Z.of_nat start) (Z.of_nat i)) as [E|_]; [lia|].
      destruct (IH (S start) Ht) as [r [Hnth Hf]]; [simpl in Hi; lia|].
      exists r. split; [|exact Hf].
      replace (i - start) with (S (i - S start)) by lia. exact Hnth.
Qed.

Section TimeDefaultIndex.
Context {L : Library} {R : RandomSource}.

(** On the default index the rows labelled by the drawn numbers are the
    rows at these positions. *)
Lemma loc_rows_default (s : Series) (idx : list nat) :
  default_index s ->
  (forall i, In i idx -> i < len s) ->
  exists rs, iloc_rows s idx = Some rs /\ loc_rows s idx = inr rs.
Proof.
  unfold default_index, index, range_index, len. intros Hd.
  induction idx as [|i t IH]; intros Hin.
  - exists []. split; reflexivity.
  - destruct IH as [rs [Hi Hl]]; [intros j Hj; apply Hin; now right|].
    destruct (filter_label (rows s) 0 i Hd) as [r [Hnth Hf]].
    { specialize (Hin i (or_introl eq_refl)). lia. }
    rewrite Nat.sub_0_r in Hnth.
    exists (r :: rs). cbn [iloc_rows loc_rows].
    now rewrite Hnth, Hi, Hf, Hl.
Qed.

(** X9.  On the default index the time check, past its guards, raises
    nothing but what the parser raises on a drawn row: a missing label
    cannot occur.  When the parser raises on no drawn row, the check
    returns, and answers yes exactly when more than half of the drawn rows
    parse as a date. *)
Lemma looks_timelike_default_index (series : Series) (g : rng) :
  default_index series ->
  converts_to_int series = false ->
  converts_to_float series = false ->
  ~ well_sampled series ->
  match parse_error series (drawn series g) with
  | Some e => fst (looks_timelike series g) = inl e
  | None =>
      exists b,
        verdict (looks_timelike series g) = Some b
        /\ (b = true
            <-> length (drawn series g)
                < 2 * n_parsed series (drawn series g))
  end.
Proof.
  intros Hd Hint Hfloat Hws.
  destruct (drawn_spec series g) as [Hlen [_ Hrange]].
  assert (Hd' : default_index (astype_str series)).
  { unfold default_index, index, len, astype_str in *. simpl.
    rewrite map_map, length_map. exact Hd. }
  destruct (loc_rows_default (astype_str series) (drawn series g) Hd')
    as [rs [Hi Hl]].
  { intros i Hi. rewrite len_astype_str. now apply Hrange. }
  destruct (iloc_rows_parsed series (drawn series g) Hrange)
    as [rs' [Hrs' [Hlen' Hsum]]].
  rewrite Hi in Hrs'. injection Hrs' as <-.
  rewrite (looks_timelike_sampled series g Hint Hfloat Hws). cbv zeta.
  destruct (parse_error series (drawn series g)) as [e|]; [reflexivity|].
  destruct Hsum as [flags [Hflags Hsum]].
  rewrite Hl, Hflags, Hsum, Hlen'.
  assert (Hpos : 0 < length (drawn series g)).
  { rewrite Hlen. unfold subsample_size.
    assert (0 < len series); [|lia].
    destruct (rows series) as [|r t] eqn:Er.
    - rewrite (astype_int_nil series Er) in Hint. discriminate.
    - unfold len. rewrite Er. simpl. lia. }
  pose proof (n_parsed_le series (drawn series g)) as Hle.
  pose proof (ratio_le_one_iff 1 (n_parsed series (drawn series g))
                (length (drawn series g)) Hpos) as H1.
  pose proof (ratio_lt_iff (1 / 3) (n_parsed series (drawn series g))
                (length (drawn series g)) Hpos) as H3.
  pose proof (ratio_lt_iff (1 # 2) (n_parsed series (drawn series g))
                (length (drawn series g)) Hpos) as H2.
  change (Qnum (1 / 3)) with 1%Z in H3.
  change (Qden (1 / 3)) with 3%positive in H3.
  change (Qnum (1 # 2)) with 1%Z in H2.
  change (Qden (1 # 2)) with 2%positive in H2.
  change (Qnum 1) with 1%Z in H1. change (Qden 1) with 1%positive in H1.
  destruct (Qle_bool 1 _).
  { exists true. split; [reflexivity|]. split; [intros _|reflexivity].
    destruct H1 as [H1 _]. specialize (H1 eq_refl). lia. }
  destruct (Qlt_bool (1 / 3) _).
  - destruct (Qlt_bool (1 # 2) _).
    + exists true. split; [reflexivity|]. split; [intros _|reflexivity].
      destruct H2 as [H2 _]. specialize (H2 eq_refl). lia.
    + exists false. split; [reflexivity|]. split; [discriminate|].
      intros Hhalf. destruct H2 as [_ H2]. apply H2. lia.
  - exists false. split; [reflexivity|]. split; [discriminate|].
    intros Hhalf. destruct H3 as [_ H3]. apply H3. lia.
Qed.

End TimeDefaultIndex.

(* ================================================================== *)
(** * The identifier check *)
(* ================================================================== *)

(** C2, refuted as stated: the two texts of this column are different,
    but the column is float-like (one of two values does not read as a
    number, more than 20%), and the identifier check answers no. *)
Lemma looks_id_like_counterexample :
  let column := series_of DObject [PyStr "a"; PyStr "0"] in
  NoDup (str_values (L := Reference.library) column)
  /\ looks_floatlike (L := Reference.library) column
     = (true,
        "More than 20% of values parse as floats, but couldn't parse values: ['a']")
  /\ fst (looks_id_like (L := Reference.library)
            (R := Reference.identity_source) column tt)
     = inr (false, "Appears float-like").
Proof.
  cbv zeta. split; [|split; reflexivity].
  simpl. constructor.
  - intros [H|[]]. discriminate.
  - constructor; [intros []|constructor].
Qed.

(** C2, amended: for a column that is not float-like and not of a
    categorical dtype, whose stringified values, missing markers included,
    are all different, the identifier check returns true. *)
Theorem looks_id_like_all_unique (L : Library) (R : RandomSource)
  (series : Series) (g : rng) :
  fst (looks_floatlike series) = false ->
  is_categorical (dtype series) = false ->
  NoDup (str_values series) ->
  looks_id_like series g
  = (inr (true, "All values including possible NaNs are unique"), g).
Proof.
  intros Hfloat Hcat Hnd. unfold looks_id_like. rewrite Hfloat.
  apply (counts_all_one string_dec String.leb) in Hnd.
  destruct (dtype series); try discriminate; now rewrite Hnd.
Qed.

Lemma looks_id_like_all_unique_witness :
  let column := series_of DObject [PyStr "a"; PyStr "b"; NaN] in
  fst (looks_floatlike (L := Reference.library) column) = false
  /\ is_categorical (dtype column) = false
  /\ NoDup (str_values (L := Reference.library) column)
  /\ looks_id_like (L := Reference.library) (R := Reference.identity_source)
       column tt
     = (inr (true, "All values including possible NaNs are unique"), tt).
Proof.
  cbv zeta.
  set (column := series_of DObject [PyStr "a"; PyStr "b"; NaN]).
  assert (Hfloat : fst (looks_floatlike (L := Reference.library) column)
                   = false) by reflexivity.
  assert (Hcat : is_categorical (dtype column) = false) by reflexivity.
  assert (Hnd : NoDup (str_values (L := Reference.library) column)).
  { simpl. constructor.
    - intros [H|[H|[]]]; discriminate.
    - constructor; [intros [H|[]]; discriminate|].
      constructor; [intros []|constructor]. }
  exact (conj Hfloat (conj Hcat (conj Hnd
           (looks_id_like_all_unique Reference.library
              Reference.identity_source column tt Hfloat Hcat Hnd)))).
Defined.

(* ================================================================== *)
(** * The inflation detector *)
(* ================================================================== *)

Lemma mask_select_map {A : Type} (f : A -> bool) (l : list A) :
  mask_select l (map f l) = filter f l.
Proof.
  induction l as [|x t IH]; simpl; [reflexivity|].
  rewrite IH. reflexivity.
Qed.

Lemma np_sum_map {A : Type} (f : A -> bool) (l : list A) :
  np_sum (map f l) = length (filter f l).
Proof.
  induction l as [|x t IH]; [reflexivity|].
  cbn [map filter]. rewrite np_sum_cons, IH.
  destruct (f x); reflexivity.
Qed.

Lemma np_all_map {A : Type} (f : A -> bool) (l : list A) :
  np_all (map f l) = forallb f l.
Proof.
  unfold np_all. induction l as [|x t IH]; simpl; [reflexivity|].
  now rewrite IH.
Qed.

Lemma filter_split_length {A : Type} (f : A -> bool) (l : list A) :
  length (filter f l) + length (filter (fun x => negb (f x)) l) = length l.
Proof.
  induction l as [|x t IH]; simpl; [reflexivity|].
  destruct (f x); simpl; lia.
Qed.

Lemma filter_split_perm {A : Type} (f : A -> bool) (l : list A) :
  Permutation (filter f l ++ filter (fun x => negb (f x)) l) l.
Proof.
  induction l as [|x t IH]; simpl; [constructor|].
  destruct (f x); simpl.
  - now constructor.
  - apply Permutation_sym. apply Permutation_cons_app.
    now apply Permutation_sym.
Qed.

Lemma mapM_pure {R : RandomSource} {A B : Type} (f : A -> M B) (h : A -> B)
  (l : list A) (g : rng) :
  (forall x, In x l -> f x g = (inr (h x), g)) ->
  mapM f l g = (inr (map h l), g).
Proof.
  induction l as [|x t IH]; intros H; [reflexivity|].
  cbn [mapM map]. unfold bind. rewrite (H x (or_introl eq_refl)).
  rewrite IH by (intros y Hy; apply H; now right).
  reflexivity.
Qed.

Lemma assoc_In {A : Type} (k : string) (l : list (string * A)) :
  In k (map fst l) -> exists v, assoc k l = Some v.
Proof.
  induction l as [|[k' v'] t IH]; simpl; [intros []|].
  intros H. destruct (String.eqb_spec k k') as [->|Hne].
  - now exists v'.
  - destruct H as [H|H]; [congruence|]. now apply IH.
Qed.

Section InflationFacts.
Context {L : Library} {R : RandomSource}.

(** The level counts of [inflation_of], spelled with [levels] and
    [support]. *)
Lemma inflation_of_eq (name : string) (series : Series) :
  inflation_of name series =
    let keep := fun l => (N_CAT_LEVEL_MIN <=? support series l)%nat in
    if (length (levels series) <=? 2)%nat then None
    else if forallb keep (levels series) then None
    else
      Some (mkInflationInfo name
              (filter (fun l => negb (keep l)) (levels series))
              (filter keep (levels series))
              (length (levels series) - length (filter keep (levels series)))
              (length (filter keep (levels series)))
              (length (levels series))).
Proof.
  unfold inflation_of, np_unique_counts, levels, support.
  rewrite str_values_astype_str. cbv zeta.
  set (unqs := np_unique string_dec String.leb (str_values series)).
  set (cnt := count_occ string_dec (str_values series)).
  destruct (length unqs <=? 2)%nat; [reflexivity|].
  rewrite !map_map, np_all_map.
  destruct (forallb _ unqs); [reflexivity|].
  rewrite np_sum_map, !length_map.
  rewrite <- (map_map (fun l => (N_CAT_LEVEL_MIN <=? cnt l)%nat) negb).
  rewrite (mask_select_map (fun l => (N_CAT_LEVEL_MIN <=? cnt l)%nat)).
  f_equal. f_equal.
  rewrite (map_map (fun l => (N_CAT_LEVEL_MIN <=? cnt l)%nat) negb).
  apply (mask_select_map (fun l => negb (N_CAT_LEVEL_MIN <=? cnt l)%nat)).
Qed.

Lemma inflation_of_skips (name : string) (series : Series) :
  length (levels series) <= 2
  \/ (forall l, In l (levels series) -> N_CAT_LEVEL_MIN <= support series l)
  -> inflation_of name series = None.
Proof.
  rewrite inflation_of_eq. cbv zeta. intros [H|H].
  - apply Nat.leb_le in H. now rewrite H.
  - destruct (length (levels series) <=? 2)%nat; [reflexivity|].
    assert (E : forallb
                  (fun l => (N_CAT_LEVEL_MIN <=? support series l)%nat)
                  (levels series) = true).
    { apply forallb_forall. intros l Hl. apply Nat.leb_le. now apply H. }
    now rewrite E.
Qed.

Lemma inflation_of_emits (name : string) (series : Series)
  (info : InflationInfo) :
  inflation_of name series = Some info ->
  col info = name /\ inflation_invariant series info.
Proof.
  rewrite inflation_of_eq. cbv zeta.
  set (keep := fun l => (N_CAT_LEVEL_MIN <=? support series l)%nat).
  destruct (length (levels series) <=? 2)%nat; [discriminate|].
  destruct (forallb keep (levels series)); [discriminate|].
  intros H.
  assert (E : info = mkInflationInfo name
                (filter (fun l => negb (keep l)) (levels series))
                (filter keep (levels series))
                (length (levels series) - length (filter keep (levels series)))
                (length (filter keep (levels series)))
                (length (levels series))) by congruence.
  clear H. subst info. split; [reflexivity|].
  unfold inflation_invariant.
  cbn [n_keep n_deflate n_total to_keep to_deflate].
  pose proof (filter_split_length keep (levels series)) as Hsplit.
  repeat split.
  - lia.
  - lia.
  - intros l Hl. apply filter_In in Hl. destruct Hl as [_ Hl].
    now apply Nat.leb_le in Hl.
  - intros l Hl. apply filter_In in Hl. destruct Hl as [_ Hl].
    apply negb_true_iff in Hl. unfold keep in Hl.
    apply Nat.leb_gt in Hl. exact Hl.
  - apply filter_split_perm.
Qed.

Lemma detect_big_cats_run (df : DataFrame) (unique_counts : dict nat)
  (all_cats : list string) (g : rng) :
  (forall name, In name all_cats -> In name (column_names df)) ->
  exists bigs info,
    detect_big_cats df unique_counts all_cats g
    = (inr (bigs, concat (map (emitted df) all_cats), info), g).
Proof.
  intros Hcols. unfold detect_big_cats. unfold bind.
  rewrite (mapM_pure _ (emitted df)).
  - eexists. eexists. reflexivity.
  - intros name Hin. unfold getitem, emitted.
    destruct (assoc_In name (df_columns df) (Hcols name Hin)) as [c Hc].
    rewrite Hc. reflexivity.
Qed.

(** C6.  When the categorical columns are columns of the frame, the
    detector returns; a column with at most two distinct stringified levels
    gets no record, nor does a column whose levels all have at least
    [N_CAT_LEVEL_MIN] rows; and every record emitted satisfies the deflation
    invariant for its column. *)
Theorem detect_big_cats_inflation (df : DataFrame) (unique_counts : dict nat)
  (all_cats : list string) (g : rng) :
  (forall name, In name all_cats -> In name (column_names df)) ->
  exists bigs infos info,
    detect_big_cats df unique_counts all_cats g = (inr (bigs, infos, info), g)
    /\ (forall name c,
          assoc name (df_columns df) = Some c ->
          length (levels (series_of_column df c)) <= 2
          \/ (forall l, In l (levels (series_of_column df c)) ->
                N_CAT_LEVEL_MIN <= support (series_of_column df c) l) ->
          forall i, In i infos -> col i <> name)
    /\ (forall i, In i infos ->
          exists c,
            In (col i) all_cats
            /\ assoc (col i) (df_columns df) = Some c
            /\ inflation_invariant (series_of_column df c) i).
Proof.
  intros Hcols.
  destruct (detect_big_cats_run df unique_counts all_cats g Hcols)
    as [bigs [info Hrun]].
  exists bigs, (concat (map (emitted df) all_cats)), info.
  split; [exact Hrun|].
  assert (Hin : forall i, In i (concat (map (emitted df) all_cats)) ->
            exists c, In (col i) all_cats
                      /\ assoc (col i) (df_columns df) = Some c
                      /\ inflation_of (col i) (series_of_column df c)
                         = Some i).
  { intros i Hi. apply in_concat in Hi. destruct Hi as [l [Hl Hi]].
    apply in_map_iff in Hl. destruct Hl as [name [<- Hname]].
    unfold emitted in Hi.
    destruct (assoc name (df_columns df)) as [c|] eqn:Ec; [|destruct Hi].
    destruct (inflation_of name (series_of_column df c)) as [i'|] eqn:Ei;
      [|destruct Hi].
    destruct Hi as [<-|[]].
    destruct (inflation_of_emits _ _ _ Ei) as [Hcol _].
    rewrite Hcol. exists c. auto. }
  split.
  - intros name c Hc Hskip i Hi Heq.
    destruct (Hin i Hi) as [c' [_ [Hc' Hi']]].
    rewrite Heq, Hc in Hc'. injection Hc' as <-.
    rewrite Heq, (inflation_of_skips name _ Hskip) in Hi'. discriminate.
  - intros i Hi. destruct (Hin i Hi) as [c [Hall [Hc Hi']]].
    exists c. split; [exact Hall|]. split; [exact Hc|].
    now apply (inflation_of_emits _ _ _ Hi').
Qed.

End InflationFacts.

(* ================================================================== *)
(** * The ambiguity check of inspect_data *)
(* ================================================================== *)

Lemma str_in_In (x : string) (xs : list string) :
  str_in x xs = true <-> In x xs.
Proof.
  unfold str_in. rewrite existsb_exists. split.
  - intros [y [Hy Heq]]. apply String.eqb_eq in Heq. now subst.
  - intros H. exists x. split; [assumption | apply String.eqb_refl].
Qed.

Lemma inter_In (l m : list string) (x : string) :
  In x (inter l m) <-> In x l /\ In x m.
Proof. unfold inter. rewrite filter_In, str_in_In. reflexivity. Qed.

Lemma minus_In (l m : list string) (x : string) :
  In x (minus l m) <-> In x l /\ ~ In x m.
Proof.
  unfold minus. rewrite filter_In, negb_true_iff.
  rewrite <- (str_in_In x m).
  destruct (str_in x m); intuition congruence.
Qed.

Lemma sorted_set_In (l : list string) (x : string) :
  In x (sorted_set l) <-> In x l.
Proof. unfold sorted_set. rewrite np_sort_In. apply nodup_In. Qed.

Lemma sorted_set_NoDup (l : list string) : NoDup (sorted_set l).
Proof.
  unfold sorted_set.
  eapply Permutation_NoDup; [apply Permutation_sym, np_sort_perm|].
  apply NoDup_nodup.
Qed.

Lemma dict_set_keys {A : Type} (k : string) (v : A) (d : dict A)
  (x : string) :
  In x (dict_keys (dict_set k v d)) <-> x = k \/ In x (dict_keys d).
Proof.
  unfold dict_keys. induction d as [|[k' v'] t IH]; simpl.
  - intuition auto.
  - destruct (String.eqb_spec k k') as [->|Hne]; simpl.
    + intuition auto.
    + rewrite IH. intuition auto.
Qed.

Lemma set_opt_keys (k : string) (o : option string) (d : dict string)
  (x : string) :
  In x (dict_keys (set_opt k o d))
  <-> (x = k /\ is_some o = true) \/ In x (dict_keys d).
Proof.
  destruct o as [v|]; simpl.
  - rewrite dict_set_keys. intuition auto.
  - intuition auto. discriminate.
Qed.

Lemma NoDup_map_inj {A B : Type} (f : A -> B) (l : list A) (x y : A) :
  NoDup (map f l) -> In x l -> In y l -> f x = f y -> x = y.
Proof.
  induction l as [|a t IH]; simpl; [intros _ []|].
  intros Hnd Hx Hy Heq. apply NoDup_cons_iff in Hnd.
  destruct Hnd as [Hnotin Hnd].
  destruct Hx as [->|Hx]; destruct Hy as [->|Hy].
  - reflexivity.
  - exfalso. apply Hnotin. rewrite Heq. now apply in_map.
  - exfalso. apply Hnotin. rewrite <- Heq. now apply in_map.
  - now apply IH.
Qed.

(** Selecting columns of a frame keeps their names distinct. *)
Lemma selected_names_NoDup {A : Type} (keep : string * A -> bool)
  (cols : list (string * A)) :
  NoDup (map fst cols) -> NoDup (map fst (filter keep cols)).
Proof.
  induction cols as [|c t IH]; simpl; [auto|].
  intros Hnd. apply NoDup_cons_iff in Hnd. destruct Hnd as [Hnotin Hnd].
  destruct (keep c); simpl; [|now apply IH].
  constructor; [|now apply IH].
  intros Hin. apply Hnotin. apply in_map_iff in Hin.
  destruct Hin as [b [Hb Hin]]. apply filter_In in Hin.
  rewrite <- Hb. apply in_map. tauto.
Qed.

Section MonadFacts.
Context {R : RandomSource}.

Lemma bind_run {A B : Type} (m : M A) (k : A -> M B) (g g' : rng) (x : A) :
  m g = (inr x, g') -> bind m k g = k x g'.
Proof. intros H. unfold bind. now rewrite H. Qed.

Lemma bind_inv {A B : Type} (m : M A) (k : A -> M B) (g g' : rng) (y : B) :
  bind m k g = (inr y, g') ->
  exists x g1, m g = (inr x, g1) /\ k x g1 = (inr y, g').
Proof.
  unfold bind. destruct (m g) as [[e|x] g1]; [discriminate|].
  intros H. now exists x, g1.
Qed.

End MonadFacts.

Section AmbiguityFacts.
Context {L : Library} {R : RandomSource}.

(** A description carries the name of its column, and records the ordinal
    or the categorical reason only for a column that the user declared
    neither ordinal nor categorical. *)
Lemma inspect_str_column_desc (name : string) (series : Series)
  (cats ords : list string) (g g' : rng) (d : ColumnDescriptions) :
  inspect_str_column name series cats ords g = (inr (inl d), g') ->
  desc_col d = name
  /\ (is_some (desc_ord d) = true \/ is_some (desc_cat d) = true ->
      ~ In name ords /\ ~ In name cats).
Proof.
  assert (Hund : negb (str_in name ords) && negb (str_in name cats) = true ->
                 ~ In name ords /\ ~ In name cats).
  { rewrite andb_true_iff, !negb_true_iff. intros [H1 H2].
    split; intros Hin; apply str_in_In in Hin; congruence. }
  unfold inspect_str_column, try_except, bind, ret.
  destruct (looks_constant series) as [[|] dc].
  { intros H. injection H as <- _. simpl. split; [reflexivity|].
    intros [H|H]; discriminate. }
  destruct (looks_timelike series g) as [[e|[[|] dt]] g1].
  { discriminate. }
  { intros H. injection H as <- _. simpl. split; [reflexivity|].
    intros [H|H]; discriminate. }
  destruct (looks_ordinal series) as [maybe_ord dord].
  destruct (looks_id_like series g1) as [[e|[maybe_id did]] g2].
  { discriminate. }
  destruct (looks_floatlike series) as [maybe_float dfl].
  destruct (maybe_float || maybe_id || false) eqn:Estop.
  { intros H. injection H as <- _. simpl. split; [reflexivity|].
    intros [H|H]; [|discriminate].
    destruct (maybe_ord && _) eqn:E; [|discriminate].
    apply andb_true_iff in E. now apply Hund. }
  destruct (looks_categorical series g2) as [[e|[maybe_cat dcat]] g3].
  { discriminate. }
  intros H. injection H as <- _. simpl. split; [reflexivity|].
  intros [H|H].
  - destruct (maybe_ord && _) eqn:E; [|discriminate].
    apply andb_true_iff in E. now apply Hund.
  - destruct (maybe_cat && _) eqn:E; [|discriminate].
    apply andb_true_iff in E. now apply Hund.
Qed.

(** A recorded ordinal reason is the one of [looks_ordinal], a recorded
    categorical reason the one of [looks_categorical]: the description
    records that the heuristic fired. *)
Lemma inspect_str_column_fired (name : string) (series : Series)
  (cats ords : list string) (g g' : rng) (d : ColumnDescriptions) :
  inspect_str_column name series cats ords g = (inr (inl d), g') ->
  (forall reason, desc_ord d = Some reason ->
     looks_ordinal series = (true, reason))
  /\ (forall reason, desc_cat d = Some reason ->
        exists ga gb, looks_categorical series ga = (inr (true, reason), gb)).
Proof.
  unfold inspect_str_column, try_except, bind, ret.
  destruct (looks_constant series) as [[|] dc].
  { intros H. injection H as <- _. simpl. split; discriminate. }
  destruct (looks_timelike series g) as [[e|[[|] dt]] g1].
  { discriminate. }
  { intros H. injection H as <- _. simpl. split; discriminate. }
  destruct (looks_ordinal series) as [maybe_ord dord].
  destruct (looks_id_like series g1) as [[e|[maybe_id did]] g2].
  { discriminate. }
  destruct (looks_floatlike series) as [maybe_float dfl].
  destruct (maybe_float || maybe_id || false) eqn:Estop.
  { intros H. injection H as <- _. simpl. split; [|discriminate].
    intros reason Hr. destruct maybe_ord; [|discriminate].
    destruct (negb (str_in name ords) && negb (str_in name cats));
      [|discriminate].
    simpl in Hr. now injection Hr as ->. }
  destruct (looks_categorical series g2) as [[e|[maybe_cat dcat]] g3] eqn:Ec.
  { discriminate. }
  intros H. injection H as <- _. simpl. split.
  - intros reason Hr. destruct maybe_ord; [|discriminate].
    destruct (negb (str_in name ords) && negb (str_in name cats));
      [|discriminate].
    simpl in Hr. now injection Hr as ->.
  - intros reason Hr. destruct maybe_cat; [|discriminate].
    destruct (negb (str_in name ords) && negb (str_in name cats));
      [|discriminate].
    simpl in Hr. injection Hr as ->. now exists g2, g3.
Qed.

(** When no worker fails, the descriptions come in the order of the
    columns, one per column, and obey [inspect_str_column_desc]. *)
Lemma describe_columns_names (df : DataFrame) (names : list string)
  (cats ords : list string) (g g' : rng) (ds : list ColumnDescriptions) :
  describe_columns df names cats ords g = (inr (map inl ds), g') ->
  map desc_col ds = names
  /\ (forall d, In d ds ->
        is_some (desc_ord d) = true \/ is_some (desc_cat d) = true ->
        ~ In (desc_col d) ords /\ ~ In (desc_col d) cats).
Proof.
  unfold describe_columns. revert g g' ds.
  induction names as [|name t IH]; intros g g' ds H.
  - cbn [mapM] in H. unfold ret in H. injection H as H _.
    destruct ds; [|discriminate]. split; [reflexivity|intros d []].
  - cbn [mapM] in H.
    apply bind_inv in H. destruct H as [y [g1 [Hy H]]].
    apply bind_inv in H. destruct H as [ys [g2 [Hys H]]].
    unfold ret in H. injection H as H _.
    destruct ds as [|d ds]; [discriminate|].
    cbn [map] in H. injection H as -> ->.
    apply bind_inv in Hy. destruct Hy as [series [g0 [_ Hy]]].
    destruct (inspect_str_column_desc _ _ _ _ _ _ _ Hy) as [Hname Hund].
    destruct (IH _ _ _ Hys) as [Hnames Hrest].
    split; [cbn [map]; now rewrite Hname, Hnames|].
    intros d' [<-|Hd']; [rewrite Hname; exact Hund|now apply Hrest].
Qed.

Lemma collect_descs_run (ds : list ColumnDescriptions) (acc : Infos)
  (g : rng) :
  collect_descs (map inl ds) acc g = (inr (fold_left record_desc ds acc), g).
Proof.
  revert acc. induction ds as [|d t IH]; intros acc; [reflexivity|].
  cbn [map collect_descs fold_left]. apply IH.
Qed.

Lemma record_desc_ord_keys (ds : list ColumnDescriptions) (acc : Infos)
  (x : string) :
  In x (dict_keys (descs (ord_info (fold_left record_desc ds acc))))
  <-> In x (dict_keys (descs (ord_info acc)))
      \/ exists d, In d ds /\ desc_col d = x /\ is_some (desc_ord d) = true.
Proof.
  revert acc. induction ds as [|d t IH]; intros acc; cbn [fold_left].
  - split; [now left|]. intros [H|[d [[] _]]]. exact H.
  - rewrite IH. cbn [record_desc ord_info descs]. rewrite set_opt_keys.
    split.
    + intros [[[-> Hs]|H]|[d' [Hd' H]]].
      * right. exists d. simpl. auto.
      * now left.
      * right. exists d'. simpl. tauto.
    + intros [H|[d' [[<-|Hd'] [Hn Hs]]]].
      * left. now right.
      * left. left. auto.
      * right. exists d'. auto.
Qed.

Lemma record_desc_cat_keys (ds : list ColumnDescriptions) (acc : Infos)
  (x : string) :
  In x (dict_keys (descs (cat_info (fold_left record_desc ds acc))))
  <-> In x (dict_keys (descs (cat_info acc)))
      \/ exists d, In d ds /\ desc_col d = x /\ is_some (desc_cat d) = true.
Proof.
  revert acc. induction ds as [|d t IH]; intros acc; cbn [fold_left].
  - split; [now left|]. intros [H|[d [[] _]]]. exact H.
  - rewrite IH. cbn [record_desc cat_info descs]. rewrite set_opt_keys.
    split.
    + intros [[[-> Hs]|H]|[d' [Hd' H]]].
      * right. exists d. simpl. auto.
      * now left.
      * right. exists d'. simpl. tauto.
    + intros [H|[d' [[<-|Hd'] [Hn Hs]]]].
      * left. now right.
      * left. left. auto.
      * right. exists d'. auto.
Qed.

Lemma record_desc_const_kind (ds : list ColumnDescriptions) (acc : Infos) :
  kind (const_info acc) = Const ->
  kind (const_info (fold_left record_desc ds acc)) = Const.
Proof.
  revert acc. induction ds as [|d t IH]; intros acc H; cbn [fold_left].
  - exact H.
  - apply IH. reflexivity.
Qed.

End AmbiguityFacts.

Lemma sorted_set_sorted (l : list string) : names_sorted (sorted_set l).
Proof.
  unfold names_sorted, sorted_set. apply np_sort_sorted.
  apply String.leb_total.
Qed.

Section InspectDataRun.
Context {L : Library} {R : RandomSource}.

Lemma uncategorize_run (cols : list (string * Column)) (g : rng) :
  (forall c, In c cols -> uncastable c = false) ->
  mapM uncategorize cols g = (inr (map cast_categories cols), g).
Proof.
  intros H. apply mapM_pure. intros c Hc. specialize (H c Hc).
  unfold uncategorize, cast_categories, uncastable in *.
  destruct (col_dtype (snd c)); try reflexivity.
  now rewrite H.
Qed.

Lemma cast_categories_names (cols : list (string * Column)) :
  map fst (map cast_categories cols) = map fst cols.
Proof.
  rewrite map_map. apply map_ext. intros c.
  unfold cast_categories. now destruct (col_dtype (snd c)).
Qed.

Lemma predictors_names_NoDup (df : DataFrame) (target : string) :
  NoDup (column_names df) -> NoDup (column_names (predictors df target)).
Proof.
  intros H. unfold predictors, drop_ignore, column_names. simpl.
  apply selected_names_NoDup. now rewrite cast_categories_names.
Qed.

Lemma str_columns_incl (X : DataFrame) (name : string) :
  In name (str_columns X) -> In name (column_names X).
Proof.
  unfold str_columns, column_names. intros H.
  apply in_map_iff in H. destruct H as [c [<- Hc]].
  apply filter_In in Hc. apply in_map. tauto.
Qed.

(** A name cannot be both a string column and an integer column. *)
Lemma str_int_disjoint (X : DataFrame) (name : string) :
  NoDup (column_names X) ->
  In name (str_columns X) -> In name (int_columns X) -> False.
Proof.
  unfold str_columns, int_columns, column_names. intros Hnd Hs Hi.
  apply in_map_iff in Hs. destruct Hs as [c1 [H1 Hc1]].
  apply in_map_iff in Hi. destruct Hi as [c2 [H2 Hc2]].
  apply filter_In in Hc1. apply filter_In in Hc2.
  destruct Hc1 as [Hin1 Hd1]. destruct Hc2 as [Hin2 Hd2].
  assert (E : c1 = c2).
  { apply (NoDup_map_inj fst (df_columns X)); try assumption. congruence. }
  subst c2. destruct (col_dtype (snd c1)); discriminate.
Qed.

Lemma inspect_str_columns_run (X : DataFrame) (names cats ords : list string)
  (g g' : rng) (ds : list ColumnDescriptions) :
  describe_columns X names cats ords g = (inr (map inl ds), g') ->
  inspect_str_columns X names cats ords g
  = (inr (fold_left record_desc ds empty_infos), g').
Proof.
  intros H. unfold inspect_str_columns.
  rewrite (bind_run _ _ _ _ _ H). apply collect_descs_run.
Qed.

Lemma inspect_other_columns_run (X : DataFrame) (names : list string)
  (g : rng) :
  (forall name, In name names -> In name (column_names X)) ->
  exists info,
    inspect_other_columns X names g = (inr info, g) /\ kind info = Const.
Proof.
  intros H. unfold inspect_other_columns.
  rewrite (bind_run _ _ g g (map (constant_entry X) names)).
  - eexists. split; reflexivity.
  - apply mapM_pure. intros name Hin. unfold getitem, constant_entry, bind.
    destruct (assoc_In name (df_columns X) (H name Hin)) as [c Hc].
    rewrite Hc. unfold ret.
    now destruct (looks_constant (series_of_column X c)) as [[|] desc].
Qed.

End InspectDataRun.

Section AmbiguityClaim.
Context {L : Library} {R : RandomSource}.

(** [looks_id_like] neither reads nor advances the random state. *)
Lemma looks_id_like_pure (series : Series) (g g' : rng) :
  snd (looks_id_like series g) = g
  /\ fst (looks_id_like series g) = fst (looks_id_like series g').
Proof.
  unfold looks_id_like.
  destruct (fst (looks_floatlike series)); [split; reflexivity|].
  destruct (dtype series);
    try (destruct (np_all _); [split; reflexivity|];
         destruct (_ <? _)%nat; [split; reflexivity|];
         destruct (np_unique_raw _) as [[unqs cnts]|]; [|split; reflexivity];
         destruct (np_all _); [split; reflexivity|];
         destruct (_ <=? _)%nat; split; reflexivity).
  destruct (_ <? _)%nat; split; reflexivity.
Qed.

(** A description records both reasons exactly for an undeclared column on
    which both heuristics fire. *)
Lemma inspect_str_column_both (name : string) (series : Series)
  (cats ords : list string) (g g' : rng) (d : ColumnDescriptions) :
  inspect_str_column name series cats ords g = (inr (inl d), g') ->
  fires_both d = true
  <-> ~ In name ords /\ ~ In name cats /\ both_fire series g.
Proof.
  assert (Hund : negb (str_in name ords) && negb (str_in name cats) = true
                 <-> ~ In name ords /\ ~ In name cats).
  { rewrite andb_true_iff, !negb_true_iff. rewrite <- !str_in_In.
    destruct (str_in name ords), (str_in name cats); intuition congruence. }
  unfold inspect_str_column, try_except, bind, ret, both_fire, fires_both,
    verdict.
  destruct (looks_constant series) as [[|] dc]; cbn [fst].
  { intros H. injection H as <- _. cbn. split; [discriminate|].
    intros [_ [_ [H _]]]. discriminate. }
  destruct (looks_timelike series g) as [[e|[[|] dt]] g1]; cbn [fst snd].
  { discriminate. }
  { intros H. injection H as <- _. cbn. split; [discriminate|].
    intros [_ [_ [_ [H _]]]]. discriminate. }
  destruct (looks_ordinal series) as [maybe_ord dord]; cbn [fst].
  destruct (looks_id_like_pure series g1 g1) as [Hstate _].
  pose proof (fun g2 => proj2 (looks_id_like_pure series g1 g2)) as Hpure.
  destruct (looks_id_like series g1) as [[e|[maybe_id did]] g2] eqn:Eid;
    cbn [fst snd] in *.
  { discriminate. }
  subst g2.
  assert (Hcat : forall b r gc,
            looks_categorical series g1 = (inr (b, r), gc) ->
            b = true ->
            fst (looks_floatlike series) = false /\ maybe_id = false).
  { intros b r gc Hc Hb. subst b. unfold looks_categorical, bind, ret in Hc.
    destruct (fst (looks_floatlike series)); [discriminate|].
    split; [reflexivity|].
    destruct (looks_timelike series g1) as [[e|[bt rt]] g3]; [discriminate|].
    cbn [fst] in Hc. destruct bt; [discriminate|].
    specialize (Hpure g3).
    destruct (looks_id_like series g3) as [[e|[bi ri]] g4]; [discriminate|].
    cbn [fst] in *. injection Hpure as Hb _. subst bi.
    destruct maybe_id; [discriminate|reflexivity]. }
  destruct (looks_floatlike series) as [maybe_float dfl]; cbn [fst] in *.
  destruct (maybe_float || maybe_id || false) eqn:Estop.
  { intros H. injection H as <- _. cbn [desc_ord desc_cat is_some].
    rewrite andb_false_r. split; [discriminate|].
    intros [_ [_ [_ [_ [_ H]]]]].
    destruct (looks_categorical series g1) as [[e|[b r]] gc] eqn:Ec;
      [discriminate|].
    cbn [fst] in H. injection H as ->.
    destruct (Hcat _ _ _ eq_refl eq_refl) as [-> ->]. discriminate. }
  destruct (looks_categorical series g1) as [[e|[maybe_cat dcat]] g3];
    [discriminate|].
  cbn [fst]. intros H. injection H as <- _. cbn [desc_ord desc_cat].
  set (und := negb (str_in name ords) && negb (str_in name cats)) in *.
  destruct und, maybe_ord, maybe_cat; cbn [andb is_some];
    split; try discriminate; try reflexivity;
    intuition (try discriminate; try congruence).
Qed.

Lemma mapM_app_inv {A B : Type} (f : A -> M B) (l1 l2 : list A)
  (g g' : rng) (ys : list B) :
  mapM f (l1 ++ l2)%list g = (inr ys, g') ->
  exists ys1 ys2 gm,
    mapM f l1 g = (inr ys1, gm)
    /\ mapM f l2 gm = (inr ys2, g')
    /\ ys = (ys1 ++ ys2)%list.
Proof.
  revert g ys. induction l1 as [|x t IH]; intros g ys H.
  - exists [], ys, g. repeat split. exact H.
  - cbn [app mapM] in H. apply bind_inv in H.
    destruct H as [y [g1 [Hy H]]].
    apply bind_inv in H. destruct H as [ys' [g2 [Ht H]]].
    unfold ret in H. injection H as <- <-.
    destruct (IH _ _ Ht) as [ys1 [ys2 [gm [H1 [H2 ->]]]]].
    exists (y :: ys1), ys2, gm. split; [|split; [exact H2|reflexivity]].
    cbn [mapM]. rewrite (bind_run _ _ _ _ _ Hy).
    now rewrite (bind_run _ _ _ _ _ H1).
Qed.

(** The description of a column comes from the run of its worker in the
    state that the columns before it leave. *)
Lemma describe_columns_at (X : DataFrame) (before after : list string)
  (name : string) (cats ords : list string) (g g' : rng)
  (ds : list ColumnDescriptions) :
  describe_columns X (before ++ name :: after)%list cats ords g
  = (inr (map inl ds), g') ->
  exists d c gb,
    In d ds /\ desc_col d = name
    /\ assoc name (df_columns X) = Some c
    /\ inspect_str_column name (series_of_column X c) cats ords
         (state_after X cats ords g before) = (inr (inl d), gb).
Proof.
  intros H. unfold describe_columns in H. apply mapM_app_inv in H.
  destruct H as [ys1 [ys2 [gm [H1 [H2 Hys]]]]].
  assert (Eg : state_after X cats ords g before = gm).
  { unfold state_after, describe_columns. now rewrite H1. }
  cbn [mapM] in H2. apply bind_inv in H2.
  destruct H2 as [y [g1 [Hy H2]]].
  apply bind_inv in H2. destruct H2 as [ys' [g2 [_ H2]]].
  unfold ret in H2. injection H2 as <- _.
  assert (Hin : In y (map inl ds)).
  { rewrite Hys. apply in_or_app. right. now left. }
  apply in_map_iff in Hin. destruct Hin as [d [<- Hd]].
  apply bind_inv in Hy. destruct Hy as [series [g0 [Hget Hy]]].
  unfold getitem in Hget.
  destruct (assoc name (df_columns X)) as [c|]; [|discriminate].
  unfold ret in Hget. injection Hget as <- <-.
  exists d, c, g1. split; [exact Hd|].
  split; [now destruct (inspect_str_column_desc _ _ _ _ _ _ _ Hy)|].
  split; [reflexivity|]. rewrite Eg. exact Hy.
Qed.

(** C5, amended.  Take a frame with distinct column names that holds the
    target, whose categorical columns cast, and on which no worker fails;
    let every declared categorical be a predictor.  Then the names reported
    as ambiguous are exactly the columns that are of string dtype once the
    categorical columns are cast, are declared neither ordinal nor
    categorical, and on which both heuristics fire: the column is neither
    constant nor time-like, and [looks_ordinal] and [looks_categorical]
    both answer yes.  They are reported once each, in ascending order; when
    there is one, [inspect_data] raises the [TypeError] whose message
    holds their list, and when there is none it returns the results.
    Columns of integer dtype are never reported. *)
Theorem inspect_data_ambiguity (df : DataFrame) (target : string)
  (categoricals ordinals : list string) (g g1 g2 : rng)
  (ds dsi : list ColumnDescriptions) :
  let X := predictors df target in
  NoDup (column_names df) ->
  (forall c, In c (df_columns df) -> uncastable c = false) ->
  In target (column_names df) ->
  describe_columns X (str_columns X) categoricals ordinals g
  = (inr (map inl ds), g1) ->
  describe_columns X (int_columns X) categoricals ordinals g1
  = (inr (map inl dsi), g2) ->
  (forall c, In c categoricals -> In c (column_names X)) ->
  exists ambiguous,
    (forall c, In c ambiguous
               <-> ambiguous_column X categoricals ordinals g c)
    /\ NoDup ambiguous
    /\ names_sorted ambiguous
    /\ (ambiguous <> [] ->
        inspect_data df target categoricals ordinals g
        = (inl (TypeError
                  ("Cannot automatically determine the cardinality of "
                     ++ "features: " ++ str_of_list ambiguous
                     ++ ". Specify each of these as either ordinal or "
                     ++ "categorical using the `--ordinals` and "
                     ++ "`--categoricals` options to df-analyze, or "
                     ++ "eliminate them using the `--drops` option.")),
           g2))
    /\ (ambiguous = [] ->
        exists results,
          inspect_data df target categoricals ordinals g = (inr results, g2)).
Proof.
  intros X Hnd Hcast Htarget Hstr Hint Hdecl.
  pose proof (predictors_names_NoDup df target Hnd) as HndX. fold X in HndX.
  destruct (describe_columns_names _ _ _ _ _ _ _ Hstr) as [Hnames Hund].
  destruct (describe_columns_names _ _ _ _ _ _ _ Hint) as [Hnamesi _].
  set (strs := fold_left record_desc ds empty_infos).
  set (ints := fold_left record_desc dsi empty_infos).
  set (ambiguous :=
         sorted_set
           (minus
              (minus
                 (inter
                    (dict_keys (descs (ord_info strs))
                       ++ dict_keys (descs (ord_info ints)))%list
                    (dict_keys (descs (cat_info strs))))
                 categoricals)
              ordinals)).
  exists ambiguous.
  assert (Hds : NoDup (map desc_col ds)).
  { rewrite Hnames. unfold str_columns.
    apply selected_names_NoDup. exact HndX. }
  assert (Hmem0 : forall c, In c ambiguous
            <-> exists d, In d ds /\ desc_col d = c /\ fires_both d = true).
  { intros c. unfold ambiguous.
    rewrite sorted_set_In, !minus_In, inter_In, in_app_iff.
    unfold strs, ints. rewrite !record_desc_ord_keys, record_desc_cat_keys.
    unfold fires_both. simpl. split.
    - intros [[[[[[]|[d1 [Hd1 [Hn1 Ho1]]]]|[[]|[d2 [Hd2 [Hn2 Ho2]]]]]
                  [[]|[d3 [Hd3 [Hn3 Hc3]]]]] _] _].
      + assert (E : d1 = d3).
        { apply (NoDup_map_inj desc_col ds); try assumption. congruence. }
        subst d3. exists d1. rewrite Ho1, Hc3. auto.
      + exfalso. apply (str_int_disjoint X c HndX).
        * rewrite <- Hnames, <- Hn3. now apply in_map.
        * rewrite <- Hnamesi, <- Hn2. now apply in_map.
    - intros [d [Hd [Hn Hb]]]. apply andb_true_iff in Hb.
      destruct Hb as [Ho Hc].
      destruct (Hund d Hd (or_introl Ho)) as [Hno Hnc]. rewrite Hn in *.
      repeat split; try assumption.
      + left. right. exists d. auto.
      + right. exists d. auto. }
  assert (Hmem : forall c, In c ambiguous
            <-> ambiguous_column X categoricals ordinals g c).
  { intros c. rewrite Hmem0. unfold ambiguous_column. split.
    - intros [d [Hd [Hn Hb]]].
      destruct (in_split d ds Hd) as [ds1 [ds2 Esplit]].
      assert (Ecols : str_columns X
                = (map desc_col ds1 ++ c :: map desc_col ds2)%list).
      { rewrite <- Hnames, Esplit, map_app. cbn [map]. now rewrite Hn. }
      pose proof Hstr as Hat. rewrite Ecols in Hat.
      apply describe_columns_at in Hat.
      destruct Hat as [d' [col [gb [Hd' [Hn' [Hcol Hrun']]]]]].
      assert (Ed : d' = d).
      { apply (NoDup_map_inj desc_col ds); try assumption. congruence. }
      subst d'.
      destruct (proj1 (inspect_str_column_both _ _ _ _ _ _ _ Hrun') Hb)
        as [Ho [Hc Hfire]].
      split; [exact Ho|]. split; [exact Hc|].
      exists (map desc_col ds1), (map desc_col ds2), col. auto.
    - intros [Ho [Hc [before [after [col [Ecols [Hcol Hfire]]]]]]].
      pose proof Hstr as Hat. rewrite Ecols in Hat.
      apply describe_columns_at in Hat.
      destruct Hat as [d [col' [gb [Hd [Hn [Hcol' Hrun']]]]]].
      assert (col' = col) by congruence. subst col'.
      exists d. split; [exact Hd|]. split; [exact Hn|].
      apply (inspect_str_column_both _ _ _ _ _ _ _ Hrun'). auto. }
  split; [exact Hmem|]. split; [apply sorted_set_NoDup|].
  split; [apply sorted_set_sorted|].
  assert (Htarget' : str_in target
            (column_names
               (mkFrame (df_index df) (map cast_categories (df_columns df))))
            = true).
  { apply str_in_In. unfold column_names. simpl.
    now rewrite cast_categories_names. }
  assert (Hk1 : kind (const_info strs) = Const)
    by (apply record_desc_const_kind; reflexivity).
  assert (Hk2 : kind (const_info ints) = Const)
    by (apply record_desc_const_kind; reflexivity).
  destruct (inspect_other_columns_run X
              (minus (minus (column_names X) (str_columns X)) (int_columns X))
              g2) as [other [Hother Hk3]].
  { intros name Hin. apply minus_In in Hin. destruct Hin as [Hin _].
    apply minus_In in Hin. tauto. }
  destruct (detect_big_cats_run X (fst (get_unq_counts X target))
              (categoricals ++ dict_keys (descs (cat_info strs)))%list g2)
    as [bigs [big_info Hbig]].
  { intros name Hin. apply in_app_or in Hin. destruct Hin as [Hin|Hin].
    - now apply Hdecl.
    - unfold strs in Hin. apply record_desc_cat_keys in Hin.
      destruct Hin as [[]|[d [Hd [Hn _]]]].
      apply str_columns_incl. rewrite <- Hnames, <- Hn. now apply in_map. }
  assert (Hrun :
    inspect_data df target categoricals ordinals g
    = (if (0 <? length ambiguous)%nat
       then raise (TypeError (ambiguity_message ambiguous))
       else
         ret (mkResults (float_info strs) (ord_info strs) (id_info strs)
                (time_info strs)
                (mkInfo Const
                   (fold_left (fun d i => dict_update d (descs i))
                      [const_info strs; const_info ints; other] []))
                (cat_info strs) (ord_info ints) (id_info ints) bigs
                (mkInfo Nyan
                   (fold_left
                      (fun d name =>
                         dict_set name "Constant when dropping NaNs" d)
                      (sorted_set
                         (inter
                            (keys_where (fun cnt => (cnt =? 1)%Z)
                               (snd (get_unq_counts X target)))
                            (categoricals
                               ++ dict_keys (descs (cat_info strs)))%list))
                      []))
                (concat
                   (map (emitted X)
                      (categoricals
                         ++ dict_keys (descs (cat_info strs)))%list))
                (sorted_set
                   (inter
                      (keys_where (fun cnt => (cnt =? 2)%Z)
                         (snd (get_unq_counts X target)))
                      (categoricals
                         ++ dict_keys (descs (cat_info strs)))%list))
                (sorted_set
                   (inter
                      (keys_where (fun cnt => (cnt >? 2)%Z)
                         (snd (get_unq_counts X target)))
                      (categoricals
                         ++ dict_keys (descs (cat_info strs)))%list))))
        g2).
  { unfold inspect_data.
    rewrite (bind_run _ _ _ _ _ (uncategorize_run _ g Hcast)).
    unfold drop_column. rewrite Htarget'.
    change (get_str_cols _ target) with (str_columns X).
    change (get_int_cols _ target) with (int_columns X).
    change (drop_ignore _ [target]) with X.
    rewrite (bind_run _ _ g g X) by reflexivity.
    rewrite (bind_run _ _ _ _ _ (inspect_str_columns_run _ _ _ _ _ _ _ Hstr)).
    fold strs.
    rewrite (bind_run _ _ g1 g2 (ord_info ints, id_info ints, const_info ints)).
    2:{ unfold inspect_int_columns.
        rewrite (bind_run _ _ _ _ _
                   (inspect_str_columns_run _ _ _ _ _ _ _ Hint)).
        reflexivity. }
    cbv beta iota.
    rewrite (bind_run _ _ _ _ _ Hother).
    rewrite (bind_run _ _ g2 g2
               (mkInfo Const
                  (fold_left (fun d i => dict_update d (descs i))
                     [const_info strs; const_info ints; other] []))).
    2:{ unfold merge. cbn [forallb]. rewrite Hk1, Hk2, Hk3. reflexivity. }
    destruct (get_unq_counts X target) as [unique_counts nanless_cnts].
    cbn [fst snd] in *.
    rewrite (bind_run _ _ _ _ _ Hbig).
    reflexivity. }
  rewrite Hrun. split.
  - intros Hne. destruct ambiguous as [|a t]; [congruence|]. reflexivity.
  - intros ->. eexists. reflexivity.
Qed.

End AmbiguityClaim.

(** C5, refuted as stated: the integer column [x] of this frame fires both
    heuristics and is declared neither ordinal nor categorical, and yet
    [inspect_data] raises nothing: it returns the results, with [x] among
    the integer ordinals. *)
Lemma inspect_data_integer_counterexample :
  let df := Samples.binary_frame in
  (exists series d,
      getitem (R := Reference.identity_source) df "x" tt = (inr series, tt)
      /\ inspect_str_column (L := Reference.library)
           (R := Reference.identity_source) "x" series [] [] tt
         = (inr (inl d), tt)
      /\ desc_ord d = Some "Binary {0, 1} indicator"
      /\ desc_cat d = Some "Either categorical or ordinal")
  /\ (exists results,
        inspect_data (L := Reference.library)
          (R := Reference.identity_source) df "y" [] [] tt
        = (inr results, tt)
        /\ descs (int_ords results) = [("x", "Binary {0, 1} indicator")]).
Proof.
  cbv zeta. split.
  - eexists. eexists. split; [reflexivity|]. split; [vm_compute; reflexivity|].
    split; reflexivity.
  - eexists. split; [vm_compute; reflexivity|]. reflexivity.
Qed.

Lemma inspect_data_ambiguity_witness :
  let df := Samples.binary_text_frame in
  let d :=
    mkDescriptions "x" None None (Some "Binary {0, 1} indicator") None None
      (Some "Either categorical or ordinal") in
  NoDup (column_names df)
  /\ In "y" (column_names df)
  /\ describe_columns (L := Reference.library)
       (R := Reference.identity_source) (predictors df "y")
       (str_columns (predictors df "y")) [] [] tt
     = (inr [inl d], tt)
  /\ ambiguous_column (L := Reference.library)
       (R := Reference.identity_source) (predictors df "y") [] [] tt "x"
  /\ inspect_data (L := Reference.library) (R := Reference.identity_source)
       df "y" [] [] tt
     = (inl (TypeError
               ("Cannot automatically determine the cardinality of "
                  ++ "features: ['x']. Specify each of these as either "
                  ++ "ordinal or categorical using the `--ordinals` and "
                  ++ "`--categoricals` options to df-analyze, or "
                  ++ "eliminate them using the `--drops` option.")), tt).
Proof.
  cbv zeta.
  set (df := Samples.binary_text_frame).
  set (d := mkDescriptions "x" None None (Some "Binary {0, 1} indicator")
              None None (Some "Either categorical or ordinal")).
  assert (Hnd : NoDup (column_names df)).
  { simpl. constructor.
    - intros [H|[]]. discriminate.
    - constructor; [intros []|constructor]. }
  assert (Hcast : forall c, In c (df_columns df) -> uncastable c = false).
  { intros c [<-|[<-|[]]]; reflexivity. }
  assert (Htarget : In "y" (column_names df)) by (simpl; auto).
  assert (Hstr : describe_columns (L := Reference.library)
                   (R := Reference.identity_source) (predictors df "y")
                   (str_columns (predictors df "y")) [] [] tt
                 = (inr (map inl [d]), tt)) by (vm_compute; reflexivity).
  assert (Hint : describe_columns (L := Reference.library)
                   (R := Reference.identity_source) (predictors df "y")
                   (int_columns (predictors df "y")) [] [] tt
                 = (inr (map inl []), tt)) by (vm_compute; reflexivity).
  assert (Hdecl : forall c, In c [] -> In c (column_names (predictors df "y")))
    by (intros c []).
  assert (Hamb : ambiguous_column (L := Reference.library)
                   (R := Reference.identity_source) (predictors df "y")
                   [] [] tt "x").
  { split; [intros []|]. split; [intros []|].
    exists [], [], (Samples.text_column ["0"; "1"; "0"; "1"; "0"]).
    split; [reflexivity|]. split; [reflexivity|].
    repeat split; vm_compute; reflexivity. }
  refine (conj Hnd (conj Htarget (conj Hstr (conj Hamb _)))).
  destruct (inspect_data_ambiguity (L := Reference.library)
              (R := Reference.identity_source) df "y" [] [] tt tt tt
              [d] [] Hnd Hcast Htarget Hstr Hint Hdecl)
    as [ambiguous [Hmem [Hnodup [_ [Hraise _]]]]].
  assert (Hx : In "x" ambiguous) by (apply Hmem; exact Hamb).
  assert (Hall : forall c, In c ambiguous -> c = "x").
  { intros c Hc. apply Hmem in Hc.
    destruct Hc as [_ [_ [before [after [col [Ecols _]]]]]].
    change (str_columns (predictors df "y")) with ["x"] in Ecols.
    destruct before as [|b [|b' before]]; cbn [app] in Ecols;
      [congruence| |];
      injection Ecols as _ Ecols; destruct after; discriminate. }
  assert (E : ambiguous = ["x"]).
  { apply nodup_length_one; try assumption.
    intros ->. destruct Hx. }
  rewrite E in Hraise. apply Hraise. discriminate.
Defined.

Lemma detect_big_cats_inflation_witness :
  let df := Samples.city_frame in
  (forall name, In name ["city"] -> In name (column_names df))
  /\ exists bigs infos info,
       detect_big_cats (L := Reference.library)
         (R := Reference.identity_source) df [] ["city"] tt
       = (inr (bigs, infos, info), tt)
       /\ (forall i, In i infos ->
             exists c,
               In (col i) ["city"]
               /\ assoc (col i) (df_columns df) = Some c
               /\ inflation_invariant (L := Reference.library)
                    (series_of_column df c) i).
Proof.
  cbv zeta.
  assert (H : forall name, In name ["city"] ->
                In name (column_names Samples.city_frame)).
  { intros name [<-|[]]. simpl. auto. }
  split; [exact H|].
  destruct (detect_big_cats_inflation (L := Reference.library)
              (R := Reference.identity_source) Samples.city_frame []
              ["city"] tt H)
    as [bigs [infos [info [Hrun [_ Hinv]]]]].
  exists bigs, infos, info. split; assumption.
Defined.

(** The record emitted for the sample column: the level of one row is to
    be deflated, the levels of 20 and of 21 rows are kept. *)
Example detect_big_cats_city :
  detect_big_cats (L := Reference.library) (R := Reference.identity_source)
    Samples.city_frame [] ["city"] tt
  = (inr ([], [mkInflationInfo "city" ["c"] ["a"; "b"] 1 2 3],
          mkInfo BigCat []), tt).
Proof. vm_compute. reflexivity. Qed.

(* ================================================================== *)
(** * Validation of the prepared tables *)
(* ================================================================== *)

Section ValidateFacts.
Context {R : RandomSource}.

(** What [validate] does in each of its four cases. *)
Lemma validate_cases (X X_cont X_cat : DataFrame) (y : Series) (g : rng) :
  let n := n_rows X in
  (n_rows X_cont <> n ->
   validate X X_cont X_cat y g
   = (inl (ValueError
             (mismatch_message "Continuous data" (n_rows X_cont) n)), g))
  /\ (n_rows X_cont = n -> n_rows X_cat <> n ->
      validate X X_cont X_cat y g
      = (inl (ValueError
                (mismatch_message "Categorical data" (n_rows X_cat) n)), g))
  /\ (n_rows X_cont = n -> n_rows X_cat = n -> len y <> n ->
      validate X X_cont X_cat y g
      = (inl (ValueError (mismatch_message "Target" (n_rows X_cat) n)), g))
  /\ (n_rows X_cont = n -> n_rows X_cat = n -> len y = n ->
      validate X X_cont X_cat y g
      = (inr (set_index X (range_index n),
              set_index X_cont (range_index n),
              set_index X_cat (range_index n),
              set_series_index y (range_index n)), g)).
Proof.
  cbv zeta. unfold validate. repeat split.
  - intros H. apply Nat.eqb_neq in H. now rewrite H.
  - intros H1 H2. apply Nat.eqb_eq in H1. apply Nat.eqb_neq in H2.
    now rewrite H1, H2.
  - intros H1 H2 H3. apply Nat.eqb_eq in H1, H2. apply Nat.eqb_neq in H3.
    now rewrite H1, H2, H3.
  - intros H1 H2 H3. apply Nat.eqb_eq in H1, H2, H3.
    now rewrite H1, H2, H3.
Qed.

End ValidateFacts.

(** C8 (the code departs from the claim).  With three tables of three rows
    and a target of two rows, the error names the target but reports the
    row count of the categorical table, 3, where the target has 2. *)
Theorem validate_target_count_misreported :
  n_rows Samples.three_rows = 3
  /\ len Samples.short_target = 2
  /\ validate (R := Reference.identity_source) Samples.three_rows
       Samples.three_rows Samples.three_rows Samples.short_target tt
     = (inl (ValueError
               "Target number of samples (3) does not match number of samples in processed data (3)"),
        tt)
  /\ validate (R := Reference.identity_source) Samples.three_rows
       Samples.three_rows Samples.three_rows Samples.short_target tt
     <> (inl (ValueError
                (mismatch_message "Target" (len Samples.short_target)
                   (n_rows Samples.three_rows))), tt).
Proof.
  split; [reflexivity|]. split; [reflexivity|].
  assert (E : validate (R := Reference.identity_source) Samples.three_rows
                Samples.three_rows Samples.three_rows Samples.short_target tt
              = (inl (ValueError
                        "Target number of samples (3) does not match number of samples in processed data (3)"),
                 tt)).
  { rewrite (proj1 (proj2 (proj2 (validate_cases
               (R := Reference.identity_source) Samples.three_rows
               Samples.three_rows Samples.three_rows Samples.short_target
               tt))));
      [reflexivity | reflexivity | reflexivity | vm_compute; discriminate]. }
  split; [exact E|]. rewrite E. vm_compute. discriminate.
Qed.

(* ================================================================== *)
(** * Target sanitation *)
(* ================================================================== *)

(** C3 (the code departs from the claim).  The target has a class 0 of
    exactly 20 rows and a class 1 of 21 rows.  The claim keeps a class of
    20 rows; [encode_target] drops it, its test being [cnts <= 20]: 21 rows
    remain, all of the one class left, encoded 0. *)
Theorem encode_target_drops_class_of_twenty :
  count_occ Z.eq_dec (repeat 0%Z 20 ++ repeat 1%Z 21)%list 0%Z = 20
  /\ values Samples.twenty_target
     = map PyInt (repeat 0%Z 20 ++ repeat 1%Z 21)%list
  /\ exists df y,
       encode_target (L := Reference.library)
         (R := Reference.identity_source) Samples.twenty_frame
         Samples.twenty_target tt
       = (inr (df, y), tt)
       /\ n_rows df = 21
       /\ values y = repeat (PyInt 0) 21.
Proof.
  split; [reflexivity|]. split; [reflexivity|].
  eexists. eexists. split; [vm_compute; reflexivity|].
  split; reflexivity.
Qed.

(* ================================================================== *)
(** * Dropping NaNs from the continuous predictors *)
(* ================================================================== *)

Lemma mask_select_length {A B : Type} (l : list A) (m : list B)
  (mask : list bool) :
  length l = length m ->
  length (mask_select l mask) = length (mask_select m mask).
Proof.
  revert m mask. induction l as [|x t IH]; intros [|y u] mask H;
    try discriminate; [reflexivity|].
  destruct mask as [|b mask]; [reflexivity|].
  simpl in *. destruct b; simpl; auto.
Qed.

Lemma mask_select_all_true {A : Type} (l : list A) (f : nat -> bool)
  (start : nat) :
  (forall i, start <= i < start + length l -> f i = true) ->
  mask_select l (map f (seq start (length l))) = l.
Proof.
  revert start. induction l as [|x t IH]; intros start H; [reflexivity|].
  cbn [length seq map mask_select]. rewrite (H start) by (simpl; lia).
  f_equal. apply IH. intros i Hi. apply H. simpl. lia.
Qed.

Lemma assoc_map_snd {A B : Type} (f : A -> B) (k : string)
  (l : list (string * A)) :
  assoc k (map (fun c => (fst c, f (snd c))) l) = option_map f (assoc k l).
Proof.
  induction l as [|[k' v] t IH]; simpl; [reflexivity|].
  destruct (String.eqb k k'); [reflexivity|exact IH].
Qed.

Lemma index_eqb_refl (a : list Z) : index_eqb a a = true.
Proof. unfold index_eqb. destruct (list_eq_dec Z.eq_dec a a); congruence. Qed.

Lemma combine_fst {A B : Type} (l : list A) (m : list B) :
  length l = length m -> map fst (combine l m) = l.
Proof.
  revert m. induction l as [|x t IH]; intros [|y u] H; try discriminate;
    [reflexivity|].
  simpl. f_equal. apply IH. simpl in H. lia.
Qed.

Lemma combine_snd {A B : Type} (l : list A) (m : list B) :
  length l = length m -> map snd (combine l m) = m.
Proof.
  revert m. induction l as [|x t IH]; intros [|y u] H; try discriminate;
    [reflexivity|].
  cbn [combine map snd]. f_equal. apply IH. now injection H.
Qed.

Lemma assoc_In_pair {A : Type} (k : string) (l : list (string * A)) (v : A) :
  assoc k l = Some v -> In (k, v) l.
Proof.
  induction l as [|[k' v'] t IH]; cbn [assoc]; [discriminate|].
  destruct (String.eqb_spec k k') as [->|Hne].
  - intros H. injection H as ->. now left.
  - intros H. right. now apply IH.
Qed.

Lemma filter_rows_names (df : DataFrame) (mask : list bool) :
  column_names (filter_rows df mask) = column_names df.
Proof.
  unfold column_names, filter_rows. simpl. rewrite map_map. reflexivity.
Qed.

Lemma filter_rows_wf (df : DataFrame) (mask : list bool) :
  wf_frame df -> wf_frame (filter_rows df mask).
Proof.
  intros H c Hc. unfold filter_rows in *. simpl in *.
  apply in_map_iff in Hc. destruct Hc as [c0 [<- Hc0]]. simpl.
  apply mask_select_length. now apply H.
Qed.

Lemma drop_ignore_wf (df : DataFrame) (names : list string) :
  wf_frame df -> wf_frame (drop_ignore df names).
Proof.
  intros H c Hc. unfold drop_ignore in *. simpl in *.
  apply filter_In in Hc. now apply H.
Qed.

Lemma dropna_columns_wf (df : DataFrame) :
  wf_frame df -> wf_frame (dropna_columns df).
Proof.
  intros H c Hc. unfold dropna_columns in *. simpl in *.
  apply filter_In in Hc. now apply H.
Qed.

(** Once the columns with a missing value are gone, no row has one:
    dropping rows changes nothing. *)
Lemma dropna_rows_after_columns (df : DataFrame) :
  wf_frame df -> dropna_rows (dropna_columns df) = dropna_columns df.
Proof.
  intros Hwf. pose proof (dropna_columns_wf df Hwf) as Hwf'.
  set (X := dropna_columns df) in *.
  assert (Hmask : forall i, i < n_rows X ->
            negb (existsb isna_cell (row_cells X i)) = true).
  { intros i Hi. apply negb_true_iff.
    destruct (existsb isna_cell (row_cells X i)) eqn:E; [|reflexivity].
    exfalso. apply existsb_exists in E. destruct E as [v [Hv Hna]].
    unfold row_cells in Hv. apply in_map_iff in Hv.
    destruct Hv as [c [<- Hc]].
    assert (Hlen : length (col_values (snd c)) = n_rows X)
      by (now apply Hwf').
    unfold X, dropna_columns in Hc. simpl in Hc. apply filter_In in Hc.
    destruct Hc as [_ Hc]. apply negb_true_iff in Hc.
    assert (Hex : existsb isna_cell (col_values (snd c)) = true);
      [|congruence].
    apply existsb_exists. exists (nth i (col_values (snd c)) NaN).
    split; [|exact Hna]. apply nth_In. lia. }
  unfold dropna_rows, filter_rows.
  destruct X as [idx cols] eqn:EX. unfold n_rows in *. simpl in *.
  f_equal.
  - apply mask_select_all_true. intros i Hi. apply Hmask. lia.
  - rewrite <- (map_id cols) at 2. apply map_ext_in.
    intros [name [d vals]] Hc. simpl. f_equal. f_equal.
    specialize (Hwf' _ Hc). simpl in Hwf'. rewrite <- Hwf'.
    apply mask_select_all_true. intros i Hi. apply Hmask. lia.
Qed.

Lemma pick_columns_names (df : DataFrame) (names : list string) :
  (forall name, In name names -> In name (column_names df)) ->
  map fst (pick_columns df names) = names.
Proof.
  unfold pick_columns. induction names as [|name t IH]; intros H;
    [reflexivity|].
  cbn [flat_map].
  destruct (assoc_In name (df_columns df) (H name (or_introl eq_refl)))
    as [c Hc].
  rewrite Hc. cbn [app map fst]. f_equal. apply IH.
  intros n Hn. apply H. now right.
Qed.

Lemma none_missing (df : DataFrame) (names : list string) :
  filter (fun name => negb (str_in name (column_names df))) names = []
  <-> forall name, In name names -> In name (column_names df).
Proof.
  split.
  - intros Hnil name Hin.
    destruct (str_in name (column_names df)) eqn:E;
      [now apply str_in_In|].
    assert (Hf : In name
              (filter (fun name => negb (str_in name (column_names df)))
                 names)).
    { apply filter_In. split; [exact Hin|]. now rewrite E. }
    rewrite Hnil in Hf. destruct Hf.
  - intros H.
    destruct (filter _ names) as [|name t] eqn:E; [reflexivity|].
    assert (Hf : In name
              (filter (fun name => negb (str_in name (column_names df)))
                 names)) by (rewrite E; now left).
    apply filter_In in Hf. destruct Hf as [Hin Hk].
    apply H, str_in_In in Hin. rewrite Hin in Hk. discriminate.
Qed.

(** The alternatives to dropping are the other three strategies, each
    once, whatever the order of the members. *)
Lemma alternatives_permutation (members : list NanHandling) :
  NoDup members ->
  (forall na, In na members) ->
  Permutation (filter (fun na => negb (is_Drop na)) members)
    [Mean; Median; Impute].
Proof.
  intros Hnd Hall. apply NoDup_Permutation.
  - now apply NoDup_filter.
  - constructor; [intros [H|[H|[]]]; discriminate|].
    constructor; [intros [H|[]]; discriminate|].
    constructor; [intros []|constructor].
  - intros na. rewrite filter_In. split.
    + intros [_ H]. destruct na; cbn in *; try discriminate; tauto.
    + intros H. split; [apply Hall|].
      destruct H as [<-|[<-|[<-|[]]]]; reflexivity.
Qed.

Section DropClaim.
Context {L : Library} {R : RandomSource}.
Variable NanHandling_members : list NanHandling.
Variable NanHandling_value : NanHandling -> string.
Variable sklearn_impute : NanHandling -> DataFrame -> M DataFrame.
Variable setitem_realigned : DataFrame -> string -> Series -> M DataFrame.
Variable concat_realigned : DataFrame -> DataFrame -> M DataFrame.

Lemma select_columns_run (df : DataFrame) (names : list string) (g : rng) :
  (forall name, In name names -> In name (column_names df)) ->
  select_columns df names g
  = (inr (mkFrame (df_index df) (pick_columns df names)), g).
Proof.
  intros H. unfold select_columns.
  now rewrite (proj2 (none_missing df names) H).
Qed.

(** C9.  With the drop strategy, on a well-formed frame that holds the
    target and the categorical columns, the members of [NanHandling]
    being listed once each: when dropping the columns with a missing
    value and then the rows with one leaves the continuous predictors
    without rows or without columns, [handle_continuous_nans] raises the
    [RuntimeError] whose message ends with the list of the values of the
    three other strategies; otherwise it returns the frame made of the
    categorical columns, the continuous columns without missing values
    and the target, on the rows whose target is not missing. *)
Theorem handle_continuous_nans_drop (df : DataFrame) (target : string)
  (cat_cols : list string) (g : rng) :
  wf_frame df ->
  In target (column_names df) ->
  (forall name, In name cat_cols -> In name (column_names df)) ->
  NoDup NanHandling_members ->
  (forall na, In na NanHandling_members) ->
  let kept := rows_with_target df target in
  let X_clean :=
    dropna_rows (dropna_columns (drop_ignore kept (cat_cols ++ [target]))) in
  let others :=
    map NanHandling_value
      (filter (fun na => negb (is_Drop na)) NanHandling_members) in
  Permutation others
    [NanHandling_value Mean; NanHandling_value Median;
     NanHandling_value Impute]
  /\ (n_rows X_clean = 0 \/ n_cols X_clean = 0 ->
      handle_continuous_nans NanHandling_members NanHandling_value
        sklearn_impute setitem_realigned concat_realigned df target cat_cols
        Drop g
      = (inl (RuntimeError
                ("Dropping NaNs resulted in either no remaining samples or "
                   ++ "features. Consider changing the option `--nan` to "
                   ++ "another valid option. Other valid options: "
                   ++ str_of_list others)), g))
  /\ (n_rows X_clean <> 0 -> n_cols X_clean <> 0 ->
      exists out,
        handle_continuous_nans NanHandling_members NanHandling_value
          sklearn_impute setitem_realigned concat_realigned df target
          cat_cols Drop g = (inr out, g)
        /\ df_index out = df_index kept
        /\ column_names out
           = (cat_cols ++ column_names X_clean ++ [target])%list
        /\ df_columns out
           = (pick_columns kept cat_cols ++ df_columns X_clean
                ++ pick_columns kept [target])%list).
Proof.
  intros Hwf Htarget Hcats Hnd Hall kept X_clean others.
  split.
  { apply (Permutation_map NanHandling_value
             (alternatives_permutation NanHandling_members Hnd Hall)). }
  destruct (assoc_In target (df_columns df) Htarget) as [ct Hct].
  assert (Ekept : kept
            = filter_rows df (map negb (isna (series_of_column df ct)))).
  { unfold kept, rows_with_target. now rewrite Hct. }
  assert (Hwfk : wf_frame kept) by (rewrite Ekept; now apply filter_rows_wf).
  assert (Hnames : column_names kept = column_names df)
    by (rewrite Ekept; apply filter_rows_names).
  assert (Hsel : select_columns kept cat_cols g
                 = (inr (mkFrame (df_index kept)
                           (pick_columns kept cat_cols)), g)).
  { apply select_columns_run. intros name Hin. rewrite Hnames.
    now apply Hcats. }
  assert (Hcn : map fst (pick_columns kept cat_cols) = cat_cols).
  { apply pick_columns_names. intros name Hin. rewrite Hnames.
    now apply Hcats. }
  destruct (assoc_In target (df_columns kept)) as [cy Hcy].
  { fold (column_names kept). now rewrite Hnames. }
  assert (Hrun :
    handle_continuous_nans NanHandling_members NanHandling_value
     sklearn_impute setitem_realigned concat_realigned df target cat_cols Drop g
    = bind
        (if (n_rows X_clean =? 0)%nat || (n_cols X_clean =? 0)%nat
         then raise (RuntimeError
                       (exhaustion_message NanHandling_members
                          NanHandling_value))
         else ret X_clean)
        (fun X_clean =>
           bind (setitem setitem_realigned X_clean target
                   (series_of_column kept cy))
                (fun X_clean => concat_columns concat_realigned
                                  (mkFrame (df_index kept)
                                     (pick_columns kept cat_cols)) X_clean))
        g).
  { unfold handle_continuous_nans.
    unfold getitem at 1. rewrite Hct.
    rewrite (bind_run _ _ g g (series_of_column df ct)) by reflexivity.
    rewrite <- Ekept.
    rewrite (bind_run _ _ _ _ _ Hsel).
    unfold getitem. rewrite Hcy.
    rewrite (bind_run _ _ g g (series_of_column kept cy)) by reflexivity.
    reflexivity. }
  split.
  - intros Hex. rewrite Hrun.
    assert (E : (n_rows X_clean =? 0)%nat || (n_cols X_clean =? 0)%nat = true).
    { apply orb_true_iff. destruct Hex as [H|H]; [left|right];
        now apply Nat.eqb_eq. }
    rewrite E. reflexivity.
  - intros Hr Hc. rewrite Hrun.
    apply Nat.eqb_neq in Hr, Hc. rewrite Hr, Hc. cbn [orb].
    rewrite (bind_run _ _ g g X_clean) by reflexivity.
    assert (EX : X_clean
              = dropna_columns (drop_ignore kept (cat_cols ++ [target]))).
    { unfold X_clean. apply dropna_rows_after_columns.
      now apply drop_ignore_wf. }
    assert (Eidx : df_index X_clean = df_index kept) by (now rewrite EX).
    assert (Ey : index (series_of_column kept cy) = df_index kept).
    { unfold index, series_of_column. simpl. apply combine_fst.
      symmetry. apply (Hwfk (target, cy)).
      clear - Hcy. induction (df_columns kept) as [|[k v] t IH];
        [discriminate|].
      simpl in Hcy. destruct (String.eqb_spec target k) as [->|Hne].
      - injection Hcy as ->. now left.
      - right. now apply IH. }
    assert (Hvy : values (series_of_column kept cy) = col_values cy).
    { unfold values, series_of_column. cbn [rows]. apply combine_snd.
      symmetry. apply (Hwfk (target, cy)). now apply assoc_In_pair. }
    assert (Hnot : str_in target (column_names X_clean) = false).
    { destruct (str_in target (column_names X_clean)) eqn:E; [|reflexivity].
      exfalso. apply str_in_In in E. rewrite EX in E.
      unfold column_names, dropna_columns, drop_ignore in E. simpl in E.
      apply in_map_iff in E. destruct E as [c [Hn Hc']].
      apply filter_In in Hc'. destruct Hc' as [Hc' _].
      apply filter_In in Hc'. destruct Hc' as [_ Hc'].
      apply negb_true_iff in Hc'.
      assert (str_in (fst c) (cat_cols ++ [target]) = true); [|congruence].
      apply str_in_In. rewrite Hn. apply in_or_app. right. now left. }
    unfold setitem. rewrite Eidx, Ey, index_eqb_refl, Hnot.
    rewrite (bind_run _ _ g g
               (mkFrame (df_index kept)
                  (df_columns X_clean
                     ++ [(target,
                          mkColumn (dtype (series_of_column kept cy))
                            (values (series_of_column kept cy)))])%list))
      by reflexivity.
    unfold concat_columns. cbn [df_index]. rewrite index_eqb_refl.
    eexists. split; [reflexivity|]. split; [reflexivity|].
    split.
    + unfold column_names. cbn [df_columns].
      rewrite !map_app, Hcn. reflexivity.
    + cbn [df_columns]. do 2 f_equal.
      unfold pick_columns. cbn [flat_map]. rewrite Hcy, app_nil_r.
      rewrite Hvy. unfold series_of_column. cbn [dtype].
      now destruct cy.
Qed.

End DropClaim.

Lemma handle_continuous_nans_drop_witness :
  let df := Samples.exhausted_frame in
  wf_frame df
  /\ In "y" (column_names df)
  /\ (forall name, In name ["c"] -> In name (column_names df))
  /\ NoDup Samples.members
  /\ (forall na, In na Samples.members)
  /\ n_cols
       (dropna_rows
          (dropna_columns
             (drop_ignore (rows_with_target df "y") (["c"] ++ ["y"])%list)))
     = 0
  /\ handle_continuous_nans (L := Reference.library)
       (R := Reference.identity_source) Samples.members Samples.member_value
       Samples.no_impute Samples.no_setitem Samples.no_concat df "y" ["c"]
       Drop tt
     = (inl (RuntimeError
               ("Dropping NaNs resulted in either no remaining samples or "
                  ++ "features. Consider changing the option `--nan` to "
                  ++ "another valid option. Other valid options: "
                  ++ "['mean', 'median', 'impute']")), tt).
Proof.
  cbv zeta.
  assert (Hwf : wf_frame Samples.exhausted_frame).
  { intros c [<-|[<-|[<-|[]]]]; reflexivity. }
  assert (Hy : In "y" (column_names Samples.exhausted_frame))
    by (simpl; auto).
  assert (Hc : forall name, In name ["c"] ->
                 In name (column_names Samples.exhausted_frame)).
  { intros name [<-|[]]. simpl. auto. }
  assert (Hnd : NoDup Samples.members).
  { constructor; [intros [H|[H|[H|[]]]]; discriminate|].
    constructor; [intros [H|[H|[]]]; discriminate|].
    constructor; [intros [H|[]]; discriminate|].
    constructor; [intros []|constructor]. }
  assert (Hall : forall na, In na Samples.members).
  { intros na. destruct na; cbn; tauto. }
  assert (Hcols :
    n_cols
      (dropna_rows
         (dropna_columns
            (drop_ignore (rows_with_target Samples.exhausted_frame "y")
               (["c"] ++ ["y"])%list))) = 0) by reflexivity.
  refine (conj Hwf (conj Hy (conj Hc (conj Hnd (conj Hall (conj Hcols _)))))).
  apply (proj1 (proj2 (handle_continuous_nans_drop (L := Reference.library)
                  (R := Reference.identity_source) Samples.members
                  Samples.member_value Samples.no_impute Samples.no_setitem
                  Samples.no_concat Samples.exhausted_frame "y" ["c"] tt
                  Hwf Hy Hc Hnd Hall))).
  right. exact Hcols.
Defined.

(** The message of the exhausted frame, and the frame returned when a
    complete continuous column remains. *)
Example handle_continuous_nans_runs :
  exhaustion_message (L := Reference.library) Samples.members
    Samples.member_value
  = "Dropping NaNs resulted in either no remaining samples or features. Consider changing the option `--nan` to another valid option. Other valid options: ['mean', 'median', 'impute']"
  /\ handle_continuous_nans (L := Reference.library)
       (R := Reference.identity_source) Samples.members Samples.member_value
       Samples.no_impute Samples.no_setitem Samples.no_concat
       Samples.nan_frame "y" ["c"] Drop tt
     = (inr (mkFrame [0; 2]%Z
               [("c", Samples.text_column ["u"; "u"]);
                ("b", Samples.int_column [4; 6]%Z);
                ("y", mkColumn DFloat [PyInt 0; PyInt 1])]), tt).
Proof. split; vm_compute; reflexivity. Qed.

(* ================================================================== *)
(** * Further properties of the ordinal and constant checks *)
(* ================================================================== *)

Lemma prob_factor_range (m i : Z) :
  (1 <= i < m)%Z ->
  (0 < inject_Z (m - i) / inject_Z m)%Q
  /\ (inject_Z (m - i) / inject_Z m <= 1)%Q.
Proof.
  intros H. destruct m as [|p|p]; try lia.
  remember (Z.pos p - i)%Z as d eqn:Ed.
  assert (Hd : (0 < d <= Z.pos p)%Z) by lia. clear Ed H.
  unfold Qdiv, Qinv, Qmult, Qlt, Qle, inject_Z. cbn.
  rewrite !Z.mul_1_r. split; lia.
Qed.

Lemma prob_fold_range (m : Z) (l : list Z) (p : Q) :
  (forall i, In i l -> (1 <= i < m)%Z) ->
  (0 < p)%Q -> (p <= 1)%Q ->
  let r :=
    fold_left
      (fun p i => (p * (inject_Z (m - i) / inject_Z m))%Q) l p in
  (0 < r)%Q /\ (r <= 1)%Q.
Proof.
  revert p. induction l as [|i t IH]; intros p Hl Hp0 Hp1; cbn [fold_left].
  - split; assumption.
  - destruct (prob_factor_range m i (Hl i (or_introl eq_refl))) as [F0 F1].
    apply IH.
    + intros j Hj. apply Hl. now right.
    + rewrite <- (Qmult_0_l (inject_Z (m - i) / inject_Z m)).
      apply Qmult_lt_compat_r; assumption.
    + rewrite <- (Qmult_1_l 1).
      apply Qmult_le_compat_nonneg; split;
        try assumption; now apply Qlt_le_weak.
Qed.

(** X1.  [prob_unq_ordinals] returns a probability, a number between 0
    and 1, that does not grow with the number of samples. *)
Theorem prob_unq_ordinals_range (n m : Z) :
  (0 <= prob_unq_ordinals n m)%Q
  /\ (prob_unq_ordinals n m <= 1)%Q
  /\ (prob_unq_ordinals (n + 1) m <= prob_unq_ordinals n m)%Q.
Proof.
  assert (Hrange : forall k,
            (0 <= prob_unq_ordinals k m)%Q /\ (prob_unq_ordinals k m <= 1)%Q).
  { intros k. unfold prob_unq_ordinals.
    destruct (Z.gtb_spec k m) as [Hgt|Hle].
    - split; [apply Qle_refl|discriminate].
    - destruct (prob_fold_range m (py_range 1 (k - 1)) 1%Q) as [H0 H1].
      + intros i Hi. unfold py_range in Hi. apply in_map_iff in Hi.
        destruct Hi as [j [<- Hj]]. apply in_seq in Hj. lia.
      + reflexivity.
      + apply Qle_refl.
      + split; [now apply Qlt_le_weak|exact H1]. }
  destruct (Hrange n) as [H0 H1]. split; [exact H0|]. split; [exact H1|].
  revert H0. unfold prob_unq_ordinals.
  destruct (Z.gtb_spec (n + 1) m) as [Hgt|Hle]; [auto|].
  destruct (Z.gtb_spec n m) as [Hgt'|_]; [lia|].
  replace (n + 1 - 1)%Z with n by lia.
  destruct (Z_le_gt_dec n 1) as [Hsmall|Hbig].
  - unfold py_range.
    replace (Z.to_nat (n - 1)) with 0 by lia.
    replace (Z.to_nat (n - 1 - 1)) with 0 by lia.
    intros _. apply Qle_refl.
  - unfold py_range.
    replace (Z.to_nat (n - 1)) with (S (Z.to_nat (n - 1 - 1))) by lia.
    rewrite seq_S, map_app, fold_left_app. cbn [map fold_left Nat.add].
    set (p := fold_left _ _ 1%Q). intros Hp.
    destruct (prob_factor_range m (1 + Z.of_nat (Z.to_nat (n - 1 - 1))))
      as [F0 F1]; [lia|].
    rewrite <- (Qmult_1_r p) at 2.
    apply Qmult_le_compat_nonneg; split;
      [exact Hp|apply Qle_refl|now apply Qlt_le_weak|exact F1].
Qed.



Section OrdinalMore.
Context {L : Library}.



End OrdinalMore.




(* ================================================================== *)
(** * Further properties of the column descriptions *)
(* ================================================================== *)

Lemma np_unique_length_one {A : Type} (eq_dec : forall x y : A, {x = y} + {x <> y})
  (leb : A -> A -> bool) (l : list A) :
  length (np_unique eq_dec leb l) = 1
  <-> exists d, l <> [] /\ forall x, In x l -> x = d.
Proof.
  split.
  - intros H.
    destruct (np_unique eq_dec leb l) as [|d [|? ?]] eqn:E; try discriminate.
    exists d. split.
    + intros ->. discriminate.
    + intros x Hx. apply (np_unique_In eq_dec leb) in Hx.
      rewrite E in Hx. destruct Hx as [<-|[]]. reflexivity.
  - intros [d [Hne Hall]].
    rewrite (nodup_length_one (np_unique eq_dec leb l) d).
    + reflexivity.
    + apply np_unique_NoDup.
    + intros E. apply np_unique_nil in E. contradiction.
    + intros x Hx. apply Hall. now apply np_unique_In in Hx.
Qed.

Section DescriptionFacts.
Context {L : Library} {R : RandomSource}.

(** X4.  [looks_constant] answers yes exactly for a column with at least
    one row whose values, missing ones included, all read the same as
    text; a column without rows is not constant. *)
Theorem looks_constant_iff (series : Series) :
  (fst (looks_constant series) = true
   <-> exists v, values series <> []
                 /\ forall x, In x (values series) -> py_str x = v)
  /\ (values series = [] -> fst (looks_constant series) = false).
Proof.
  assert (Hiff : fst (looks_constant series) = true
     <-> exists v, values series <> []
                   /\ forall x, In x (values series) -> py_str x = v).
  { unfold looks_constant. rewrite str_values_astype_str.
    unfold str_values.
    destruct (Nat.eqb_spec
      (length (np_unique string_dec String.leb (map py_str (values series))))
      1) as [E|E]; cbn [fst].
    - apply np_unique_length_one in E. destruct E as [v [Hne Hall]].
      split; [intros _|reflexivity]. exists v. split.
      + intros Hnil. apply Hne. now rewrite Hnil.
      + intros x Hx. apply Hall. now apply in_map.
    - split; [discriminate|]. intros [v [Hne Hall]]. exfalso. apply E.
      apply np_unique_length_one. exists v. split.
      + intros Hnil. apply map_eq_nil in Hnil. contradiction.
      + intros s Hs. apply in_map_iff in Hs. destruct Hs as [x [<- Hx]].
        now apply Hall. }
  split; [exact Hiff|].
  intros Hnil. apply not_true_is_false. intros E.
  apply Hiff in E. destruct E as [v [Hne _]]. contradiction.
Qed.

Lemma floatlike_not_ordinal (series : Series) :
  fst (looks_floatlike series) = true -> fst (looks_ordinal series) = false.
Proof.
  unfold looks_floatlike.
  destruct (converts_to_int series); [discriminate|].
  destruct (fst (looks_ordinal series)); [discriminate|reflexivity].
Qed.

Lemma id_like_not_floatlike (series : Series) (g g' : rng) (reason : string) :
  looks_id_like series g = (inr (true, reason), g') ->
  fst (looks_floatlike series) = false.
Proof.
  unfold looks_id_like.
  destruct (fst (looks_floatlike series)); [discriminate|reflexivity].
Qed.

(** X5.  A description that [inspect_str_column] returns records at most
    one of the constant, time, float, identifier and categorical reasons,
    and the ordinal reason goes with none of constant, time and float:
    only an identifier or a categorical column can be ordinal too. *)
Theorem inspect_str_column_exclusive (name : string) (series : Series)
  (cats ords : list string) (g g' : rng) (d : ColumnDescriptions) :
  inspect_str_column name series cats ords g = (inr (inl d), g') ->
  n_recorded
    [desc_const d; desc_time d; desc_float d; desc_id d; desc_cat d] <= 1
  /\ (is_some (desc_ord d) = true ->
      n_recorded [desc_const d; desc_time d; desc_float d] = 0).
Proof.
  unfold inspect_str_column, try_except, bind, ret.
  destruct (looks_constant series) as [[|] dc].
  { intros H. injection H as <- _. cbn. split; [lia|discriminate]. }
  destruct (looks_timelike series g) as [[e|[[|] dt]] g1].
  { discriminate. }
  { intros H. injection H as <- _. cbn. split; [lia|discriminate]. }
  pose proof (floatlike_not_ordinal series) as Hfo.
  destruct (looks_ordinal series) as [maybe_ord dord].
  pose proof (id_like_not_floatlike series g1) as Hif.
  destruct (looks_id_like series g1) as [[e|[maybe_id did]] g2].
  { discriminate. }
  destruct (looks_floatlike series) as [maybe_float dfl].
  cbn [fst] in Hfo, Hif.
  destruct maybe_float.
  { specialize (Hfo eq_refl). subst maybe_ord.
    destruct maybe_id; [specialize (Hif _ _ eq_refl); discriminate|].
    cbn. intros H. injection H as <- _. cbn. split; [lia|discriminate]. }
  destruct maybe_id.
  { cbn. intros H. injection H as <- _. cbn. split; [lia|reflexivity]. }
  cbn [orb].
  destruct (looks_categorical series g2) as [[e|[maybe_cat dcat]] g3].
  { discriminate. }
  intros H. injection H as <- _. cbn.
  destruct (maybe_cat && _); cbn; split; try lia; reflexivity.
Qed.

(** X6.  [looks_categorical], when it returns, answers yes exactly when
    the column is not float-like and neither its own time check nor its
    own identifier check fires; whether the column converts to int or
    looks ordinal only changes the reason. *)
Theorem looks_categorical_verdict (series : Series) (g g' : rng)
  (b : bool) (reason : string) :
  looks_categorical series g = (inr (b, reason), g') ->
  b = true
  <-> fst (looks_floatlike series) = false
      /\ verdict (looks_timelike series g) = Some false
      /\ verdict (looks_id_like series (snd (looks_timelike series g)))
         = Some false.
Proof.
  unfold looks_categorical, bind, ret, verdict.
  destruct (fst (looks_floatlike series)).
  { intros H. injection H as <- _ _. split; [discriminate|].
    intros [H _]. discriminate. }
  destruct (looks_timelike series g) as [[e|[bt rt]] g1]; [discriminate|].
  cbn [fst snd]. destruct bt.
  { intros H. injection H as <- _ _. split; [discriminate|].
    intros [_ [H _]]. discriminate. }
  destruct (looks_id_like series g1) as [[e|[bi ri]] g2]; [discriminate|].
  cbn [fst]. destruct bi.
  { intros H. injection H as <- _ _. split; [discriminate|].
    intros [_ [_ H]]. discriminate. }
  destruct (negb (converts_to_int series));
    [|destruct (negb (fst (looks_ordinal series)))];
    intros H; injection H as <- _ _; split; auto.
Qed.

End DescriptionFacts.

Lemma inspect_str_column_exclusive_witness :
  let series := series_of DObject (map PyStr ["0"; "1"; "0"; "1"; "0"]) in
  exists d,
    inspect_str_column (L := Reference.library)
      (R := Reference.identity_source) "x" series [] [] tt
    = (inr (inl d), tt)
    /\ n_recorded
         [desc_const d; desc_time d; desc_float d; desc_id d; desc_cat d] <= 1
    /\ (is_some (desc_ord d) = true ->
        n_recorded [desc_const d; desc_time d; desc_float d] = 0).
Proof.
  cbv zeta. eexists.
  refine ((fun H =>
    conj H
      (inspect_str_column_exclusive (L := Reference.library)
         (R := Reference.identity_source) _ _ _ _ _ _ _ H)) _).
  vm_compute. reflexivity.
Defined.

Lemma looks_categorical_verdict_witness :
  let series := series_of DObject (map PyStr ["u"; "v"; "u"; "v"; "u"]) in
  looks_categorical (L := Reference.library)
    (R := Reference.identity_source) series tt
  = (inr (true, "String data"), tt)
  /\ (true = true
      <-> fst (looks_floatlike (L := Reference.library) series) = false
          /\ verdict (looks_timelike (L := Reference.library)
                        (R := Reference.identity_source) series tt)
             = Some false
          /\ verdict
               (looks_id_like (L := Reference.library)
                  (R := Reference.identity_source) series
                  (snd (looks_timelike (L := Reference.library)
                          (R := Reference.identity_source) series tt)))
             = Some false).
Proof.
  cbv zeta.
  refine ((fun H =>
    conj H
      (looks_categorical_verdict (L := Reference.library)
         (R := Reference.identity_source) _ _ _ _ _ H)) _).
  vm_compute. reflexivity.
Defined.

(* ================================================================== *)
(** * Further properties of [inspect_str_columns] and the time check *)
(* ================================================================== *)

Section ColumnsFacts.
Context {L : Library} {R : RandomSource}.

Lemma collect_descs_inv (l : list (ColumnDescriptions + string * exn))
  (acc infos : Infos) (g g' : rng) :
  collect_descs l acc g = (inr infos, g') ->
  exists ds,
    l = map inl ds /\ infos = fold_left record_desc ds acc /\ g' = g.
Proof.
  revert acc. induction l as [|[d|[name e]] t IH]; intros acc H.
  - injection H as <- <-. now exists [].
  - cbn [collect_descs] in H. destruct (IH _ H) as [ds [-> [-> ->]]].
    now exists (d :: ds).
  - discriminate.
Qed.

Lemma collect_descs_first_failure (ds : list ColumnDescriptions)
  (name : string) (e : exn) (rest : list (ColumnDescriptions + string * exn))
  (acc : Infos) (g : rng) :
  collect_descs (map inl ds ++ inr (name, e) :: rest)%list acc g
  = (inl (InspectionError
            ("Could not interpret data in feature " ++ name
               ++ ". Additional information should be above.")
            e), g).
Proof.
  revert acc. induction ds as [|d t IH]; intros acc; [reflexivity|].
  cbn [map app collect_descs]. apply IH.
Qed.

Lemma inspect_str_columns_keys (df : DataFrame)
  (str_cols categoricals ordinals : list string) (g g' : rng)
  (infos : Infos) (name : string) :
  inspect_str_columns df str_cols categoricals ordinals g
  = (inr infos, g') ->
  In name (dict_keys (descs (ord_info infos)))
  \/ In name (dict_keys (descs (cat_info infos))) ->
  In name str_cols /\ ~ In name ordinals /\ ~ In name categoricals.
Proof.
  intros Hrun Hin. unfold inspect_str_columns in Hrun.
  apply bind_inv in Hrun. destruct Hrun as [l [g1 [Hd Hc]]].
  apply collect_descs_inv in Hc. destruct Hc as [ds [-> [-> _]]].
  apply describe_columns_names in Hd. destruct Hd as [Hnames Hund].
  assert (Hd : exists d, In d ds /\ desc_col d = name
                 /\ (is_some (desc_ord d) = true
                     \/ is_some (desc_cat d) = true)).
  { destruct Hin as [Hin|Hin].
    - apply record_desc_ord_keys in Hin. destruct Hin as [[]|[d [H1 [H2 H3]]]].
      exists d. auto.
    - apply record_desc_cat_keys in Hin. destruct Hin as [[]|[d [H1 [H2 H3]]]].
      exists d. auto. }
  destruct Hd as [d [Hd [Hname Hset]]].
  destruct (Hund d Hd Hset) as [Ho Hc]. rewrite Hname in Ho, Hc.
  split; [|split; assumption].
  rewrite <- Hnames, <- Hname. now apply in_map.
Qed.

Lemma mapM_inv {A B : Type} (f : A -> M B) (l : list A) (g g' : rng)
  (ys : list B) :
  mapM f l g = (inr ys, g') ->
  Forall2 (fun x y => exists ga gb, f x ga = (inr y, gb)) l ys.
Proof.
  revert g g' ys. induction l as [|x t IH]; intros g g' ys H.
  - injection H as <- _. constructor.
  - cbn [mapM] in H. apply bind_inv in H. destruct H as [y [g1 [Hy H]]].
    apply bind_inv in H. destruct H as [ys' [g2 [Ht H]]].
    injection H as <- _. constructor; [now exists g, g1|].
    now apply (IH g1 g2).
Qed.

Lemma inspect_str_column_failed_name (col : string) (series : Series)
  (cats ords : list string) (g g' : rng) (name : string) (e : exn) :
  inspect_str_column col series cats ords g = (inr (inr (name, e)), g') ->
  name = col.
Proof.
  unfold inspect_str_column, try_except, bind, ret.
  destruct (looks_constant series) as [[|] dc]; [discriminate|].
  destruct (looks_timelike series g) as [[e1|[[|] dt]] g1];
    [intros H; now injection H as <- _ _|discriminate|].
  destruct (looks_ordinal series) as [maybe_ord dord].
  destruct (looks_id_like series g1) as [[e2|[maybe_id did]] g2];
    [intros H; now injection H as <- _ _|].
  destruct (looks_floatlike series) as [maybe_float dfl].
  destruct (maybe_float || maybe_id || false); [discriminate|].
  destruct (looks_categorical series g2) as [[e3|[maybe_cat dcat]] g3];
    [intros H; now injection H as <- _ _|discriminate].
Qed.

(** X8.  When the inspection of a column fails, [inspect_str_columns]
    raises an [InspectionError] that names the first such column of
    [str_cols] and carries its exception; what the columns behind it
    returned, failures too, is dropped. *)
Theorem inspect_str_columns_first_failure (df : DataFrame)
  (str_cols categoricals ordinals : list string) (g g' : rng)
  (ds : list ColumnDescriptions) (name : string) (e : exn)
  (rest : list (ColumnDescriptions + string * exn)) :
  describe_columns df str_cols categoricals ordinals g
  = (inr (map inl ds ++ inr (name, e) :: rest)%list, g') ->
  inspect_str_columns df str_cols categoricals ordinals g
  = (inl (InspectionError
            ("Could not interpret data in feature " ++ name
               ++ ". Additional information should be above.")
            e), g')
  /\ nth_error str_cols (length ds) = Some name.
Proof.
  intros Hd. split.
  - unfold inspect_str_columns. rewrite (bind_run _ _ _ _ _ Hd).
    apply collect_descs_first_failure.
  - unfold describe_columns in Hd. apply mapM_inv in Hd.
    apply Forall2_app_inv_r in Hd.
    destruct Hd as [l1 [l2 [H1 [H2 ->]]]].
    inversion H2 as [|x y l2' rest' Hx _]; subst.
    destruct Hx as [ga [gb Hx]].
    assert (Hname : name = x).
    { unfold bind, getitem in Hx.
      destruct (assoc x (df_columns df)) as [c|]; [|discriminate].
      cbn in Hx. now apply inspect_str_column_failed_name in Hx. }
    subst x. apply Forall2_length in H1. rewrite length_map in H1.
    rewrite <- H1, nth_error_app2, Nat.sub_diag; [reflexivity|lia].
Qed.

End ColumnsFacts.

Lemma inspect_str_columns_first_failure_witness :
  inspect_str_columns (L := Reference.library)
    (R := Reference.identity_source) Samples.mixed_frame ["x"; "m"] [] [] tt
  = (inl (InspectionError
            ("Could not interpret data in feature " ++ "m"
               ++ ". Additional information should be above.")
            (TypeError "values of the column cannot be ordered")), tt)
  /\ nth_error ["x"; "m"] 1 = Some "m".
Proof.
  apply (inspect_str_columns_first_failure (L := Reference.library)
           (R := Reference.identity_source) Samples.mixed_frame
           ["x"; "m"] [] [] tt tt
           [mkDescriptions "x" None None None None None (Some "String data")]
           "m" (TypeError "values of the column cannot be ordered") []).
  vm_compute. reflexivity.
Defined.

Lemma looks_timelike_default_index_witness :
  let column :=
    series_of DObject [PyStr "2021-03-04"; PyStr "x"; PyStr "2021-03-05"] in
  default_index column
  /\ converts_to_int (L := Reference.library) column = false
  /\ converts_to_float (L := Reference.library) column = false
  /\ ~ well_sampled (L := Reference.library) column
  /\ exists b,
       verdict (looks_timelike (L := Reference.library)
                  (R := Reference.identity_source) column tt) = Some b
       /\ (b = true
           <-> length (drawn (R := Reference.identity_source) column tt)
               < 2 * n_parsed (L := Reference.library) column
                       (drawn (R := Reference.identity_source) column tt)).
Proof.
  cbv zeta.
  set (column :=
    series_of DObject [PyStr "2021-03-04"; PyStr "x"; PyStr "2021-03-05"]).
  assert (Hd : default_index column) by reflexivity.
  assert (Hint : converts_to_int (L := Reference.library) column = false)
    by reflexivity.
  assert (Hfloat : converts_to_float (L := Reference.library) column = false)
    by reflexivity.
  assert (Hws : ~ well_sampled (L := Reference.library) column).
  { intros H. specialize (H "x" (or_intror (or_introl eq_refl))).
    vm_compute in H. lia. }
  exact (conj Hd (conj Hint (conj Hfloat (conj Hws
           (looks_timelike_default_index (L := Reference.library)
              (R := Reference.identity_source) column tt
              Hd Hint Hfloat Hws))))).
Defined.

Lemma filter_label_nil (rs : list (Z * cell)) (z : Z) :
  filter (fun r => Z.eqb (fst r) z) rs = []
  <-> existsb (fun l => Z.eqb l z) (map fst rs) = false.
Proof.
  induction rs as [|[l c] t IH]; cbn [filter map existsb fst];
    [tauto|].
  destruct (Z.eqb l z); cbn [orb]; [split; discriminate|exact IH].
Qed.

Section TimeLabels.
Context {L : Library} {R : RandomSource}.

(** [series.loc[idx]] fails exactly when a number of [idx] is no label,
    and then with all the numbers that are none. *)
Lemma loc_rows_missing (s : Series) (idx : list nat) :
  (missing_labels s idx = [] -> exists rs, loc_rows s idx = inr rs)
  /\ (missing_labels s idx <> [] ->
      loc_rows s idx = inl (missing_labels s idx)).
Proof.
  unfold missing_labels, index.
  induction idx as [|i t [IH1 IH2]]; cbn [filter loc_rows].
  - split; [intros _; now exists []|congruence].
  - destruct (filter (fun r => Z.eqb (fst r) (Z.of_nat i)) (rows s))
      as [|r found] eqn:Ef.
    + apply filter_label_nil in Ef. rewrite Ef. cbn [negb].
      split; [discriminate|]. intros _.
      destruct (filter _ t) as [|m ms] eqn:Em.
      * destruct (IH1 eq_refl) as [rs ->]. reflexivity.
      * rewrite IH2 by discriminate. reflexivity.
    + assert (Ex : existsb (fun l => Z.eqb l (Z.of_nat i))
                     (map fst (rows s)) = true).
      { destruct (existsb _ (map fst (rows s))) eqn:E; [reflexivity|].
        apply filter_label_nil in E. congruence. }
      rewrite Ex. cbn [negb]. split.
      * intros Hnil. destruct (IH1 Hnil) as [rs ->]. eexists. reflexivity.
      * intros Hne. now rewrite (IH2 Hne).
Qed.

(** X10.  Off the default index the time check can raise: when more than
    a third but not all of the drawn rows parse as a date, the rows are
    read a second time by label, and if some drawn positions are no label
    of the column, this is the [KeyError] that pandas words for all of
    them. *)
Theorem looks_timelike_missing_label (series : Series) (g : rng) :
  converts_to_int series = false ->
  converts_to_float series = false ->
  ~ well_sampled series ->
  parse_error series (drawn series g) = None ->
  length (drawn series g) < 3 * n_parsed series (drawn series g) ->
  n_parsed series (drawn series g) < length (drawn series g) ->
  missing_labels series (drawn series g) <> [] ->
  looks_timelike series g
  = (inl (KeyError
            (missing_labels_text (drawn series g)
               (missing_labels series (drawn series g)))),
     snd (permutation g (len series))).
Proof.
  intros Hint Hfloat Hws Hparse Hthird Hall Hmiss.
  rewrite (looks_timelike_sampled series g Hint Hfloat Hws). cbv zeta.
  rewrite Hparse.
  assert (Hpos : 0 < length (drawn series g)) by lia.
  pose proof (ratio_le_one_iff 1 (n_parsed series (drawn series g))
                (length (drawn series g)) Hpos) as H1.
  pose proof (ratio_lt_iff (1 / 3) (n_parsed series (drawn series g))
                (length (drawn series g)) Hpos) as H3.
  change (Qnum (1 / 3)) with 1%Z in H3.
  change (Qden (1 / 3)) with 3%positive in H3.
  change (Qnum 1) with 1%Z in H1. change (Qden 1) with 1%positive in H1.
  destruct (Qle_bool 1 _).
  { destruct H1 as [H1 _]. specialize (H1 eq_refl). lia. }
  destruct (Qlt_bool (1 / 3) _).
  - assert (Em : missing_labels (astype_str series) (drawn series g)
                 = missing_labels series (drawn series g)).
    { unfold missing_labels, index, astype_str. cbn [rows].
      now rewrite map_map. }
    rewrite (proj2 (loc_rows_missing (astype_str series) (drawn series g)))
      by (rewrite Em; exact Hmiss).
    now rewrite Em.
  - destruct H3 as [_ H3]. assert (false = true) by (apply H3; lia).
    discriminate.
Qed.

End TimeLabels.

Lemma looks_timelike_missing_label_witness :
  converts_to_int (L := Reference.library) Samples.sparse_dates = false
  /\ converts_to_float (L := Reference.library) Samples.sparse_dates = false
  /\ ~ well_sampled (L := Reference.library) Samples.sparse_dates
  /\ missing_labels Samples.sparse_dates [0; 1; 2] = [1; 2]
  /\ looks_timelike (L := Reference.library)
       (R := Reference.identity_source) Samples.sparse_dates tt
     = (inl (KeyError "[1, 2] not in index"), tt).
Proof.
  assert (Hint : converts_to_int (L := Reference.library) Samples.sparse_dates
                 = false) by reflexivity.
  assert (Hfloat : converts_to_float (L := Reference.library)
                     Samples.sparse_dates = false) by reflexivity.
  assert (Hws : ~ well_sampled (L := Reference.library) Samples.sparse_dates).
  { intros H. specialize (H "x" (or_intror (or_introl eq_refl))).
    vm_compute in H. lia. }
  refine (conj Hint (conj Hfloat (conj Hws (conj eq_refl
    (looks_timelike_missing_label (L := Reference.library)
       (R := Reference.identity_source) Samples.sparse_dates tt
       Hint Hfloat Hws _ _ _ _))))).
  - reflexivity.
  - vm_compute. lia.
  - vm_compute. lia.
  - vm_compute. discriminate.
Defined.

(* ================================================================== *)
(** * Further properties of the aggregation *)
(* ================================================================== *)

Lemma assoc_dict_set {A : Type} (k k' : string) (v : A) (d : dict A) :
  assoc k (dict_set k' v d) = if String.eqb k k' then Some v else assoc k d.
Proof.
  induction d as [|[k1 v1] t IH]; cbn [dict_set assoc].
  - reflexivity.
  - destruct (String.eqb_spec k' k1) as [->|Hne]; cbn [assoc].
    + destruct (String.eqb k k1); reflexivity.
    + rewrite IH. destruct (String.eqb_spec k k1) as [->|Hne1].
      * destruct (String.eqb_spec k1 k') as [->|_]; [congruence|reflexivity].
      * reflexivity.
Qed.

Lemma assoc_None {A : Type} (k : string) (l : list (string * A)) :
  assoc k l = None <-> ~ In k (map fst l).
Proof.
  induction l as [|[k' v'] t IH]; cbn [assoc map fst In]; [tauto|].
  destruct (String.eqb_spec k k') as [->|Hne].
  - split; [discriminate|]. intros H. exfalso. apply H. now left.
  - rewrite IH. split; [intros H [E|Hin]; [congruence|contradiction]|tauto].
Qed.

Lemma assoc_Some_In {A : Type} (k : string) (l : list (string * A)) (v : A) :
  assoc k l = Some v -> In k (map fst l).
Proof.
  intros H. destruct (in_dec string_dec k (map fst l)) as [Hin|Hout];
    [assumption|].
  apply assoc_None in Hout. congruence.
Qed.

Lemma assoc_fold_set {A : Type} (f : string -> A) (l : list string)
  (d : dict A) (k : string) :
  assoc k (fold_left (fun d name => dict_set name (f name) d) l d)
  = if str_in k l then Some (f k) else assoc k d.
Proof.
  revert d. induction l as [|x t IH]; intros d; [reflexivity|].
  cbn [fold_left]. rewrite IH, assoc_dict_set.
  unfold str_in. cbn [existsb]. fold (str_in k t).
  destruct (String.eqb_spec k x) as [->|Hne]; cbn [orb].
  - now destruct (str_in x t).
  - reflexivity.
Qed.

Lemma assoc_dict_update {A : Type} (d e : dict A) (k : string) :
  NoDup (dict_keys e) ->
  assoc k (dict_update d e)
  = match assoc k e with Some v => Some v | None => assoc k d end.
Proof.
  unfold dict_update. revert d.
  induction e as [|[k1 v1] t IH]; intros d Hnd; [reflexivity|].
  cbn [dict_keys map fst] in Hnd. apply NoDup_cons_iff in Hnd.
  destruct Hnd as [Hout Hnd].
  cbn [fold_left fst snd assoc]. rewrite (IH _ Hnd), assoc_dict_set.
  destruct (String.eqb_spec k k1) as [->|Hne]; [|reflexivity].
  apply assoc_None in Hout. now rewrite Hout.
Qed.

Section AggregationFacts.
Context {L : Library} {R : RandomSource}.

Lemma mapM_first_failure {A B : Type} (f : A -> M B) (pre post : list A)
  (x : A) (e : exn) (g : rng) :
  (forall a, In a pre -> exists b, f a g = (inr b, g)) ->
  f x g = (inl e, g) ->
  mapM f (pre ++ x :: post)%list g = (inl e, g).
Proof.
  intros Hpre Hx. induction pre as [|a t IH]; cbn [app mapM].
  - unfold bind. now rewrite Hx.
  - destruct (Hpre a (or_introl eq_refl)) as [b Hb].
    rewrite (bind_run _ _ _ _ _ Hb). unfold bind at 1.
    rewrite IH; [reflexivity|].
    intros a' Ha'. apply Hpre. now right.
Qed.

(** X11.  [detect_big_cats] looks every categorical up in the frame: the
    first name of [all_cats] that is no column of the frame is a
    [KeyError], whatever the counts say. *)
Theorem detect_big_cats_missing_column (df : DataFrame)
  (unique_counts : dict nat) (pre post : list string) (name : string)
  (g : rng) :
  (forall c, In c pre -> In c (column_names df)) ->
  ~ In name (column_names df) ->
  detect_big_cats df unique_counts (pre ++ name :: post)%list g
  = (inl (KeyError name), g).
Proof.
  intros Hpre Hname. unfold detect_big_cats. cbv zeta.
  unfold bind at 1.
  rewrite (mapM_first_failure _ pre post name (KeyError name) g);
    [reflexivity| |].
  - intros c Hc. apply Hpre in Hc. apply assoc_In in Hc.
    destruct Hc as [v Hv]. unfold bind, getitem. rewrite Hv.
    eexists. reflexivity.
  - unfold bind, getitem. apply assoc_None in Hname. now rewrite Hname.
Qed.

(** X12.  The big categoricals that [detect_big_cats] returns are the
    names of [all_cats] with a count of 20 or more, each with its count:
    whether a column is also reported for deflation plays no part. *)
Theorem detect_big_cats_counts (df : DataFrame) (unique_counts : dict nat)
  (all_cats : list string) (g g' : rng) (bigs : dict nat)
  (inflation : list InflationInfo) (info : InspectionInfo) :
  detect_big_cats df unique_counts all_cats g
  = (inr (bigs, inflation, info), g') ->
  forall name n,
    assoc name bigs = Some n
    <-> In name all_cats /\ assoc name unique_counts = Some n /\ 20 <= n.
Proof.
  unfold detect_big_cats. cbv zeta.
  set (big := fun name : string =>
         match assoc name unique_counts with
         | Some n => (20 <=? n)%nat
         | None => false
         end).
  pose (count_of := fun name : string =>
         match assoc name unique_counts with Some n => n | None => 0 end).
  intros H. apply bind_inv in H. destruct H as [found [g1 [_ H]]].
  unfold ret in H.
  assert (Eb : bigs
               = fold_left (fun d name => dict_set name (count_of name) d)
                   (filter big all_cats) []).
  { unfold count_of. congruence. }
  clear H. subst bigs. intros name n.
  rewrite (assoc_fold_set count_of). cbn [assoc]. unfold count_of.
  destruct (str_in name (filter big all_cats)) eqn:E.
  - apply str_in_In in E. apply filter_In in E. destruct E as [Hin Hbig].
    unfold big in Hbig.
    destruct (assoc name unique_counts) as [m|]; [|discriminate].
    apply Nat.leb_le in Hbig. split.
    + intros Hn. injection Hn as <-. auto.
    + intros [_ [Hn _]]. exact Hn.
  - split; [discriminate|]. intros [Hin [Hn Hle]].
    assert (Hs : str_in name (filter big all_cats) = true).
    { apply str_in_In, filter_In. split; [assumption|].
      unfold big. rewrite Hn. now apply Nat.leb_le. }
    congruence.
Qed.

Lemma assoc_merged (infos : list InspectionInfo) (d : dict string)
  (k : string) :
  (forall i, In i infos -> NoDup (dict_keys (descs i))) ->
  assoc k (fold_left (fun d i => dict_update d (descs i)) infos d)
  = match lookup_merged k infos with
    | Some v => Some v
    | None => assoc k d
    end.
Proof.
  revert d. induction infos as [|i t IH]; intros d Hnd; [reflexivity|].
  cbn [fold_left lookup_merged]. rewrite IH.
  - rewrite assoc_dict_update by (apply Hnd; now left).
    destruct (lookup_merged k t); [reflexivity|].
    destruct (assoc k (descs i)); reflexivity.
  - intros j Hj. apply Hnd. now right.
Qed.

(** X13.  [InspectionInfo.merge] raises for no infos and for infos of
    different kinds, without looking at what they hold.  Otherwise it
    returns an info of the common kind in which every column has the
    reason of the last info that holds it. *)
Theorem merge_last_wins (infos : list InspectionInfo) (g : rng) :
  (forall i, In i infos -> NoDup (dict_keys (descs i))) ->
  match infos with
  | [] => merge infos g = (inl (ValueError "Nothing to merge"), g)
  | first :: _ =>
      if forallb (fun i => ColumnType_eqb (kind i) (kind first)) infos
      then
        exists merged,
          merge infos g = (inr merged, g)
          /\ kind merged = kind first
          /\ forall name,
               assoc name (descs merged) = lookup_merged name infos
      else
        merge infos g
        = (inl (ValueError "Cannot merge when kinds differ."), g)
  end.
Proof.
  intros Hnd. destruct infos as [|first rest]; [reflexivity|].
  unfold merge.
  destruct (forallb _ (first :: rest)); cbn [negb]; [|reflexivity].
  eexists. split; [reflexivity|]. split; [reflexivity|].
  intros name. cbn [descs]. rewrite (assoc_merged _ _ _ Hnd).
  now destruct (lookup_merged name (first :: rest)).
Qed.

End AggregationFacts.

Lemma detect_big_cats_missing_column_witness :
  (forall c, In c ["x"] -> In c (column_names Samples.mixed_frame))
  /\ ~ In "y" (column_names Samples.mixed_frame)
  /\ detect_big_cats (L := Reference.library)
       (R := Reference.identity_source) Samples.mixed_frame []
       (["x"] ++ "y" :: ["m"])%list tt
     = (inl (KeyError "y"), tt).
Proof.
  assert (Hpre : forall c, In c ["x"] ->
                   In c (column_names Samples.mixed_frame)).
  { intros c [<-|[]]. left. reflexivity. }
  assert (Hname : ~ In "y" (column_names Samples.mixed_frame)).
  { intros [H|[H|[]]]; discriminate. }
  exact (conj Hpre (conj Hname
           (detect_big_cats_missing_column (L := Reference.library)
              (R := Reference.identity_source) Samples.mixed_frame []
              ["x"] ["m"] "y" tt Hpre Hname))).
Defined.

Lemma detect_big_cats_counts_witness :
  exists bigs inflation info,
    detect_big_cats (L := Reference.library)
      (R := Reference.identity_source) Samples.mixed_frame
      [("x", 25); ("m", 2)] ["x"; "m"] tt
    = (inr (bigs, inflation, info), tt)
    /\ (assoc "x" bigs = Some 25
        <-> In "x" ["x"; "m"]
            /\ assoc "x" [("x", 25); ("m", 2)] = Some 25 /\ 20 <= 25).
Proof.
  do 3 eexists.
  refine ((fun H =>
    conj H
      (detect_big_cats_counts (L := Reference.library)
         (R := Reference.identity_source) _ _ _ _ _ _ _ _ H "x" 25)) _).
  vm_compute. reflexivity.
Defined.

Lemma merge_last_wins_witness :
  let infos :=
    [mkInfo Const [("a", "first"); ("b", "kept")];
     mkInfo Const [("a", "second")]] in
  (forall i, In i infos -> NoDup (dict_keys (descs i)))
  /\ exists merged,
       merge (R := Reference.identity_source) infos tt = (inr merged, tt)
       /\ kind merged = Const
       /\ forall name, assoc name (descs merged) = lookup_merged name infos.
Proof.
  cbv zeta.
  assert (Hnd : forall i,
            In i [mkInfo Const [("a", "first"); ("b", "kept")];
                  mkInfo Const [("a", "second")]] ->
            NoDup (dict_keys (descs i))).
  { intros i [<-|[<-|[]]]; cbn.
    - constructor; [intros [H|[]]; discriminate|].
      constructor; [intros []|constructor].
    - constructor; [intros []|constructor]. }
  exact (conj Hnd
           (merge_last_wins (R := Reference.identity_source) _ tt Hnd)).
Defined.

(* ================================================================== *)
(** * Further properties of [inspect_data] *)
(* ================================================================== *)

Section InspectDataFacts.
Context {L : Library} {R : RandomSource}.

Lemma uncategorize_names (cols columns : list (string * Column))
  (g g' : rng) :
  mapM uncategorize cols g = (inr columns, g') ->
  map fst columns = map fst cols.
Proof.
  intros H. apply mapM_inv in H.
  induction H as [|x y l l' [ga [gb Hxy]] _ IH]; [reflexivity|].
  cbn [map]. f_equal; [|exact IH].
  unfold uncategorize in Hxy.
  destruct (col_dtype (snd x));
    try (injection Hxy as <- _; reflexivity).
  destruct (is_int_dtype _ && _); [discriminate|].
  injection Hxy as <- _. reflexivity.
Qed.

(** What a run of [inspect_data] that returns has gone through. *)
Lemma inspect_data_inv (df : DataFrame) (target : string)
  (categoricals ordinals : list string) (g g' : rng)
  (results : InspectionResults) :
  inspect_data df target categoricals ordinals g = (inr results, g') ->
  exists columns strs int_infos ga gb gc gd,
    map fst columns = column_names df
    /\ In target (column_names df)
    /\ (let X := drop_ignore (mkFrame (df_index df) columns) [target] in
        inspect_str_columns X
          (get_str_cols (mkFrame (df_index df) columns) target)
          categoricals ordinals ga = (inr strs, gb)
        /\ inspect_str_columns X
             (get_int_cols (mkFrame (df_index df) columns) target)
             categoricals ordinals gb = (inr int_infos, gc)
        /\ (exists counts out,
              detect_big_cats X counts
                (categoricals ++ dict_keys (descs (cat_info strs)))%list gd
              = (inr out, g')))
    /\ sorted_set
         (minus
            (minus
               (inter
                  (dict_keys (descs (ord_info strs))
                     ++ dict_keys (descs (ord_info int_infos)))%list
                  (dict_keys (descs (cat_info strs))))
               categoricals)
            ordinals) = []
    /\ ords results = ord_info strs
    /\ int_ords results = ord_info int_infos
    /\ cats results = cat_info strs.
Proof.
  unfold inspect_data. intros H.
  apply bind_inv in H. destruct H as [columns [g1 [Hcols H]]].
  apply bind_inv in H. destruct H as [X [g2 [HX H]]].
  apply bind_inv in H. destruct H as [strs [g3 [Hstrs H]]].
  apply bind_inv in H. destruct H as [[[int_ords int_ids] int_consts] [g4 [Hints H]]].
  apply bind_inv in H. destruct H as [other [g5 [Hother H]]].
  apply bind_inv in H. destruct H as [all_consts [g6 [Hmerge H]]].
  destruct (get_unq_counts X target) as [unique_counts nanless_cnts].
  apply bind_inv in H. destruct H as [[[bigs inflation] big_info] [g7 [Hbig H]]].
  unfold drop_column, column_names in HX. cbn [df_columns] in HX.
  destruct (str_in target (map fst columns)) eqn:Et; [|discriminate].
  unfold ret in HX. injection HX as <- <-.
  unfold inspect_int_columns in Hints.
  apply bind_inv in Hints. destruct Hints as [int_infos [g4' [Hints Hret]]].
  unfold ret in Hret.
  assert (Eo : int_ords = ord_info int_infos) by congruence.
  assert (Eg : g4' = g4) by congruence. subst g4' int_ords.
  match type of H with
  | (if (0 <? length ?amb)%nat then _ else _) _ = _ =>
      destruct amb as [|a t] eqn:Eamb
  end.
  2:{ discriminate. }
  cbn [length Nat.ltb Nat.leb] in H. unfold ret in H.
  pose proof (uncategorize_names _ _ _ _ Hcols) as Hnames.
  exists columns, strs, int_infos, g1, g3, g4, g6.
  split; [exact Hnames|].
  split; [apply str_in_In in Et; unfold column_names; now rewrite <- Hnames|].
  split.
  { cbv zeta. split; [exact Hstrs|]. split; [exact Hints|].
    exists unique_counts, (bigs, inflation, big_info).
    assert (Eg : g7 = g') by congruence. subst g7. exact Hbig. }
  split; [exact Eamb|].
  split; [|split]; injection H as <- _; reflexivity.
Qed.

(** X14.  In what [inspect_data] returns, no column is both among the
    inferred categoricals and among the inferred ordinals, those of the
    string columns or those of the integer columns. *)
Theorem inspect_data_disjoint (df : DataFrame) (target : string)
  (categoricals ordinals : list string) (g g' : rng)
  (results : InspectionResults) (name : string) :
  inspect_data df target categoricals ordinals g = (inr results, g') ->
  In name (dict_keys (descs (cats results))) ->
  ~ In name (dict_keys (descs (ords results)))
  /\ ~ In name (dict_keys (descs (int_ords results))).
Proof.
  intros H Hcat. apply inspect_data_inv in H.
  destruct H as [columns [strs [int_infos [ga [gb [gc [gd H]]]]]]].
  destruct H as [_ [_ [[Hstrs _] [Hamb [-> [-> Ec]]]]]].
  rewrite Ec in Hcat.
  destruct (inspect_str_columns_keys _ _ _ _ _ _ _ name Hstrs
              (or_intror Hcat)) as [_ [Ho Hc]].
  assert (Hno : ~ In name (dict_keys (descs (ord_info strs))
                             ++ dict_keys (descs (ord_info int_infos)))%list).
  { intros Hin.
    assert (Hin' : In name []); [|destruct Hin'].
    rewrite <- Hamb. apply sorted_set_In, minus_In. split; [|exact Ho].
    apply minus_In. split; [|exact Hc].
    apply inter_In. split; assumption. }
  split; intros Hin; apply Hno, in_or_app; [left|right]; exact Hin.
Qed.

Lemma mapM_inv_In {A B : Type} (f : A -> M B) (l : list A) (g g' : rng)
  (ys : list B) (x : A) :
  mapM f l g = (inr ys, g') ->
  In x l ->
  exists y ga gb, f x ga = (inr y, gb).
Proof.
  intros H. apply mapM_inv in H.
  induction H as [|a y l l' [ga [gb Hay]] _ IH]; intros Hin; [destruct Hin|].
  destruct Hin as [<-|Hin]; [now exists y, ga, gb|now apply IH].
Qed.

(** X15.  [inspect_data] returns only when the target is a column of the
    frame and every declared categorical is a column other than the
    target: the declared categoricals are looked up in the frame from
    which the target has been dropped. *)
Theorem inspect_data_needs_predictors (df : DataFrame) (target : string)
  (categoricals ordinals : list string) (g g' : rng)
  (results : InspectionResults) :
  inspect_data df target categoricals ordinals g = (inr results, g') ->
  In target (column_names df)
  /\ forall c, In c categoricals -> In c (column_names df) /\ c <> target.
Proof.
  intros H. apply inspect_data_inv in H.
  destruct H as [columns [strs [int_infos [ga [gb [gc [gd H]]]]]]].
  destruct H as [Hnames [Ht [[_ [_ [counts [out Hbig]]]] _]]].
  split; [exact Ht|]. intros c Hc.
  unfold detect_big_cats in Hbig. cbv zeta in Hbig.
  apply bind_inv in Hbig. destruct Hbig as [found [g1 [Hfound _]]].
  destruct (mapM_inv_In _ _ _ _ _ c Hfound) as [y [g2 [g3 Hy]]].
  { apply in_or_app. now left. }
  unfold bind, getitem in Hy.
  destruct (assoc c (df_columns (drop_ignore _ [target]))) as [col|] eqn:E;
    [|discriminate].
  apply assoc_Some_In in E. unfold drop_ignore in E. cbn [df_columns] in E.
  apply in_map_iff in E. destruct E as [[n col'] [En Hin]].
  cbn [fst] in En. subst n. apply filter_In in Hin.
  destruct Hin as [Hin Hkeep]. cbn [fst] in Hkeep.
  split.
  - rewrite <- Hnames. apply (in_map fst) in Hin. exact Hin.
  - intros ->. apply negb_true_iff in Hkeep.
    assert (Hs : str_in target [target] = true)
      by (apply str_in_In; now left).
    congruence.
Qed.

End InspectDataFacts.

Lemma inspect_data_disjoint_witness :
  exists results,
    inspect_data (L := Reference.library) (R := Reference.identity_source)
      Samples.word_frame "y" [] [] tt = (inr results, tt)
    /\ In "x" (dict_keys (descs (cats results)))
    /\ ~ In "x" (dict_keys (descs (ords results)))
    /\ ~ In "x" (dict_keys (descs (int_ords results))).
Proof.
  eexists.
  refine ((fun H Hin =>
    conj H (conj Hin
      (inspect_data_disjoint (L := Reference.library)
         (R := Reference.identity_source) _ _ _ _ _ _ _ "x" H Hin))) _ _).
  - vm_compute. reflexivity.
  - vm_compute. left. reflexivity.
Defined.

Lemma inspect_data_needs_predictors_witness :
  exists results,
    inspect_data (L := Reference.library) (R := Reference.identity_source)
      Samples.word_frame "y" ["x"] [] tt = (inr results, tt)
    /\ In "y" (column_names Samples.word_frame)
    /\ forall c, In c ["x"] ->
         In c (column_names Samples.word_frame) /\ c <> "y".
Proof.
  eexists.
  refine ((fun H =>
    conj H
      (inspect_data_needs_predictors (L := Reference.library)
         (R := Reference.identity_source) _ _ _ _ _ _ _ H)) _).
  vm_compute. reflexivity.
Defined.

(* ================================================================== *)
(** * Further properties of [validate] and of the NaN handling *)
(* ================================================================== *)

Lemma range_index_length (n : nat) : length (range_index n) = n.
Proof. unfold range_index. now rewrite length_map, length_seq. Qed.

Section ValidateMore.
Context {R : RandomSource}.

(** X16.  When [validate] returns, the four tables carry one index, the
    default one, with their columns and values as they were, and
    validating what it returned changes nothing. *)
Theorem validate_reindexes (X X_cont X_cat : DataFrame) (y : Series)
  (g g' : rng) (X' X_cont' X_cat' : DataFrame) (y' : Series) :
  validate X X_cont X_cat y g = (inr (X', X_cont', X_cat', y'), g') ->
  df_index X' = range_index (n_rows X)
  /\ df_index X_cont' = df_index X'
  /\ df_index X_cat' = df_index X'
  /\ index y' = df_index X'
  /\ (df_columns X', df_columns X_cont', df_columns X_cat', values y')
     = (df_columns X, df_columns X_cont, df_columns X_cat, values y)
  /\ validate X' X_cont' X_cat' y' g' = (inr (X', X_cont', X_cat', y'), g').
Proof.
  unfold validate.
  destruct (Nat.eqb_spec (n_rows X_cont) (n_rows X)) as [E1|_];
    [|discriminate].
  destruct (Nat.eqb_spec (n_rows X_cat) (n_rows X)) as [E2|_];
    [|discriminate].
  destruct (Nat.eqb_spec (len y) (n_rows X)) as [E3|_]; [|discriminate].
  cbn [negb]. unfold ret. intros H.
  assert (EX : X' = set_index X (range_index (n_rows X))) by congruence.
  assert (EXc : X_cont' = set_index X_cont (range_index (n_rows X)))
    by (cbn [set_index df_index] in H; congruence).
  assert (EXk : X_cat' = set_index X_cat (range_index (n_rows X)))
    by (cbn [set_index df_index] in H; congruence).
  assert (Ey : y' = set_series_index y (range_index (n_rows X)))
    by (cbn [set_index df_index] in H; congruence).
  clear H.
  assert (Hlen : length (range_index (n_rows X)) = length (values y)).
  { rewrite range_index_length, <- len_values. now symmetry. }
  assert (Hidx : index y' = range_index (n_rows X)).
  { subst y'. unfold index, set_series_index. cbn [rows].
    now apply combine_fst. }
  assert (Hval : values y' = values y).
  { subst y'. unfold values at 1, set_series_index. cbn [rows].
    now apply combine_snd. }
  split; [now subst X'|]. split; [now subst X' X_cont'|].
  split; [now subst X' X_cat'|]. split; [now subst X'|].
  split; [subst X' X_cont' X_cat'; now rewrite Hval|].
  assert (Hn : n_rows X' = n_rows X).
  { subst X'. unfold n_rows, set_index. cbn [df_index].
    apply range_index_length. }
  assert (Hn1 : n_rows X_cont' = n_rows X).
  { subst X_cont'. unfold n_rows, set_index. cbn [df_index].
    apply range_index_length. }
  assert (Hn2 : n_rows X_cat' = n_rows X).
  { subst X_cat'. unfold n_rows, set_index. cbn [df_index].
    apply range_index_length. }
  assert (Hn3 : len y' = n_rows X).
  { rewrite len_values, Hval, <- len_values. exact E3. }
  rewrite Hn, Hn1, Hn2, Hn3, !Nat.eqb_refl. cbn [negb]. unfold ret.
  assert (Hy2 : set_series_index y' (range_index (n_rows X)) = y').
  { rewrite Ey at 2. unfold set_series_index. rewrite Hval.
    subst y'. reflexivity. }
  cbn [set_index df_index]. rewrite Hy2.
  subst X' X_cont' X_cat'. reflexivity.
Qed.

End ValidateMore.

Lemma validate_reindexes_witness :
  exists X' X_cont' X_cat' y',
    validate (R := Reference.identity_source) Samples.three_rows
      Samples.three_rows Samples.three_rows
      (mkSeries DInt [(7%Z, PyInt 0); (8%Z, PyInt 1); (9%Z, PyInt 0)]) tt
    = (inr (X', X_cont', X_cat', y'), tt)
    /\ index y' = df_index X'
    /\ validate (R := Reference.identity_source) X' X_cont' X_cat' y' tt
       = (inr (X', X_cont', X_cat', y'), tt).
Proof.
  do 4 eexists.
  refine ((fun H =>
    conj H
      (conj
         (proj1 (proj2 (proj2 (proj2
            (validate_reindexes (R := Reference.identity_source)
               _ _ _ _ _ _ _ _ _ _ H)))))
         (proj2 (proj2 (proj2 (proj2 (proj2
            (validate_reindexes (R := Reference.identity_source)
               _ _ _ _ _ _ _ _ _ _ H)))))))) _).
  vm_compute. reflexivity.
Defined.

(** X17.  Dropping the columns with a missing value and then the rows
    with one, as the drop strategy does, never removes a row: the result
    has the rows of the frame, and it is without columns exactly when
    every column of the frame has a missing value. *)
Theorem dropna_pipeline_shape (df : DataFrame) :
  wf_frame df ->
  df_index (dropna_rows (dropna_columns df)) = df_index df
  /\ (n_cols (dropna_rows (dropna_columns df)) = 0
      <-> forall c, In c (df_columns df) ->
            existsb isna_cell (col_values (snd c)) = true).
Proof.
  intros Hwf. rewrite (dropna_rows_after_columns df Hwf).
  split; [reflexivity|].
  unfold n_cols, dropna_columns. cbn [df_columns].
  rewrite length_zero_iff_nil. split.
  - intros Hnil c Hc.
    destruct (existsb isna_cell (col_values (snd c))) eqn:E; [reflexivity|].
    assert (Hin : In c (filter
                    (fun c => negb (existsb isna_cell (col_values (snd c))))
                    (df_columns df))).
    { apply filter_In. split; [exact Hc|]. now rewrite E. }
    rewrite Hnil in Hin. destruct Hin.
  - intros Hall.
    destruct (filter _ (df_columns df)) as [|c t] eqn:E; [reflexivity|].
    assert (Hin : In c (filter
                    (fun c => negb (existsb isna_cell (col_values (snd c))))
                    (df_columns df))) by (rewrite E; now left).
    apply filter_In in Hin. destruct Hin as [Hc Hk].
    rewrite (Hall c Hc) in Hk. discriminate.
Qed.

Lemma dropna_pipeline_shape_witness :
  wf_frame Samples.nan_frame
  /\ df_index (dropna_rows (dropna_columns Samples.nan_frame))
     = df_index Samples.nan_frame.
Proof.
  assert (Hwf : wf_frame Samples.nan_frame).
  { intros c [<-|[<-|[<-|[<-|[]]]]]; reflexivity. }
  exact (conj Hwf (proj1 (dropna_pipeline_shape Samples.nan_frame Hwf))).
Defined.

Section NanHandlingFacts.
Context {L : Library} {R : RandomSource}.
Variable NanHandling_members : list NanHandling.
Variable NanHandling_value : NanHandling -> string.
Variable sklearn_impute : NanHandling -> DataFrame -> M DataFrame.
Variable setitem_realigned : DataFrame -> string -> Series -> M DataFrame.
Variable concat_realigned : DataFrame -> DataFrame -> M DataFrame.

Lemma select_columns_inv (df : DataFrame) (names : list string)
  (g g' : rng) (out : DataFrame) :
  select_columns df names g = (inr out, g') ->
  exists cols,
    out = mkFrame (df_index df) cols /\ map fst cols = names /\ g' = g.
Proof.
  unfold select_columns. intros H.
  destruct (filter _ names) as [|name t] eqn:E; [|discriminate].
  unfold ret in H. exists (pick_columns df names).
  split; [congruence|]. split; [|congruence].
  apply pick_columns_names. now apply none_missing.
Qed.

(** What the drop strategy returns on a well-formed frame. *)
Lemma handle_continuous_nans_drop_inv (df : DataFrame) (target : string)
  (cat_cols : list string) (g g' : rng) (out : DataFrame) :
  wf_frame df ->
  handle_continuous_nans NanHandling_members NanHandling_value
    sklearn_impute setitem_realigned concat_realigned df target cat_cols
    Drop g = (inr out, g') ->
  exists ct cols,
    assoc target (df_columns df) = Some ct
    /\ map fst cols = cat_cols
    /\ out
       = mkFrame (df_index (rows_with_target df target))
           (cols
              ++ df_columns
                   (dropna_columns
                      (drop_ignore (rows_with_target df target)
                         (cat_cols ++ [target])))
              ++ [(target,
                   mkColumn (col_dtype ct)
                     (filter (fun v => negb (isna_cell v))
                        (col_values ct)))])%list.
Proof.
  intros Hwf H. unfold handle_continuous_nans in H.
  apply bind_inv in H. destruct H as [t [g1 [Ht H]]].
  unfold getitem in Ht.
  destruct (assoc target (df_columns df)) as [ct|] eqn:Hct; [|discriminate].
  unfold ret in Ht.
  assert (Et : t = series_of_column df ct) by congruence.
  assert (Eg1 : g1 = g) by congruence. subst t g1. clear Ht.
  assert (Ekept : rows_with_target df target
            = filter_rows df (map negb (isna (series_of_column df ct)))).
  { unfold rows_with_target. now rewrite Hct. }
  rewrite <- Ekept in H. set (kept := rows_with_target df target) in *.
  assert (Hwfk : wf_frame kept) by (rewrite Ekept; now apply filter_rows_wf).
  apply bind_inv in H. destruct H as [X_cat [g2 [Hsel H]]].
  apply select_columns_inv in Hsel. destruct Hsel as [cols [-> [Hcn ->]]].
  apply bind_inv in H. destruct H as [y [g3 [Hy H]]].
  unfold getitem in Hy.
  destruct (assoc target (df_columns kept)) as [cy|] eqn:Hcy; [|discriminate].
  unfold ret in Hy.
  assert (Ey : y = series_of_column kept cy) by congruence.
  assert (Eg3 : g3 = g) by congruence. subst y g3. clear Hy.
  apply bind_inv in H. destruct H as [X_clean [g4 [Hclean H]]].
  destruct ((n_rows (dropna_rows (dropna_columns
              (drop_ignore kept (cat_cols ++ [target])))) =? 0)%nat
            || (n_cols (dropna_rows (dropna_columns
                 (drop_ignore kept (cat_cols ++ [target])))) =? 0)%nat);
    [discriminate|].
  unfold ret in Hclean.
  assert (EX : X_clean = dropna_rows (dropna_columns
                 (drop_ignore kept (cat_cols ++ [target])))) by congruence.
  assert (Eg4 : g4 = g) by congruence. subst g4. clear Hclean.
  rewrite dropna_rows_after_columns in EX by (now apply drop_ignore_wf).
  assert (Eidx : df_index X_clean = df_index kept) by (now rewrite EX).
  assert (Hiny : In (target, cy) (df_columns kept))
    by (now apply assoc_In_pair).
  assert (Eyi : index (series_of_column kept cy) = df_index kept).
  { unfold index, series_of_column. cbn [rows]. apply combine_fst.
    symmetry. apply (Hwfk (target, cy) Hiny). }
  assert (Hnot : str_in target (column_names X_clean) = false).
  { destruct (str_in target (column_names X_clean)) eqn:E; [|reflexivity].
    exfalso. apply str_in_In in E. rewrite EX in E.
    unfold column_names, dropna_columns, drop_ignore in E.
    cbn [df_columns] in E.
    apply in_map_iff in E. destruct E as [c [Hn Hc']].
    apply filter_In in Hc'. destruct Hc' as [Hc' _].
    apply filter_In in Hc'. destruct Hc' as [_ Hc'].
    apply negb_true_iff in Hc'.
    assert (str_in (fst c) (cat_cols ++ [target]) = true); [|congruence].
    apply str_in_In. rewrite Hn. apply in_or_app. right. now left. }
  apply bind_inv in H. destruct H as [X2 [g5 [Hset H]]].
  unfold setitem in Hset.
  rewrite Eidx, Eyi, index_eqb_refl, Hnot in Hset. unfold ret in Hset.
  assert (EX2 : X2 = mkFrame (df_index kept)
                  (df_columns X_clean
                     ++ [(target,
                          mkColumn (dtype (series_of_column kept cy))
                            (values (series_of_column kept cy)))])%list)
    by congruence.
  assert (Eg5 : g5 = g) by congruence. subst g5. clear Hset.
  unfold concat_columns in H. rewrite EX2 in H. cbn [df_index] in H.
  rewrite index_eqb_refl in H. unfold ret in H. cbn [df_columns] in H.
  exists ct, cols. split; [reflexivity|]. split; [exact Hcn|].
  assert (Eout : out = mkFrame (df_index kept)
                   (cols ++ df_columns X_clean
                      ++ [(target,
                           mkColumn (dtype (series_of_column kept cy))
                             (values (series_of_column kept cy)))])%list)
    by congruence.
  rewrite Eout, EX. do 4 f_equal.
  assert (Ecy : cy = mkColumn (col_dtype ct)
                  (mask_select (col_values ct)
                     (map negb (isna (series_of_column df ct))))).
  { rewrite Ekept in Hcy. unfold filter_rows in Hcy. cbn [df_columns] in Hcy.
    rewrite (assoc_map_snd
               (fun c => mkColumn (col_dtype c)
                           (mask_select (col_values c)
                              (map negb (isna (series_of_column df ct))))))
      in Hcy.
    rewrite Hct in Hcy. cbn [option_map] in Hcy. congruence. }
  assert (Hvals : values (series_of_column df ct) = col_values ct).
  { unfold values, series_of_column. cbn [rows]. apply combine_snd.
    symmetry. apply (Hwf (target, ct)). now apply assoc_In_pair. }
  unfold series_of_column at 1. cbn [dtype].
  assert (Hvy : values (series_of_column kept cy) = col_values cy).
  { unfold values, series_of_column. cbn [rows]. apply combine_snd.
    symmetry. apply (Hwfk (target, cy) Hiny). }
  rewrite Hvy, Ecy. cbn [col_dtype col_values].
  unfold isna. rewrite Hvals, map_map.
  now rewrite (mask_select_map (fun v => negb (isna_cell v))).
Qed.

(** X18.  What the drop strategy returns on a well-formed frame has no
    missing value outside the categorical columns: not in a continuous
    column, and not in the target. *)
Theorem handle_continuous_nans_drop_complete (df : DataFrame)
  (target : string) (cat_cols : list string) (g g' : rng) (out : DataFrame)
  (name : string) (c : Column) :
  wf_frame df ->
  handle_continuous_nans NanHandling_members NanHandling_value
    sklearn_impute setitem_realigned concat_realigned df target cat_cols
    Drop g = (inr out, g') ->
  In (name, c) (df_columns out) ->
  ~ In name cat_cols ->
  existsb isna_cell (col_values c) = false.
Proof.
  intros Hwf H Hin Hcat.
  destruct (handle_continuous_nans_drop_inv _ _ _ _ _ _ Hwf H)
    as [ct [cols [Hct [Hcn ->]]]].
  cbn [df_columns] in Hin. apply in_app_or in Hin.
  destruct Hin as [Hin|Hin].
  { exfalso. apply Hcat. rewrite <- Hcn.
    apply (in_map fst) in Hin. exact Hin. }
  apply in_app_or in Hin. destruct Hin as [Hin|[Hin|[]]].
  - unfold dropna_columns in Hin. cbn [df_columns] in Hin.
    apply filter_In in Hin. destruct Hin as [_ Hk]. cbn [snd] in Hk.
    now apply negb_true_iff in Hk.
  - injection Hin as _ <-. cbn [col_values].
    destruct (existsb isna_cell _) eqn:E; [|reflexivity].
    apply existsb_exists in E. destruct E as [v [Hv Hna]].
    apply filter_In in Hv. destruct Hv as [_ Hv].
    rewrite Hna in Hv. discriminate.
Qed.

(** X19.  Whatever the strategy, [handle_continuous_nans] first looks the
    target up, then the categorical columns: a missing target is a
    [KeyError] of its name, and categorical columns that the frame does not
    hold are the [KeyError] that pandas words for all of them; nothing is
    imputed before. *)
Theorem handle_continuous_nans_missing_column (df : DataFrame)
  (target : string) (cat_cols : list string) (nans : NanHandling)
  (g : rng) :
  (~ In target (column_names df) ->
   handle_continuous_nans NanHandling_members NanHandling_value
     sklearn_impute setitem_realigned concat_realigned df target cat_cols
     nans g = (inl (KeyError target), g))
  /\ (In target (column_names df) ->
      let missing :=
        filter (fun name => negb (str_in name (column_names df))) cat_cols in
      missing <> [] ->
      handle_continuous_nans NanHandling_members NanHandling_value
        sklearn_impute setitem_realigned concat_realigned df target cat_cols
        nans g = (inl (KeyError (missing_names_text cat_cols missing)), g)).
Proof.
  split.
  - intros Ht. unfold handle_continuous_nans, bind, getitem.
    apply assoc_None in Ht. now rewrite Ht.
  - intros Ht missing Hmiss. unfold handle_continuous_nans.
    destruct (assoc_In target (df_columns df) Ht) as [ct Hct].
    unfold getitem at 1. rewrite Hct.
    rewrite (bind_run _ _ g g (series_of_column df ct)) by reflexivity.
    set (kept := filter_rows df (map negb (isna (series_of_column df ct)))).
    assert (Hnames : column_names kept = column_names df)
      by apply filter_rows_names.
    unfold bind at 1. unfold select_columns. rewrite Hnames.
    fold missing. destruct missing as [|name t]; [congruence|].
    reflexivity.
Qed.

End NanHandlingFacts.

Lemma handle_continuous_nans_drop_complete_witness :
  wf_frame Samples.nan_frame
  /\ exists out,
       handle_continuous_nans (L := Reference.library)
         (R := Reference.identity_source) Samples.members
         Samples.member_value Samples.no_impute Samples.no_setitem
         Samples.no_concat Samples.nan_frame "y" ["c"] Drop tt
       = (inr out, tt)
       /\ forall name c,
            In (name, c) (df_columns out) ->
            ~ In name ["c"] ->
            existsb isna_cell (col_values c) = false.
Proof.
  assert (Hwf : wf_frame Samples.nan_frame).
  { intros c [<-|[<-|[<-|[<-|[]]]]]; reflexivity. }
  refine (conj Hwf _). eexists.
  refine ((fun H =>
    conj H
      (fun name c =>
         handle_continuous_nans_drop_complete (L := Reference.library)
           (R := Reference.identity_source) Samples.members
           Samples.member_value Samples.no_impute Samples.no_setitem
           Samples.no_concat _ _ _ _ _ _ name c Hwf H)) _).
  vm_compute. reflexivity.
Defined.

Lemma handle_continuous_nans_missing_column_witness :
  In "y" (column_names Samples.nan_frame)
  /\ filter (fun name => negb (str_in name (column_names Samples.nan_frame)))
       ["c"; "d"; "a"; "e"] = ["d"; "e"]
  /\ handle_continuous_nans (L := Reference.library)
       (R := Reference.identity_source) Samples.members
       Samples.member_value Samples.no_impute Samples.no_setitem
       Samples.no_concat Samples.nan_frame "y" ["c"; "d"; "a"; "e"] Mean tt
     = (inl (KeyError "['d', 'e'] not in index"), tt).
Proof.
  assert (Hy : In "y" (column_names Samples.nan_frame))
    by (right; right; right; left; reflexivity).
  refine (conj Hy (conj eq_refl
           (proj2
              (handle_continuous_nans_missing_column
                 (L := Reference.library) (R := Reference.identity_source)
                 Samples.members Samples.member_value Samples.no_impute
                 Samples.no_setitem Samples.no_concat Samples.nan_frame "y"
                 ["c"; "d"; "a"; "e"] Mean tt)
              Hy _))).
  vm_compute. discriminate.
Defined.

(* ================================================================== *)
(** * Further properties of [encode_target] *)
(* ================================================================== *)

Lemma position_bound (v : cell) (classes : list cell) (k : nat) :
  position v classes = Some k -> k < length classes.
Proof.
  revert k. induction classes as [|c t IH]; intros k; cbn [position length];
    [discriminate|].
  destruct (cell_eqb v c).
  - intros H. injection H as <-. lia.
  - destruct (position v t) as [j|]; [|discriminate].
    cbn [option_map]. intros H. injection H as <-.
    specialize (IH j eq_refl). lia.
Qed.

Lemma filter_rows_n_rows (df : DataFrame) (s : Series) (mask : list bool) :
  n_rows df = len s ->
  n_rows (filter_rows df mask) = len (filter_series s mask).
Proof.
  unfold n_rows, len, filter_rows, filter_series. cbn [df_index rows].
  apply mask_select_length.
Qed.

Lemma series_of_default (d : Dtype) (l : list cell) :
  default_index (series_of d l) /\ values (series_of d l) = l.
Proof.
  unfold default_index, series_of, index, values, len. cbn [rows].
  rewrite combine_fst, combine_snd, length_combine, range_index_length,
    Nat.min_id by apply range_index_length.
  split; reflexivity.
Qed.

Section EncodeFacts.
Context {L : Library} {R : RandomSource}.

Lemma LabelEncoder_inv (y : Series) (g g' : rng) (encoded : list nat) :
  LabelEncoder_fit_transform y g = (inr encoded, g') ->
  exists classes counts,
    np_unique_raw (values y) = Some (classes, counts)
    /\ Forall2 (fun v k => position v classes = Some k) (values y) encoded.
Proof.
  unfold LabelEncoder_fit_transform.
  destruct (np_unique_raw (values y)) as [[classes counts]|];
    [|discriminate].
  intros H. exists classes, counts. split; [reflexivity|].
  apply mapM_inv in H.
  induction H as [|v k vs ks [ga [gb Hvk]] _ IH]; constructor; [|exact IH].
  destruct (position v classes) as [p|]; [|discriminate].
  unfold ret in Hvk. congruence.
Qed.

(** X20.  What [encode_target] returns: the encoded target lies on the
    default index, whatever labels the rows had; row by row it holds, for
    the value of the sanitised target, its position among the classes of
    the sanitised target, a number below their count, so that it has no
    missing value; and a frame with as many rows as the target comes back
    with as many rows as the encoded target. *)
Theorem encode_target_labels (df : DataFrame) (target : Series)
  (g g' : rng) (df' : DataFrame) (y' : Series) :
  encode_target df target g = (inr (df', y'), g') ->
  exists unqs cnts classes counts,
    np_unique_raw (values target) = Some (unqs, cnts)
    /\ np_unique_raw (values (sanitised_target target unqs cnts))
       = Some (classes, counts)
    /\ existsb isna_cell (values (sanitised_target target unqs cnts)) = false
    /\ Forall2 (label_of classes)
         (values (sanitised_target target unqs cnts)) (values y')
    /\ default_index y'
    /\ (n_rows df = len target -> n_rows df' = len y').
Proof.
  unfold encode_target.
  destruct (np_unique_raw (values target)) as [[unqs cnts]|]; [|discriminate].
  intros H. exists unqs, cnts. unfold sanitised_target.
  set (idx := map (fun c => (c <=? 20)%nat) cnts) in *.
  set (rare := map negb (isin target (mask_select unqs idx))) in *.
  assert (Hpair : exists df1,
            (if (0 <? np_sum idx)%nat
             then (filter_rows df rare, filter_series target rare)
             else (df, target))
            = (df1, if (0 <? np_sum idx)%nat
                    then filter_series target rare else target)
            /\ (n_rows df = len target ->
                n_rows df1
                = len (if (0 <? np_sum idx)%nat
                       then filter_series target rare else target))).
  { destruct (0 <? np_sum idx)%nat.
    - eexists. split; [reflexivity|]. apply filter_rows_n_rows.
    - eexists. split; [reflexivity|]. auto. }
  destruct Hpair as [df1 [Epair Hrows1]]. rewrite Epair in H.
  set (target1 := if (0 <? np_sum idx)%nat
                  then filter_series target rare else target) in *.
  cbv zeta.
  set (mask := map negb (isna target1)) in *.
  apply bind_inv in H. destruct H as [encoded [g1 [Henc H]]].
  unfold ret in H.
  assert (Edf : df' = filter_rows df1 mask) by congruence.
  assert (Ey : y' = series_of DInt (map (fun k => PyInt (Z.of_nat k)) encoded))
    by congruence.
  clear H. subst df' y'.
  destruct (series_of_default DInt
              (map (fun k => PyInt (Z.of_nat k)) encoded)) as [Hd Hv].
  apply LabelEncoder_inv in Henc.
  destruct Henc as [classes [counts [Hu Hpos]]].
  exists classes, counts. split; [reflexivity|]. split; [exact Hu|].
  assert (Hlen : length encoded = length (values (filter_series target1 mask)))
    by (symmetry; exact (Forall2_length Hpos)).
  assert (Hleny : len (series_of DInt
                         (map (fun k => PyInt (Z.of_nat k)) encoded))
                  = len (filter_series target1 mask)).
  { rewrite !len_values, Hv, length_map. exact Hlen. }
  split; [|split; [|split; [exact Hd|]]].
  - unfold values, filter_series, mask, isna, values. cbn [rows].
    rewrite !map_map.
    rewrite (mask_select_map (fun r => negb (isna_cell (snd r)))).
    destruct (existsb isna_cell _) eqn:E; [|reflexivity].
    apply existsb_exists in E. destruct E as [v [Hin Hna]].
    apply in_map_iff in Hin. destruct Hin as [r [<- Hr]].
    apply filter_In in Hr. destruct Hr as [_ Hr].
    rewrite Hna in Hr. discriminate.
  - rewrite Hv. clear - Hpos.
    induction Hpos as [|v k vs ks Hvk _ IH]; cbn [map]; constructor;
      [|exact IH].
    exists k. split; [exact Hvk|]. split; [reflexivity|].
    now apply position_bound in Hvk.
  - intros Hrows. rewrite Hleny. apply filter_rows_n_rows. now apply Hrows1.
Qed.

End EncodeFacts.

Lemma encode_target_labels_witness :
  exists df' y',
    encode_target (L := Reference.library) (R := Reference.identity_source)
      Samples.twenty_frame Samples.twenty_target tt = (inr (df', y'), tt)
    /\ exists unqs cnts classes counts,
         np_unique_raw (Library := Reference.library)
           (values Samples.twenty_target) = Some (unqs, cnts)
         /\ np_unique_raw (Library := Reference.library)
              (values (sanitised_target Samples.twenty_target unqs cnts))
            = Some (classes, counts)
         /\ existsb isna_cell
              (values (sanitised_target Samples.twenty_target unqs cnts))
            = false
         /\ Forall2 (label_of classes)
              (values (sanitised_target Samples.twenty_target unqs cnts))
              (values y')
         /\ default_index y'
         /\ (n_rows Samples.twenty_frame = len Samples.twenty_target ->
             n_rows df' = len y').
Proof.
  do 2 eexists.
  refine ((fun H =>
    conj H
      (encode_target_labels (L := Reference.library)
         (R := Reference.identity_source) _ _ _ _ _ _ H)) _).
  vm_compute. reflexivity.
Defined.

(* ================================================================== *)
(** * Properties of the older column cleaning *)
(* ================================================================== *)

Section FloatifyFacts.
Context {L : Library}.

(** X21.  [floatify] keeps the index, the names and the order of the
    columns, leaves every column that is not of object or string dtype
    as it is, and is idempotent: a second pass changes nothing. *)
Theorem floatify_idempotent (df : DataFrame) :
  floatify (floatify df) = floatify df
  /\ df_index (floatify df) = df_index df
  /\ column_names (floatify df) = column_names df
  /\ forall c, In c (df_columns df) ->
       is_object_or_string (col_dtype (snd c)) = false ->
       In c (df_columns (floatify df)).
Proof.
  split; [|split; [reflexivity|split]].
  - unfold floatify at 1 3. cbn [df_index df_columns]. f_equal.
    unfold floatify. cbn [df_index df_columns].
    rewrite map_map. apply map_ext. intros [name c].
    unfold series_of_column. cbn [fst snd df_index].
    destruct (is_object_or_string (col_dtype c)) eqn:Ed.
    + destruct (astype_float _) as [floats|] eqn:Ef.
      * reflexivity.
      * cbn [fst snd]. now rewrite Ed, Ef.
    + cbn [fst snd]. now rewrite Ed.
  - unfold column_names, floatify. cbn [df_columns].
    rewrite map_map. apply map_ext. intros [name c]. cbn [fst snd].
    destruct (is_object_or_string (col_dtype c)); [|reflexivity].
    now destruct (astype_float _).
  - intros c Hc Hd. unfold floatify. cbn [df_columns].
    apply in_map_iff. exists c. split; [|exact Hc]. now rewrite Hd.
Qed.

End FloatifyFacts.

Section LoadFacts.
Context {L : Library} {R : RandomSource}.
Variable read_json : string -> M DataFrame.
Variable read_csv : string -> M DataFrame.
Variable read_parquet : string -> M DataFrame.
Variable read_excel : string -> M DataFrame.
Variable load_spreadsheet : string -> M DataFrame.
Variable np_load : string -> M ndarray.

(** X22.  [load_as_df] accepts four suffixes only.  Any other suffix of a
    path, [.xlsx] among them, is refused with a [ValueError] before a file
    is read, because the list of file types names [xlsx] without its dot;
    the branch that reads Excel files is never taken, and the suffix that
    the list does let through ends in the error marked unreachable. *)
Theorem load_as_df_suffixes (path suffix : string) (spreadsheet : bool)
  (g : rng) :
  (~ In suffix [".json"; ".csv"; ".npy"; ".parquet"] ->
   suffix <> "xlsx" ->
   load_as_df read_json read_csv read_parquet read_excel load_spreadsheet
     np_load path suffix spreadsheet g
   = (inl (ValueError
             ("Invalid data file. Currently must be one of: "
                ++ str_of_list FILETYPES)), g))
  /\ load_as_df read_json read_csv read_parquet read_excel load_spreadsheet
       np_load path ".xlsx" spreadsheet g
     = (inl (ValueError
               ("Invalid data file. Currently must be one of: "
                  ++ str_of_list FILETYPES)), g)
  /\ load_as_df read_json read_csv read_parquet read_excel load_spreadsheet
       np_load path "xlsx" spreadsheet g
     = (inl (RuntimeError "Unreachable!"), g).
Proof.
  split; [|split; reflexivity].
  intros Hout Hx. unfold load_as_df.
  assert (E : str_in suffix FILETYPES = false).
  { destruct (str_in suffix FILETYPES) eqn:E; [|reflexivity].
    exfalso. apply str_in_In in E. unfold FILETYPES in E.
    destruct E as [E|[E|[E|[E|[E|[]]]]]]; try (now apply Hx);
      apply Hout; rewrite <- E; cbn; tauto. }
  rewrite E. reflexivity.
Qed.

End LoadFacts.

Section IdColumnFacts.
Context {L : Library} {R : RandomSource}.
Variable inferred_dtype : Column -> Dtype.
Variable setitem_realigned : DataFrame -> string -> Series -> M DataFrame.

Lemma infer_objects_names (df : DataFrame) :
  column_names (infer_objects inferred_dtype df) = column_names df.
Proof.
  unfold column_names, infer_objects. cbn [df_columns].
  rewrite map_map. reflexivity.
Qed.

Lemma drop_ignore_names (df : DataFrame) (names : list string)
  (name : string) :
  In name (column_names (drop_ignore df names))
  <-> In name (column_names df) /\ ~ In name names.
Proof.
  unfold column_names, drop_ignore. cbn [df_columns].
  rewrite !in_map_iff. split.
  - intros [c [<- Hc]]. apply filter_In in Hc. destruct Hc as [Hc Hk].
    split; [now exists c|]. intros Hin. apply str_in_In in Hin.
    rewrite Hin in Hk. discriminate.
  - intros [[c [<- Hc]] Hout]. exists c. split; [reflexivity|].
    apply filter_In. split; [exact Hc|]. apply negb_true_iff.
    destruct (str_in (fst c) names) eqn:E; [|reflexivity].
    apply str_in_In in E. contradiction.
Qed.

Lemma select_dtypes_names (keep : Dtype -> bool) (df : DataFrame)
  (name : string) :
  In name (column_names (select_dtypes keep df)) ->
  In name (column_names df).
Proof.
  unfold column_names, select_dtypes. cbn [df_columns].
  rewrite !in_map_iff. intros [c [<- Hc]]. apply filter_In in Hc.
  exists c. tauto.
Qed.

(** The dictionary of counts of [drop_id_cols] has an entry for every
    column that it went through. *)
Lemma unique_counts_keys (df : DataFrame) (cols : list (string * Column))
  (acc : dict nat) (name : string) :
  (forall c, In c cols -> In (fst c) (column_names df)) ->
  In name (map fst cols) \/ In name (dict_keys acc) ->
  In name
    (dict_keys
       (fold_left
          (fun acc c =>
             match assoc (fst c) (df_columns df) with
             | Some c' =>
                 dict_set (fst c) (unique_count (series_of_column df c')) acc
             | None => acc
             end)
          cols acc)).
Proof.
  revert acc. induction cols as [|c t IH]; intros acc Hcols Hin.
  - destruct Hin as [[]|Hin]. exact Hin.
  - cbn [fold_left]. apply IH; [intros c' Hc'; apply Hcols; now right|].
    destruct (assoc_In (fst c) (df_columns df)
                (Hcols c (or_introl eq_refl))) as [c' Hc'].
    rewrite Hc'. cbn [map] in Hin.
    destruct Hin as [[<-|Hin]|Hin].
    + right. apply dict_set_keys. now left.
    + now left.
    + right. apply dict_set_keys. now right.
Qed.

(** X23.  What [drop_id_cols] drops are predictors of object or string
    dtype, never the target; when it drops nothing it returns the frame
    it was given; and in a frame of fewer than five rows, where a fifth
    of the rows rounds down to nothing, it drops every predictor of
    object or string dtype. *)
Theorem drop_id_cols_drops (df : DataFrame) (target : string) (g g' : rng)
  (X' : DataFrame) (ids : list string) :
  drop_id_cols inferred_dtype setitem_realigned df target g
  = (inr (X', ids), g') ->
  let str_cols :=
    column_names
      (select_dtypes is_object_or_string
         (infer_objects inferred_dtype (drop_ignore df [target]))) in
  (forall name, In name ids ->
     In name str_cols /\ In name (column_names df) /\ name <> target)
  /\ (ids = [] -> X' = df)
  /\ (n_rows df < 5 -> ids = str_cols).
Proof.
  unfold drop_id_cols. cbv zeta.
  set (X := infer_objects inferred_dtype (drop_ignore df [target])).
  set (unique_counts :=
         fold_left
           (fun acc c =>
              match assoc (fst c) (df_columns df) with
              | Some c' =>
                  dict_set (fst c) (unique_count (series_of_column df c')) acc
              | None => acc
              end)
           (df_columns X) []).
  set (str_cols := column_names (select_dtypes is_object_or_string X)).
  set (keep := fun name : string =>
         match assoc name unique_counts with
         | Some n => (n_rows df / 5 <=? n)%nat
         | None => false
         end).
  intros H.
  assert (Hids : ids = filter keep str_cols).
  { destruct (length (filter keep str_cols) =? 0)%nat eqn:E.
    - unfold ret in H. apply Nat.eqb_eq, length_zero_iff_nil in E.
      rewrite E. congruence.
    - apply bind_inv in H. destruct H as [t [g1 [_ H]]].
      apply bind_inv in H. destruct H as [X2 [g2 [_ H]]].
      unfold ret in H. congruence. }
  assert (Hstr : forall name, In name str_cols ->
            In name (column_names df) /\ name <> target).
  { intros name Hin. unfold str_cols in Hin.
    apply select_dtypes_names in Hin. unfold X in Hin.
    rewrite infer_objects_names in Hin. apply drop_ignore_names in Hin.
    destruct Hin as [Hin Hout]. split; [exact Hin|].
    intros ->. apply Hout. now left. }
  split; [|split].
  - intros name Hin. rewrite Hids in Hin. apply filter_In in Hin.
    destruct Hin as [Hin _]. split; [exact Hin|]. now apply Hstr.
  - intros Hnil. rewrite Hids in Hnil. rewrite Hnil in H.
    cbn [length Nat.eqb] in H. unfold ret in H. congruence.
  - intros Hsmall. rewrite Hids.
    assert (Hdiv : n_rows df / 5 = 0) by (apply Nat.div_small; exact Hsmall).
    apply forallb_filter_id. apply forallb_forall. intros name Hin.
    unfold keep. rewrite Hdiv.
    assert (Hkey : In name (dict_keys unique_counts)).
    { unfold unique_counts. apply unique_counts_keys.
      - intros c Hc. apply (in_map fst) in Hc.
        fold (column_names X) in Hc. unfold X in Hc.
        rewrite infer_objects_names in Hc. apply drop_ignore_names in Hc.
        tauto.
      - left. fold (column_names X).
        now apply (select_dtypes_names is_object_or_string). }
    apply assoc_In in Hkey. destruct Hkey as [n Hn]. rewrite Hn.
    reflexivity.
Qed.

End IdColumnFacts.

Lemma drop_id_cols_drops_witness :
  exists X' ids,
    drop_id_cols (L := Reference.library) (R := Reference.identity_source)
      col_dtype Samples.no_setitem Samples.nan_frame "y" tt
    = (inr (X', ids), tt)
    /\ (n_rows Samples.nan_frame < 5 ->
        ids
        = column_names
            (select_dtypes is_object_or_string
               (infer_objects col_dtype
                  (drop_ignore Samples.nan_frame ["y"])))).
Proof.
  do 2 eexists.
  refine ((fun H =>
    conj H
      (proj2 (proj2
         (drop_id_cols_drops (L := Reference.library)
            (R := Reference.identity_source) col_dtype Samples.no_setitem
            _ _ _ _ _ _ H)))) _).
  vm_compute. reflexivity.
Defined.

Section TimestampFacts.
Context {L : Library} {R : RandomSource}.
Variable inferred_dtype : Column -> Dtype.

Lemma mapM_inv_result {A B : Type} (f : A -> M B) (l : list A)
  (g g' : rng) (ys : list B) (y : B) :
  mapM f l g = (inr ys, g') ->
  In y ys ->
  exists x ga gb, In x l /\ f x ga = (inr y, gb).
Proof.
  intros H. apply mapM_inv in H.
  induction H as [|a b l l' [ga [gb Hab]] _ IH]; intros Hin; [destruct Hin|].
  destruct Hin as [<-|Hin].
  - exists a, ga, gb. split; [now left|exact Hab].
  - destruct (IH Hin) as [x [ga' [gb' [Hx Hf]]]].
    exists x, ga', gb'. split; [now right|exact Hf].
Qed.

(** The columns that [remove_timestamps] inspects come from predictors of
    object dtype. *)
Lemma inspected_columns_origin (df : DataFrame) (target : string)
  (x : string * Column) :
  In x (df_columns
          (dropna_rows
             (select_dtypes is_object
                (infer_objects inferred_dtype (drop_ignore df [target]))))) ->
  exists c, In (fst x, c) (df_columns df)
            /\ is_object (col_dtype c) = true
            /\ fst x <> target.
Proof.
  unfold dropna_rows, filter_rows. cbn [df_columns]. intros Hx.
  apply in_map_iff in Hx. destruct Hx as [c1 [<- Hc1]]. cbn [fst].
  unfold select_dtypes in Hc1. cbn [df_columns] in Hc1.
  apply filter_In in Hc1. destruct Hc1 as [Hc1 Hobj].
  unfold infer_objects in Hc1. cbn [df_columns] in Hc1.
  apply in_map_iff in Hc1. destruct Hc1 as [[name c0] [<- Hc0]].
  cbn [fst snd] in *.
  unfold drop_ignore in Hc0. cbn [df_columns] in Hc0.
  apply filter_In in Hc0. destruct Hc0 as [Hc0 Hkeep]. cbn [fst] in Hkeep.
  exists c0. split; [exact Hc0|]. split.
  - destruct (is_object (col_dtype c0)) eqn:E0; [reflexivity|].
    cbn iota in Hobj. congruence.
  - intros ->. apply negb_true_iff in Hkeep.
    assert (Hs : str_in target [target] = true)
      by (apply str_in_In; now left).
    congruence.
Qed.

(** X24.  In a frame with distinct column names, [remove_timestamps]
    leaves the rows, the target and every column that is not of object
    dtype as they are: only predictors of object dtype are dropped. *)
Theorem remove_timestamps_keeps (df : DataFrame) (target : string)
  (g g' : rng) (df' : DataFrame) (drops : list string) :
  NoDup (column_names df) ->
  remove_timestamps inferred_dtype df target g = (inr (df', drops), g') ->
  df_index df' = df_index df
  /\ (forall name, In name drops ->
        In name (column_names df) /\ name <> target)
  /\ (forall name c, In (name, c) (df_columns df) ->
        name = target \/ is_object (col_dtype c) = false ->
        In (name, c) (df_columns df')).
Proof.
  intros Hnd H. unfold remove_timestamps in H.
  apply bind_inv in H. destruct H as [found [g1 [Hfound H]]].
  unfold ret in H.
  assert (Edf : df' = drop_ignore df (concat found)) by congruence.
  assert (Edrops : drops = concat found) by congruence.
  clear H. subst df' drops.
  assert (Horigin : forall name, In name (concat found) ->
            exists c, In (name, c) (df_columns df)
                      /\ is_object (col_dtype c) = true /\ name <> target).
  { intros name Hin. apply in_concat in Hin. destruct Hin as [l [Hl Hname]].
    destruct (mapM_inv_result _ _ _ _ _ l Hfound Hl)
      as [x [ga [gb [Hx Hf]]]].
    apply bind_inv in Hf. destruct Hf as [t [g2 [_ Hf]]].
    unfold ret in Hf.
    assert (El : l = if fst t then [fst x] else []) by congruence.
    rewrite El in Hname. destruct (fst t); [|destruct Hname].
    destruct Hname as [<-|[]].
    now apply (inspected_columns_origin df target x). }
  split; [reflexivity|]. split.
  - intros name Hin. destruct (Horigin name Hin) as [c [Hc [_ Hne]]].
    split; [|exact Hne]. apply (in_map fst) in Hc. exact Hc.
  - intros name c Hc Hcase. unfold drop_ignore. cbn [df_columns].
    apply filter_In. split; [exact Hc|]. cbn [fst]. apply negb_true_iff.
    destruct (str_in name (concat found)) eqn:E; [|reflexivity].
    exfalso. apply str_in_In in E.
    destruct (Horigin name E) as [c0 [Hc0 [Hobj Hne]]].
    assert (Eq : (name, c0) = (name, c)).
    { apply (NoDup_map_inj fst (df_columns df)); auto. }
    injection Eq as ->.
    destruct Hcase as [->|Hd]; [now apply Hne|congruence].
Qed.

End TimestampFacts.

Lemma remove_timestamps_keeps_witness :
  NoDup (column_names Samples.dated_frame)
  /\ exists df',
       remove_timestamps (L := Reference.library)
         (R := Reference.identity_source) col_dtype Samples.dated_frame "y"
         tt
       = (inr (df', ["when"]), tt)
       /\ df_index df' = df_index Samples.dated_frame
       /\ (forall name, In name ["when"] ->
             In name (column_names Samples.dated_frame) /\ name <> "y")
       /\ (forall name c, In (name, c) (df_columns Samples.dated_frame) ->
             name = "y" \/ is_object (col_dtype c) = false ->
             In (name, c) (df_columns df')).
Proof.
  assert (Hnd : NoDup (column_names Samples.dated_frame)).
  { constructor; [intros [H|[H|[]]]; discriminate|].
    constructor; [intros [H|[]]; discriminate|].
    constructor; [intros []|constructor]. }
  refine (conj Hnd _). eexists.
  refine ((fun H =>
    conj H
      (remove_timestamps_keeps (L := Reference.library)
         (R := Reference.identity_source) col_dtype _ _ _ _ _ _ Hnd H)) _).
  vm_compute. reflexivity.
Defined.

(* ================================================================== *)
(** * The binary and the multi-level categoricals *)
(* ================================================================== *)

Lemma dict_set_NoDup {A : Type} (k : string) (v : A) (d : dict A) :
  NoDup (dict_keys d) -> NoDup (dict_keys (dict_set k v d)).
Proof.
  unfold dict_keys. induction d as [|[k' v'] t IH]; cbn [dict_set map fst].
  - intros _. constructor; [intros []|constructor].
  - intros Hnd. apply NoDup_cons_iff in Hnd. destruct Hnd as [Hout Hnd].
    destruct (String.eqb_spec k k') as [->|Hne]; cbn [map fst].
    + constructor; assumption.
    + constructor; [|now apply IH].
      intros Hin. apply (dict_set_keys k v t k') in Hin.
      destruct Hin as [->|Hin]; [now apply Hne|contradiction].
Qed.

Lemma keys_where_In (p : Z -> bool) (d : dict Z) (name : string) :
  NoDup (dict_keys d) ->
  In name (keys_where p d)
  <-> exists v, assoc name d = Some v /\ p v = true.
Proof.
  intros Hnd. unfold keys_where. rewrite in_map_iff. split.
  - intros [[k v] [<- Hin]]. apply filter_In in Hin.
    destruct Hin as [Hin Hp]. cbn [fst snd] in *. exists v.
    split; [|exact Hp].
    destruct (assoc_In k d) as [v' Hv']; [now apply (in_map fst) in Hin|].
    apply assoc_In_pair in Hv' as Hin'.
    assert (E : (k, v') = (k, v))
      by (apply (NoDup_map_inj fst d); auto).
    congruence.
  - intros [v [Hv Hp]]. exists (name, v). split; [reflexivity|].
    apply filter_In. split; [now apply assoc_In_pair|exact Hp].
Qed.

Section CategoricalSplit.
Context {L : Library} {R : RandomSource}.

Lemma get_unq_counts_NoDup (df : DataFrame) (target : string) :
  NoDup (dict_keys (snd (get_unq_counts df target))).
Proof.
  unfold get_unq_counts.
  set (step := fun (acc : dict nat * dict Z) (c : string * Column) => _).
  assert (H : forall cols acc, NoDup (dict_keys (snd acc)) ->
            NoDup (dict_keys (snd (fold_left step cols acc)))).
  { induction cols as [|c t IH]; intros acc Hacc; [exact Hacc|].
    cbn [fold_left]. apply IH. unfold step. cbn [snd].
    now apply dict_set_NoDup. }
  apply H. constructor.
Qed.

(** X25.  In what [inspect_data] returns, the binary and the multi-level
    categoricals are sorted lists without repeats that share no column,
    and each of their columns is a declared or an inferred categorical. *)
Theorem inspect_data_cats_split (df : DataFrame) (target : string)
  (categoricals ordinals : list string) (g g' : rng)
  (results : InspectionResults) :
  inspect_data df target categoricals ordinals g = (inr results, g') ->
  NoDup (bin_cats results) /\ NoDup (multi_cats results)
  /\ names_sorted (bin_cats results) /\ names_sorted (multi_cats results)
  /\ forall name,
       (In name (bin_cats results) -> ~ In name (multi_cats results))
       /\ (In name (bin_cats results) \/ In name (multi_cats results) ->
           In name categoricals
           \/ In name (dict_keys (descs (cats results)))).
Proof.
  unfold inspect_data. intros H.
  apply bind_inv in H. destruct H as [columns [g1 [_ H]]].
  apply bind_inv in H. destruct H as [X [g2 [_ H]]].
  apply bind_inv in H. destruct H as [strs [g3 [_ H]]].
  apply bind_inv in H.
  destruct H as [[[int_ords int_ids] int_consts] [g4 [_ H]]].
  apply bind_inv in H. destruct H as [other [g5 [_ H]]].
  apply bind_inv in H. destruct H as [all_consts [g6 [_ H]]].
  pose proof (get_unq_counts_NoDup X target) as Hnd.
  destruct (get_unq_counts X target) as [unique_counts nanless_cnts].
  cbn [snd] in Hnd.
  apply bind_inv in H.
  destruct H as [[[bigs inflation] big_info] [g7 [_ H]]].
  match type of H with
  | (if ?b then _ else _) _ = _ => destruct b; [discriminate|]
  end.
  unfold ret in H.
  set (all_cats := (categoricals ++ dict_keys (descs (cat_info strs)))%list)
    in *.
  assert (Eb : bin_cats results
               = sorted_set
                   (inter (keys_where (fun cnt => (cnt =? 2)%Z) nanless_cnts)
                      all_cats))
    by (injection H as <- _; reflexivity).
  assert (Em : multi_cats results
               = sorted_set
                   (inter (keys_where (fun cnt => (cnt >? 2)%Z) nanless_cnts)
                      all_cats))
    by (injection H as <- _; reflexivity).
  assert (Ec : cats results = cat_info strs)
    by (injection H as <- _; reflexivity).
  clear H. rewrite Eb, Em, Ec.
  split; [apply sorted_set_NoDup|]. split; [apply sorted_set_NoDup|].
  split; [apply sorted_set_sorted|]. split; [apply sorted_set_sorted|].
  intros name. split.
  - intros Hb Hm.
    apply sorted_set_In, inter_In in Hb. apply sorted_set_In, inter_In in Hm.
    destruct Hb as [Hb _]. destruct Hm as [Hm _].
    apply (keys_where_In _ _ _ Hnd) in Hb, Hm.
    destruct Hb as [v [Hv Hb]]. destruct Hm as [w [Hw Hm]].
    assert (w = v) by congruence. subst w. lia.
  - intros [Hin|Hin]; apply sorted_set_In, inter_In in Hin;
      destruct Hin as [_ Hin]; apply in_app_or in Hin; exact Hin.
Qed.

End CategoricalSplit.

Lemma inspect_data_cats_split_witness :
  exists results,
    inspect_data (L := Reference.library) (R := Reference.identity_source)
      Samples.word_frame "y" [] [] tt = (inr results, tt)
    /\ bin_cats results = ["x"]
    /\ NoDup (bin_cats results)
    /\ forall name,
         In name (bin_cats results) -> ~ In name (multi_cats results).
Proof.
  eexists. split; [vm_compute; reflexivity|]. split; [reflexivity|].
  match goal with
  | |- NoDup (bin_cats ?r) /\ _ =>
      assert (H : inspect_data (L := Reference.library)
                    (R := Reference.identity_source) Samples.word_frame "y"
                    [] [] tt = (inr r, tt))
        by (vm_compute; reflexivity)
  end.
  exact
    (conj
       (proj1 (inspect_data_cats_split (L := Reference.library)
                 (R := Reference.identity_source) _ _ _ _ _ _ _ H))
       (fun name =>
          proj1 (proj2 (proj2 (proj2 (proj2
            (inspect_data_cats_split (L := Reference.library)
               (R := Reference.identity_source) _ _ _ _ _ _ _ H))))
            name))).
Defined.

(* ================================================================== *)
(** * The constant columns among the other columns *)
(* ================================================================== *)

Lemma fold_dict_set_keys {A : Type} (l : list (string * A)) (d : dict A)
  (k : string) :
  In k (dict_keys (fold_left (fun d kv => dict_set (fst kv) (snd kv) d) l d))
  <-> In k (map fst l) \/ In k (dict_keys d).
Proof.
  revert d. induction l as [|[k1 v1] t IH]; intros d; cbn [fold_left map fst].
  - cbn [In]. tauto.
  - rewrite IH, dict_set_keys. cbn [fst snd In]. intuition congruence.
Qed.

Section OtherColumns.
Context {L : Library} {R : RandomSource}.

Lemma mapM_inv_arg {A B : Type} (f : A -> M B) (l : list A)
  (g g' : rng) (ys : list B) (x : A) :
  mapM f l g = (inr ys, g') ->
  In x l ->
  exists y ga gb, In y ys /\ f x ga = (inr y, gb).
Proof.
  intros H. apply mapM_inv in H.
  induction H as [|a b l l' [ga [gb Hab]] _ IH]; intros Hin; [destruct Hin|].
  destruct Hin as [<-|Hin].
  - exists b, ga, gb. split; [now left|exact Hab].
  - destruct (IH Hin) as [y [ga' [gb' [Hy Hf]]]].
    exists y, ga', gb'. split; [now right|exact Hf].
Qed.

(** X26.  [inspect_other_columns], when it returns, returns an info of
    kind [Const] whose columns are exactly the columns of [other_cols]
    that [looks_constant] accepts. *)
Theorem inspect_other_columns_constants (X : DataFrame)
  (other_cols : list string) (g g' : rng) (info : InspectionInfo) :
  inspect_other_columns X other_cols g = (inr info, g') ->
  kind info = Const
  /\ forall name,
       In name (dict_keys (descs info))
       <-> In name other_cols
           /\ exists c, assoc name (df_columns X) = Some c
                        /\ fst (looks_constant (series_of_column X c)) = true.
Proof.
  unfold inspect_other_columns. intros H.
  apply bind_inv in H. destruct H as [found [g1 [Hfound H]]].
  unfold ret in H.
  assert (Einfo : info
            = mkInfo Const
                (fold_left (fun d kv => dict_set (fst kv) (snd kv) d)
                   (concat found) [])) by congruence.
  clear H. subst info. split; [reflexivity|]. intros name. cbn [descs].
  rewrite fold_dict_set_keys. cbn [dict_keys map In].
  assert (Hstep : forall x y ga gb,
            (series <- getitem X x ;;
             (let '(is_const, desc) := looks_constant series in
              ret (if is_const then [(x, desc)] else [])))
              ga = (inr y, gb) ->
            exists c, assoc x (df_columns X) = Some c
                      /\ y = if fst (looks_constant (series_of_column X c))
                             then [(x, snd (looks_constant
                                              (series_of_column X c)))]
                             else []).
  { intros x y ga gb Hf. unfold bind, getitem in Hf.
    destruct (assoc x (df_columns X)) as [c|]; [|discriminate].
    exists c. split; [reflexivity|]. unfold ret in Hf.
    destruct (looks_constant (series_of_column X c)) as [b desc].
    cbn [fst snd]. congruence. }
  split.
  - intros [Hin|[]]. apply in_map_iff in Hin.
    destruct Hin as [[k v] [<- Hkv]]. cbn [fst].
    apply in_concat in Hkv. destruct Hkv as [l [Hl Hkv]].
    destruct (mapM_inv_result _ _ _ _ _ l Hfound Hl)
      as [x [ga [gb [Hx Hf]]]].
    destruct (Hstep _ _ _ _ Hf) as [c [Hc El]]. rewrite El in Hkv.
    destruct (fst (looks_constant (series_of_column X c))) eqn:Eb;
      [|destruct Hkv].
    destruct Hkv as [Hkv|[]]. injection Hkv as <- _.
    split; [exact Hx|]. exists c. split; assumption.
  - intros [Hin [c [Hc Hb]]]. left.
    destruct (mapM_inv_arg _ _ _ _ _ name Hfound Hin)
      as [y [ga [gb [Hy Hf]]]].
    destruct (Hstep _ _ _ _ Hf) as [c' [Hc' El]].
    assert (c' = c) by congruence. subst c'. rewrite Hb in El.
    apply in_map_iff.
    exists (name, snd (looks_constant (series_of_column X c))).
    split; [reflexivity|]. apply in_concat. exists y.
    split; [exact Hy|]. rewrite El. now left.
Qed.

End OtherColumns.

Lemma inspect_other_columns_constants_witness :
  exists info,
    inspect_other_columns (L := Reference.library)
      (R := Reference.identity_source) Samples.three_rows ["x"] tt
    = (inr info, tt)
    /\ kind info = Const
    /\ ~ In "x" (dict_keys (descs info)).
Proof.
  eexists. split; [vm_compute; reflexivity|].
  match goal with
  | |- kind ?i = Const /\ _ =>
      assert (H : inspect_other_columns (L := Reference.library)
                    (R := Reference.identity_source) Samples.three_rows
                    ["x"] tt = (inr i, tt))
        by (vm_compute; reflexivity)
  end.
  refine (conj
            (proj1 (inspect_other_columns_constants (L := Reference.library)
                      (R := Reference.identity_source) _ _ _ _ _ H)) _).
  intros [].
Defined.

(* ================================================================== *)
(** * The ordinal and categorical columns of [inspect_str_columns] *)
(* ================================================================== *)

Section DeclaredColumns.
Context {L : Library} {R : RandomSource}.

(** X7.  What [inspect_str_columns] reports as ordinal or as categorical
    is one of the inspected columns, and never a column that the user
    declared ordinal or categorical; and a column reported as ordinal is
    a column of the frame that [looks_ordinal] accepts. *)
Theorem inspect_str_columns_respects_declared (df : DataFrame)
  (str_cols categoricals ordinals : list string) (g g' : rng)
  (infos : Infos) (name : string) :
  inspect_str_columns df str_cols categoricals ordinals g
  = (inr infos, g') ->
  (In name (dict_keys (descs (ord_info infos)))
   \/ In name (dict_keys (descs (cat_info infos))) ->
   In name str_cols /\ ~ In name ordinals /\ ~ In name categoricals)
  /\ (In name (dict_keys (descs (ord_info infos))) ->
      exists c,
        assoc name (df_columns df) = Some c
        /\ fst (looks_ordinal (series_of_column df c)) = true).
Proof.
  intros Hrun. split; [now apply (inspect_str_columns_keys df) with g g'|].
  intros Hin. unfold inspect_str_columns in Hrun.
  apply bind_inv in Hrun. destruct Hrun as [l [g1 [Hd Hc]]].
  apply collect_descs_inv in Hc. destruct Hc as [ds [-> [-> _]]].
  apply record_desc_ord_keys in Hin.
  destruct Hin as [[]|[d [Hd' [Hname Hset]]]].
  unfold describe_columns in Hd.
  destruct (mapM_inv_result _ _ _ _ _ (inl d) Hd (in_map inl _ _ Hd'))
    as [x [ga [gb [_ Hx]]]].
  apply bind_inv in Hx. destruct Hx as [series [g2 [Hget Hx]]].
  unfold getitem in Hget.
  destruct (assoc x (df_columns df)) as [c|] eqn:Ec; [|discriminate].
  unfold ret in Hget.
  assert (Es : series = series_of_column df c) by congruence. subst series.
  destruct (inspect_str_column_desc _ _ _ _ _ _ _ Hx) as [Hcol _].
  destruct (inspect_str_column_fired _ _ _ _ _ _ _ Hx) as [Hfired _].
  assert (Ex : x = name) by congruence. rewrite Ex in Ec.
  exists c. split; [exact Ec|].
  destruct (desc_ord d) as [reason|]; [|discriminate].
  now rewrite (Hfired reason eq_refl).
Qed.

End DeclaredColumns.

Lemma inspect_str_columns_respects_declared_witness :
  exists infos,
    inspect_str_columns (L := Reference.library)
      (R := Reference.identity_source) Samples.mixed_frame ["x"] [] [] tt
    = (inr infos, tt)
    /\ In "x" (dict_keys (descs (cat_info infos)))
    /\ In "x" ["x"] /\ ~ In "x" [] /\ ~ In "x" [].
Proof.
  eexists.
  refine ((fun H Hin =>
    conj H (conj Hin
      (proj1
         (inspect_str_columns_respects_declared (L := Reference.library)
            (R := Reference.identity_source) _ _ _ _ _ _ _ "x" H)
         (or_intror Hin)))) _ _).
  - vm_compute. reflexivity.
  - vm_compute. left. reflexivity.
Defined.
